(** * Student report generator: cleaning pipeline, deduplication, statistics

    A shallow embedding of [report_generator.py]: the data frame that the
    pandas code manipulates, the cleaning pipeline [clean_df], the
    deduplicator [drop_duplicates] and the grouped statistics of
    [TrackStatistics], [CohortStatistics], [IncomeStatusStatistics] and
    [compute_all_stats].

    Conventions of the embedding:
    - a cell of a frame is a value of type [cell]; [NA] stands for every
      missing marker of pandas (NaN, None, pd.NA);
    - numbers are exact rationals ([Q]); binary floating-point error is
      outside the model;
    - a raised Python exception is the [Raise] case of [result];
    - Python and pandas primitives whose definition lives outside the
      repository (string methods of [str], the text parser of
      [pd.to_numeric], [repr] of a float) are the fields of the class
      [PyLib]; every theorem holds for any implementation of them. *)

From stdpp Require Import gmap strings list fin_maps sorting.
From Stdlib Require Import QArith Qcanon Qround Qabs Lqa ZArith Lia Ascii.

Open Scope string_scope.

(** ** Cells, exceptions *)

Inductive cell :=
| NA
| VStr (s : string)
| VInt (z : Z)
| VFloat (q : Q)
| VBool (b : bool).

Global Instance cell_inhabited : Inhabited cell := populate NA.

Global Instance Q_eq_dec : EqDecision Q.
Proof. solve_decision. Defined.

Global Instance cell_eq_dec : EqDecision cell.
Proof. solve_decision. Defined.

Definition is_na (v : cell) : bool :=
  match v with NA => true | _ => false end.

Inductive exn :=
| KeyError (c : string)
| TypeError
| ValueError.

Inductive result (A : Type) :=
| Ok (a : A)
| Raise (e : exn).
Arguments Ok {A} a.
Arguments Raise {A} e.

Global Instance result_ret : MRet result := fun A a => Ok a.
Global Instance result_bind : MBind result := fun A B f m =>
  match m with Ok a => f a | Raise e => Raise e end.

Global Instance result_fmap : FMap result := fun A B f m =>
  match m with Ok a => Ok (f a) | Raise e => Raise e end.

Fixpoint mapR {A B} (f : A -> result B) (l : list A) : result (list B) :=
  match l with
  | [] => Ok []
  | x :: l' => y ← f x; ys ← mapR f l'; Ok (y :: ys)
  end.

Fixpoint foldR {A S} (f : S -> A -> result S) (s : S) (l : list A) : result S :=
  match l with
  | [] => Ok s
  | x :: l' => s' ← f s x; foldR f s' l'
  end.

(** ** Text: character classes, the three regular expressions, [str] of an int *)

Definition is_digit (a : ascii) : bool :=
  let n := nat_of_ascii a in (48 <=? n)%nat && (n <=? 57)%nat.

Definition is_alpha (a : ascii) : bool :=
  let n := nat_of_ascii a in
  ((65 <=? n)%nat && (n <=? 90)%nat) || ((97 <=? n)%nat && (n <=? 122)%nat).

(** One position of a pattern: [\d], [[A-Za-z]] or a literal character. *)
Inductive cclass := Digit | Alpha | Lit (a : ascii).

Definition cclass_match (k : cclass) (a : ascii) : bool :=
  match k with
  | Digit => is_digit a
  | Alpha => is_alpha a
  | Lit b => Ascii.eqb a b
  end.

(** [re.fullmatch] for a pattern that is a sequence of character classes. *)
Fixpoint fullmatch (p : list cclass) (s : string) : bool :=
  match p, s with
  | [], EmptyString => true
  | k :: p', String a s' => cclass_match k a && fullmatch p' s'
  | _, _ => false
  end.

(** [\d{2}[A-Za-z]], [\d{2}-\d{2}] and [\d{4}]. *)
Definition re_class : list cclass := [Digit; Digit; Alpha].
Definition re_cohort : list cclass := [Digit; Digit; Lit "-"%char; Digit; Digit].
Definition re_student_id : list cclass := [Digit; Digit; Digit; Digit].

Definition digit_char (d : Z) : ascii := ascii_of_nat (48 + Z.to_nat d).

(** Decimal digits of a non-negative integer, most significant first. *)
Fixpoint str_of_nonneg (fuel : nat) (n : Z) (acc : string) : string :=
  match fuel with
  | O => acc
  | S fuel' =>
      let acc' := String (digit_char (n mod 10)) acc in
      if (n / 10 =? 0)%Z then acc' else str_of_nonneg fuel' (n / 10) acc'
  end.

(** Python's [str] on an [int]. *)
Definition str_of_Z (z : Z) : string :=
  if (z <? 0)%Z
  then String "-"%char (str_of_nonneg (S (Z.to_nat (Z.log2 (- z)))) (- z) "")
  else str_of_nonneg (S (Z.to_nat (Z.log2 z))) z "".

Definition digit_val (a : ascii) : Z := Z.of_nat (nat_of_ascii a) - 48.

(** Value of a string of decimal digits, read left to right. *)
Fixpoint digits_value (acc : Z) (s : string) : Z :=
  match s with
  | EmptyString => acc
  | String a s' => digits_value (10 * acc + digit_val a) s'
  end.

Fixpoint all_digits (s : string) : bool :=
  match s with
  | EmptyString => true
  | String a s' => is_digit a && all_digits s'
  end.

(** ** Library primitives *)

Class PyLib := {
  (** [str.strip], [str.title], [str.upper] *)
  str_strip : string -> string;
  str_title : string -> string;
  str_upper : string -> string;
  (** [str] of a float, as [astype("string")] prints it *)
  float_repr : Q -> string;
  (** [pd.to_numeric] on one text cell; [None] when the text is not a number *)
  parse_numeric : string -> option Q
}.

(** What the proofs about identifiers use of [pd.to_numeric]: a short run of
    decimal digits parses as the integer it denotes (leading zeros are
    allowed and do not count). *)
Definition parses_digits `{PyLib} : Prop :=
  forall s, s <> "" -> all_digits s = true -> (String.length s <= 18)%nat ->
    parse_numeric s = Some (inject_Z (digits_value 0 s)).

(** ** Data frames *)

(** A row maps column names to cells; a frame is the list of its column
    names and its rows, each with its index label. *)
Abbreviation row := (gmap string cell).

Record DataFrame := {
  columns : list string;
  rows : list (Z * row)
}.

(** [c in df] *)
Definition has_col (c : string) (df : DataFrame) : bool :=
  bool_decide (c ∈ columns df).

(** [df[c]] at one row; an absent cell reads as missing. *)
Definition get (c : string) (r : row) : cell := r !!! c.

(** [df[c] = ...], the new cell of each row computed from the row. *)
Definition assign (c : string) (f : row -> cell) (df : DataFrame) : DataFrame :=
  {| columns := if has_col c df then columns df else (columns df ++ [c])%list;
     rows := fmap (fun ir : Z * row => (ir.1, <[c := f ir.2]> ir.2)) (rows df) |}.

(** The same, when computing a cell may raise. *)
Definition assignR (c : string) (f : row -> result cell) (df : DataFrame)
  : result DataFrame :=
  rs ← mapR (fun ir => v ← f ir.2; Ok (ir.1, <[c := v]> ir.2)) (rows df);
  Ok {| columns := if has_col c df then columns df else (columns df ++ [c])%list;
        rows := rs |}.

(** [for c in cs: if c in df: body] *)
Definition for_cols (cs : list string) (body : string -> DataFrame -> DataFrame)
    (df : DataFrame) : DataFrame :=
  foldl (fun d c => if has_col c d then body c d else d) df cs.

Definition for_colsR (cs : list string)
    (body : string -> DataFrame -> result DataFrame)
    (df : DataFrame) : result DataFrame :=
  foldR (fun d c => if has_col c d then body c d else Ok d) df cs.

(** ** Numbers: mean and rounding *)

(** The numbers of the model are rationals, and its arithmetic is exact. The
    program computes in binary floating point: a float of the program is the
    number of the model up to its rounding error, which decides the last
    digit of [round1] where the exact value is at a tie between two
    neighbours, or next to one. *)

Definition Qsum (l : list Q) : Q := foldr Qplus 0 l.

(** Mean of the values, [None] (NaN) when there is none. *)
Definition mean (l : list Q) : option Q :=
  match l with
  | [] => None
  | _ => Some (Qred (Qsum l / inject_Z (Z.of_nat (length l)))%Q)
  end.

(** Nearest integer, a tie going to the even neighbour ([np.rint]). *)
Definition round_half_even (q : Q) : Z :=
  let f := Qfloor q in
  match Qcompare (q - inject_Z f)%Q (1 # 2)%Q with
  | Lt => f
  | Gt => (f + 1)%Z
  | Eq => if Z.even f then f else (f + 1)%Z
  end.

(** [round(x, 1)] *)
Definition round1 (q : Q) : Q := Qred (round_half_even (q * 10)%Q # 10).

(** ** 1. Data loading and cleaning *)

Definition SPECIAL_NULLS : list string :=
  [""; " "; "NA"; "N/A"; "n/a"; "NaN"; "-"; "Waived"; "None"; "null"].

Definition BOOL_MAP : gmap string bool :=
  list_to_map
    [("TRUE", true); ("FALSE", false); ("Y", true); ("N", false);
     ("YES", true); ("NO", false); ("1", true); ("0", false);
     ("1.0", true); ("0.0", false)].

Definition str_cols : list string :=
  ["FirstName"; "LastName"; "Class"; "Cohort"; "Track"].
Definition int_cols : list string := ["StudentID"; "Term"].
Definition score_cols : list string :=
  ["Math"; "English"; "Science"; "History"; "Attendance (%)"; "ProjectScore"].
Definition boolean_cols : list string := ["IncomeStudent"; "Passed (Y/N)"].

(** [load_all_sheets]: every sheet's rows get the sheet name as [Track];
    the sheets are concatenated in workbook order and the index is renumbered
    from 0 ([ignore_index=True]). A sheet is its name, its columns and its
    rows; the columns of the result are those of the sheets, in order of first
    appearance, then [Track]. *)
Definition sheet : Type := string * list string * list row.

Definition load_all_sheets (wb : list sheet) : DataFrame :=
  let frames :=
    fmap (fun sh : sheet =>
           let '(name, cols, rs) := sh in
           ((if bool_decide ("Track" ∈ cols) then cols else (cols ++ ["Track"])%list),
            fmap (fun r : row => <["Track" := VStr name]> r) rs)) wb in
  let all_rows := concat (fmap snd frames) in
  {| columns := foldl (fun acc cs => (acc ++ filter (fun c => c ∉ acc) cs)%list) []
                  (fmap fst frames);
     rows := zip (fmap Z.of_nat (seq 0 (length all_rows))) all_rows |}.

Section Pipeline.
Context `{L : PyLib}.

(** [df.replace(SPECIAL_NULLS, pd.NA)], one cell *)
Definition replace_null (v : cell) : cell :=
  match v with
  | VStr s => if bool_decide (s ∈ SPECIAL_NULLS) then NA else v
  | _ => v
  end.

Definition replace_special_nulls (df : DataFrame) : DataFrame :=
  {| columns := columns df;
     rows := fmap (fun ir : Z * row => (ir.1, replace_null <$> ir.2)) (rows df) |}.

(** [astype("string")], one cell: a missing cell stays missing *)
Definition astype_string (v : cell) : option string :=
  match v with
  | NA => None
  | VStr s => Some s
  | VInt z => Some (str_of_Z z)
  | VFloat q => Some (float_repr q)
  | VBool b => Some (if b then "True" else "False")
  end.

Definition of_string (o : option string) : cell :=
  match o with Some s => VStr s | None => NA end.

(** [.astype("string").str.strip().str.title()], one cell *)
Definition normalize_cell (v : cell) : cell :=
  of_string (str_title <$> (str_strip <$> astype_string v)).

(** [df[c] = df[c].astype("string").str.strip().str.title()] *)
Definition normalize_str (c : string) (df : DataFrame) : DataFrame :=
  assign c (fun r => normalize_cell (get c r)) df.

(** One cell under [df.loc[~df[c].str.fullmatch(p), c] = pd.NA]: a missing
    cell gives a missing mask entry, which [loc] reads as False. *)
Definition validate_cell (p : list cclass) (v : cell) : cell :=
  match v with
  | VStr s => if fullmatch p s then VStr s else NA
  | _ => v
  end.

Definition validate_format (p : list cclass) (c : string) (df : DataFrame)
  : DataFrame :=
  assign c (fun r => validate_cell p (get c r)) df.

(** [pd.to_numeric(..., errors="coerce")], one cell. The numbers are finite:
    a text that pandas reads as an infinity is outside the model. *)
Definition to_numeric (v : cell) : option Q :=
  match v with
  | NA => None
  | VStr s => parse_numeric s
  | VInt z => Some (inject_Z z)
  | VFloat q => Some q
  | VBool b => Some (if b then 1 else 0)%Q
  end.

Definition int64_min : Z := (- 2 ^ 63)%Z.
Definition int64_max : Z := (2 ^ 63 - 1)%Z.

(** [astype("Int64")], one cell: a number that is not an integer of 64 bits
    cannot be cast safely and raises [TypeError]. (An infinity, which the
    model does not have, makes pandas raise [OverflowError].) *)
Definition astype_Int64 (x : option Q) : result cell :=
  match x with
  | None => Ok NA
  | Some q =>
      let q' := Qred q in
      if (Qden q' =? 1)%positive && (int64_min <=? Qnum q')%Z
         && (Qnum q' <=? int64_max)%Z
      then Ok (VInt (Qnum q'))
      else Raise TypeError
  end.

(** [df[c] = pd.to_numeric(df[c], errors="coerce").astype("Int64")] *)
Definition coerce_int (c : string) (df : DataFrame) : result DataFrame :=
  assignR c (fun r => astype_Int64 (to_numeric (get c r))) df.

(** [astype(str)], one cell: a missing cell prints as text *)
Definition astype_str (v : cell) : string :=
  match v with
  | NA => "<NA>"
  | VStr s => s
  | VInt z => str_of_Z z
  | VFloat q => float_repr q
  | VBool b => if b then "True" else "False"
  end.

Definition student_id_cell (v : cell) : cell :=
  if fullmatch re_student_id (astype_str v) then v else NA.

(** [df.loc[~df['StudentID'].astype(str).str.fullmatch(r'\d{4}'), 'StudentID'] = pd.NA] *)
Definition validate_student_id (df : DataFrame) : DataFrame :=
  assign "StudentID" (fun r => student_id_cell (get "StudentID" r)) df.

(** [isin([1, 2])], one cell *)
Definition isin_1_2 (v : cell) : bool :=
  match v with
  | VInt z => (z =? 1)%Z || (z =? 2)%Z
  | VFloat q => Qeq_bool q 1 || Qeq_bool q 2
  | _ => false
  end.

Definition term_cell (v : cell) : cell := if isin_1_2 v then v else NA.

(** [df.loc[~df['Term'].isin([1, 2]), 'Term'] = pd.NA] *)
Definition validate_term (df : DataFrame) : DataFrame :=
  assign "Term" (fun r => term_cell (get "Term" r)) df.

Definition of_float (o : option Q) : cell :=
  match o with Some q => VFloat q | None => NA end.

Definition as_float (v : cell) : option Q :=
  match v with VFloat q => Some q | _ => None end.

(** [df[c] = pd.to_numeric(df[c], errors="coerce")] *)
Definition coerce_score (c : string) (df : DataFrame) : DataFrame :=
  assign c (fun r => of_float (to_numeric (get c r))) df.

Definition out_of_range (q : Q) : bool :=
  negb (Qle_bool 0 q) || negb (Qle_bool q 100).

Definition range_cell (v : cell) : cell :=
  match v with
  | VFloat q => if out_of_range q then NA else v
  | _ => v
  end.

(** [df.loc[(df[c] < 0) | (df[c] > 100), c] = pd.NA], on the column of
    floats that the coercion gives. (A column that holds booleans only stays
    of boolean type in pandas, and the assignment raises on it: such a
    column is outside the model.) *)
Definition range_filter (c : string) (df : DataFrame) : DataFrame :=
  assign c (fun r => range_cell (get c r)) df.

Definition as_bool (v : cell) : option bool :=
  match v with VBool b => Some b | _ => None end.

(** The rows of the group of key [k] under [df.groupby(key)]. *)
Definition group_rows (key : string) (k : cell) (rs : list (Z * row))
  : list (Z * row) :=
  filter (fun ir => get key ir.2 = k) rs.

(** [df.groupby('Track')[c].transform('mean')] at one row: the mean of the
    non-missing values of [c] in the row's group; rows with a missing key
    belong to no group. *)
Definition transform_mean (c : string) (df : DataFrame) (r : row) : option Q :=
  match get "Track" r with
  | NA => None
  | k => mean (omap (fun ir => as_float (get c ir.2))
                 (group_rows "Track" k (rows df)))
  end.

(** [fillna] *)
Definition fillna (v fill : cell) : cell :=
  match v with NA => fill | _ => v end.

(** [grp_mean = df.groupby('Track')[c].transform('mean');
     df[c] = df[c].fillna(round(grp_mean, 1))] *)
Definition impute_score (c : string) (df : DataFrame) : result DataFrame :=
  if has_col "Track" df then
    let grp_mean := transform_mean c df in
    Ok (assign c (fun r => fillna (get c r) (of_float (round1 <$> grp_mean r))) df)
  else Raise (KeyError "Track").

Definition clean_score (c : string) (df : DataFrame) : result DataFrame :=
  impute_score c (range_filter c (coerce_score c df)).

(** [df[c].astype("string").str.upper().str.strip().map(BOOL_MAP).astype("boolean")],
    one cell *)
Definition decode_bool (v : cell) : cell :=
  match astype_string v with
  | Some s => match BOOL_MAP !! str_strip (str_upper s) with
              | Some b => VBool b
              | None => NA
              end
  | None => NA
  end.

Definition count_occ_bool (b : bool) (l : list bool) : nat :=
  length (filter (fun x => x = b) l).

(** [x.mode(dropna=True)]: the most frequent values, in ascending order
    ([False] before [True]). *)
Definition mode (l : list bool) : list bool :=
  let nf := count_occ_bool false l in
  let nt := count_occ_bool true l in
  if (nf =? 0)%nat && (nt =? 0)%nat then []
  else if (nt <? nf)%nat then [false]
  else if (nf <? nt)%nat then [true]
  else [false; true].

(** [x.mode(dropna=True).iloc[0] if not x.mode(dropna=True).empty else np.nan] *)
Definition first_mode (l : list bool) : cell :=
  match mode l with
  | [] => NA
  | b :: _ => VBool b
  end.

(** [df.groupby('Track')[c].transform(lambda x: ...)] at one row *)
Definition transform_mode (c : string) (df : DataFrame) (r : row) : cell :=
  match get "Track" r with
  | NA => NA
  | k => first_mode (omap (fun ir => as_bool (get c ir.2))
                       (group_rows "Track" k (rows df)))
  end.

Definition decode_bools (c : string) (df : DataFrame) : DataFrame :=
  assign c (fun r => decode_bool (get c r)) df.

Definition impute_bool (c : string) (df : DataFrame) : result DataFrame :=
  if has_col "Track" df then
    let grp_mode := transform_mode c df in
    Ok (assign c (fun r => fillna (get c r) (grp_mode r)) df)
  else Raise (KeyError "Track").

Definition clean_bool (c : string) (df : DataFrame) : result DataFrame :=
  impute_bool c (decode_bools c df).

(** A row without a missing cell in any column of the frame. *)
Definition complete (cols : list string) (r : row) : bool :=
  forallb (fun c => negb (is_na (get c r))) cols.

(** [df.dropna()] *)
Definition dropna (df : DataFrame) : DataFrame :=
  {| columns := columns df;
     rows := filter (fun ir => complete (columns df) ir.2 = true) (rows df) |}.

Definition if_col (c : string) (f : DataFrame -> DataFrame) (df : DataFrame)
  : DataFrame :=
  if has_col c df then f df else df.

(** The frame after every step of [clean_df] but the last ([dropna]). *)
Definition clean_steps (df : DataFrame) : result DataFrame :=
  let df := replace_special_nulls df in
  let df := for_cols str_cols normalize_str df in
  let df := if_col "Class" (validate_format re_class "Class") df in
  let df := if_col "Cohort" (validate_format re_cohort "Cohort") df in
  df ← for_colsR int_cols coerce_int df;
  let df := if_col "StudentID" validate_student_id df in
  let df := if_col "Term" validate_term df in
  df ← for_colsR score_cols clean_score df;
  for_colsR boolean_cols clean_bool df.

Definition clean_df (df : DataFrame) : result DataFrame :=
  df ← clean_steps df;
  Ok (dropna df).

End Pipeline.

(** ** An implementation of the library primitives on ASCII text

    Used to run the pipeline on concrete frames. *)

Definition is_space (a : ascii) : bool :=
  let n := nat_of_ascii a in (n =? 32)%nat || ((9 <=? n)%nat && (n <=? 13)%nat).

Definition is_upper (a : ascii) : bool :=
  let n := nat_of_ascii a in (65 <=? n)%nat && (n <=? 90)%nat.

Definition is_lower (a : ascii) : bool :=
  let n := nat_of_ascii a in (97 <=? n)%nat && (n <=? 122)%nat.

Definition to_upper (a : ascii) : ascii :=
  if is_lower a then ascii_of_nat (nat_of_ascii a - 32) else a.

Definition to_lower (a : ascii) : ascii :=
  if is_upper a then ascii_of_nat (nat_of_ascii a + 32) else a.

Fixpoint lstrip (s : string) : string :=
  match s with
  | String a s' => if is_space a then lstrip s' else s
  | EmptyString => EmptyString
  end.

Fixpoint rstrip (s : string) : string :=
  match s with
  | String a s' =>
      match rstrip s' with
      | EmptyString => if is_space a then EmptyString else String a EmptyString
      | t => String a t
      end
  | EmptyString => EmptyString
  end.

Definition ascii_strip (s : string) : string := rstrip (lstrip s).

Fixpoint ascii_upper (s : string) : string :=
  match s with
  | String a s' => String (to_upper a) (ascii_upper s')
  | EmptyString => EmptyString
  end.

(** [str.title]: a letter that follows a letter is lowered, any other letter
    is raised. *)
Fixpoint title_from (prev_cased : bool) (s : string) : string :=
  match s with
  | String a s' =>
      String (if prev_cased then to_lower a else to_upper a)
             (title_from (is_alpha a) s')
  | EmptyString => EmptyString
  end.

Definition ascii_title (s : string) : string := title_from false s.

(** Digits of the fraction [n / d] after the point, at most [fuel] of them. *)
Fixpoint frac_digits (fuel : nat) (n d : Z) : string :=
  match fuel with
  | O => EmptyString
  | S fuel' =>
      if (n =? 0)%Z then EmptyString
      else String (digit_char (10 * n / d)) (frac_digits fuel' ((10 * n) mod d) d)
  end.

Definition decimal_repr (q : Q) : string :=
  let n := Qnum q in
  let d := Zpos (Qden q) in
  let a := Z.abs n in
  let frac := frac_digits 17 (a mod d) d in
  ((if (n <? 0)%Z then "-" else "") ++ str_of_Z (a / d) ++ "."
   ++ (if String.eqb frac "" then "0" else frac))%string.

Fixpoint split_point (s : string) : string * option string :=
  match s with
  | EmptyString => (EmptyString, None)
  | String a s' =>
      if Ascii.eqb a "."%char then (EmptyString, Some s')
      else let '(i, f) := split_point s' in (String a i, f)
  end.

(** Unsigned decimal literal: digits, optionally a point and more digits. *)
Definition parse_unsigned (s : string) : option Q :=
  match split_point s with
  | (i, None) =>
      if all_digits i && negb (String.eqb i "")
      then Some (inject_Z (digits_value 0 i)) else None
  | (i, Some f) =>
      if all_digits i && all_digits f && negb (String.eqb (i ++ f) "")
      then Some (Qred (digits_value 0 (i ++ f)
                       # Z.to_pos (10 ^ Z.of_nat (String.length f))))
      else None
  end.

Definition decimal_parse (s : string) : option Q :=
  match ascii_strip s with
  | String a t =>
      if Ascii.eqb a "-"%char then Qopp <$> parse_unsigned t
      else if Ascii.eqb a "+"%char then parse_unsigned t
      else parse_unsigned (String a t)
  | EmptyString => None
  end.

Definition ascii_lib : PyLib := {|
  str_strip := ascii_strip;
  str_title := ascii_title;
  str_upper := ascii_upper;
  float_repr := decimal_repr;
  parse_numeric := decimal_parse
|}.

(** ** Sorting

    A stable insertion sort: an element is placed before the first element
    it is not greater than, so equal elements keep their relative order. *)

Section Sort.
Context {A : Type} (leb : A -> A -> bool).

Fixpoint insert_sorted (x : A) (l : list A) : list A :=
  match l with
  | [] => [x]
  | y :: l' => if leb x y then x :: l else y :: insert_sorted x l'
  end.

Definition sort_by (l : list A) : list A := foldr insert_sorted [] l.

End Sort.

(** ** Deduplication *)

(** [df.sort_index()] *)
Definition sort_index (df : DataFrame) : DataFrame :=
  {| columns := columns df;
     rows := sort_by (fun a b : Z * row => (a.1 <=? b.1)%Z) (rows df) |}.

(** The cells of the subset [['StudentID', 'Term', 'Track']]. *)
Definition dup_key (r : row) : cell * cell * cell :=
  (get "StudentID" r, get "Term" r, get "Track" r).

(** [keep='first']: a row is kept unless its key was seen on an earlier row. *)
Fixpoint keep_first (seen : list (cell * cell * cell)) (rs : list (Z * row))
  : list (Z * row) :=
  match rs with
  | [] => []
  | ir :: rs' =>
      if bool_decide (dup_key ir.2 ∈ seen) then keep_first seen rs'
      else ir :: keep_first (dup_key ir.2 :: seen) rs'
  end.

Definition drop_duplicates (df : DataFrame) : result DataFrame :=
  if has_col "StudentID" df && has_col "Term" df then
    let df := sort_index df in
    if has_col "Track" df
    then Ok {| columns := columns df; rows := keep_first [] (rows df) |}
    else Raise (KeyError "Track")
  else Ok df.

(** ** 2. Summary statistics *)

(** A summary table: the names of its columns and, for each row, the group
    key and the values of the other columns. *)
Record Table := {
  header : list string;
  body : list (cell * list cell)
}.

Definition num_rank (v : cell) : option Q :=
  match v with
  | VBool b => Some (if b then 1 else 0)%Q
  | VInt z => Some (inject_Z z)
  | VFloat q => Some q
  | _ => None
  end.

(** Order of the group keys: text by code point, booleans and numbers by
    value, a missing key last. Keys of one column of a cleaned frame are of
    one kind; across kinds numbers come before text. *)
Definition cell_leb (a b : cell) : bool :=
  match a, b with
  | _, NA => true
  | NA, _ => false
  | VStr s, VStr t => String.leb s t
  | VStr _, _ => false
  | _, VStr _ => true
  | _, _ => match num_rank a, num_rank b with
            | Some x, Some y => Qle_bool x y
            | _, _ => true
            end
  end.

(** Distinct values in order of first appearance. *)
Fixpoint unique (l : list cell) : list cell :=
  match l with
  | [] => []
  | x :: l' => x :: filter (fun y => y <> x) (unique l')
  end.

Definition key_column (key : string) (df : DataFrame) : list cell :=
  fmap (fun ir : Z * row => get key ir.2) (rows df).

(** [df[key].value_counts()]: the count of every value that is not missing,
    by decreasing count. *)
Definition value_counts (key : string) (df : DataFrame)
  : result (list (cell * nat)) :=
  if has_col key df then
    let ks := filter (fun k => k <> NA) (key_column key df) in
    Ok (sort_by (fun a b : cell * nat => (b.2 <=? a.2)%nat)
          (fmap (fun k => (k, length (filter (fun k' => k' = k) ks))) (unique ks)))
  else Raise (KeyError key).

(** [df.groupby(key, dropna=...)]: the groups in ascending order of their
    key. *)
Definition groupby (key : string) (drop_na : bool) (df : DataFrame)
  : result (list (cell * list (Z * row))) :=
  if has_col key df then
    let ks := filter (fun k => drop_na = false \/ k <> NA) (key_column key df) in
    Ok (fmap (fun k => (k, group_rows key k (rows df)))
          (sort_by cell_leb (unique ks)))
  else Raise (KeyError key).

(** A cell of a numeric or boolean column as a number; text cannot be
    averaged. *)
Definition num_of (v : cell) : result (option Q) :=
  match v with
  | NA => Ok None
  | VStr _ => Raise TypeError
  | VInt z => Ok (Some (inject_Z z))
  | VFloat q => Ok (Some q)
  | VBool b => Ok (Some (if b then 1 else 0)%Q)
  end.

(** [g[c].mean()] for one group *)
Definition agg_mean (c : string) (g : list (Z * row)) : result cell :=
  vs ← mapR (fun ir : Z * row => num_of (get c ir.2)) g;
  Ok (of_float (mean (omap id vs))).

(** [df.groupby(key)[cs].mean().rename_axis(key).reset_index()] *)
Definition group_means (key : string) (cs : list string) (df : DataFrame)
  : result Table :=
  gs ← groupby key true df;
  match filter (fun c => c ∉ columns df) cs with
  | c :: _ => Raise (KeyError c)
  | [] =>
      b ← mapR (fun kg : cell * list (Z * row) =>
                  vs ← mapR (fun c => agg_mean c kg.2) cs; Ok (kg.1, vs)) gs;
      Ok {| header := key :: cs; body := b |}
  end.

Definition scale100 (v : cell) : cell :=
  match v with VFloat q => VFloat (q * 100)%Q | _ => v end.

(** The five statistics that the three classes share, by grouping column. *)
Module GroupStatistics.

Definition nb_students (key : string) (df : DataFrame) : result Table :=
  vc ← value_counts key df;
  Ok {| header := [key; "Nb Students"];
        body := fmap (fun kn : cell * nat => (kn.1, [VInt (Z.of_nat kn.2)])) vc |}.

Definition avg_scores (key : string) (df : DataFrame) : result Table :=
  group_means key ["Math"; "English"; "Science"; "History"] df.

Definition avg_attendance (key : string) (df : DataFrame) : result Table :=
  group_means key ["Attendance (%)"] df.

Definition avg_project_scores (key : string) (df : DataFrame) : result Table :=
  group_means key ["ProjectScore"] df.

Definition pass_rate (key name : string) (df : DataFrame) : result Table :=
  t ← group_means key ["Passed (Y/N)"] df;
  Ok {| header := [key; name];
        body := fmap (fun kv : cell * list cell => (kv.1, fmap scale100 kv.2))
                  (body t) |}.

End GroupStatistics.

(** A real number [surd_num / sqrt surd_rad], with [surd_rad] positive: the
    value of a correlation before it is rounded. *)
Record surd := { surd_num : Q; surd_rad : Q }.

Definition sum_dev_products (ps : list (Q * Q)) : Q :=
  let n := inject_Z (Z.of_nat (length ps)) in
  let mx := (Qsum (fmap fst ps) / n)%Q in
  let my := (Qsum (fmap snd ps) / n)%Q in
  Qsum (fmap (fun p : Q * Q => ((p.1 - mx) * (p.2 - my))%Q) ps).

Definition sum_sq_dev (xs : list Q) : Q :=
  sum_dev_products (fmap (fun x => (x, x)) xs).

(** [DataFrame.corr()] of two columns (Pearson, [min_periods=1]): the sum of
    the products of the deviations over the square root of the product of the
    sums of their squares; NaN when that divisor is zero or there is no
    observation. *)
Definition pearson (ps : list (Q * Q)) : option surd :=
  match ps with
  | [] => None
  | _ =>
      let d := (sum_sq_dev (fmap fst ps) * sum_sq_dev (fmap snd ps))%Q in
      if Qeq_bool d 0 then None
      else Some {| surd_num := sum_dev_products ps; surd_rad := d |}
  end.

(** The observations of two columns: rows where both are present. *)
Definition pairs_of (cx cy : string) (g : list (Z * row))
  : result (list (Q * Q)) :=
  ps ← mapR (fun ir : Z * row =>
               x ← num_of (get cx ir.2); y ← num_of (get cy ir.2);
               Ok (match x, y return option (Q * Q) with
                   | Some a, Some b => Some (a, b)
                   | _, _ => None
                   end)) g;
  Ok (omap id (ps : list (option (Q * Q)))).

Definition surd_scale (k : Q) (s : surd) : surd :=
  {| surd_num := (k * surd_num s)%Q; surd_rad := surd_rad s |}.

(** Nearest integer to the square root of a non-negative rational, a tie
    going to the even neighbour. *)
Definition round_sqrt (t : Q) : Z :=
  let m := Z.sqrt (Qfloor t) in
  match Qcompare t ((inject_Z m + (1 # 2)) * (inject_Z m + (1 # 2)))%Q with
  | Lt => m
  | Gt => (m + 1)%Z
  | Eq => if Z.even m then m else (m + 1)%Z
  end.

(** [round(x, 1)] of the real number that a surd denotes. *)
Definition round1_surd (s : surd) : Q :=
  let y := (10 * surd_num s)%Q in
  let k := round_sqrt (y * y / surd_rad s)%Q in
  Qred ((if Qle_bool 0 y then k else (- k)%Z) # 10).

Module TrackStatistics.

Definition nb_students := GroupStatistics.nb_students "Track".
Definition avg_scores := GroupStatistics.avg_scores "Track".
Definition avg_attendance := GroupStatistics.avg_attendance "Track".
Definition avg_project_scores := GroupStatistics.avg_project_scores "Track".
Definition pass_rate := GroupStatistics.pass_rate "Track" "Pass Rate (%)".

(** The rows [{'Track': track, 'Correlation (%)': 100 * corr}], one per
    group of [groupby('Track', dropna=False)]. *)
Definition corr_attendance_project (df : DataFrame)
  : result (list (cell * option surd)) :=
  gs ← groupby "Track" false df;
  mapR (fun kg : cell * list (Z * row) =>
          match filter (fun c => c ∉ columns df)
                  ["Attendance (%)"; "ProjectScore"] with
          | c :: _ => Raise (KeyError c)
          | [] =>
              ps ← pairs_of "Attendance (%)" "ProjectScore" kg.2;
              Ok (kg.1, surd_scale 100 <$> pearson ps)
          end) gs.

End TrackStatistics.

Module CohortStatistics.

Definition nb_students := GroupStatistics.nb_students "Cohort".
Definition avg_scores := GroupStatistics.avg_scores "Cohort".
Definition avg_attendance := GroupStatistics.avg_attendance "Cohort".
Definition avg_project_scores := GroupStatistics.avg_project_scores "Cohort".
Definition pass_rate := GroupStatistics.pass_rate "Cohort" "Pass Rate (%)".

End CohortStatistics.

Module IncomeStatusStatistics.

Definition nb_students := GroupStatistics.nb_students "IncomeStudent".
Definition avg_scores := GroupStatistics.avg_scores "IncomeStudent".
Definition avg_attendance := GroupStatistics.avg_attendance "IncomeStudent".
Definition avg_project_scores :=
  GroupStatistics.avg_project_scores "IncomeStudent".
Definition avg_passed_rate :=
  GroupStatistics.pass_rate "IncomeStudent" "Pass rate (%)".

End IncomeStatusStatistics.

(** ** 5. Final report *)

(** [_round_numeric]: the numeric columns as floats, rounded to one decimal. *)
Definition round_cell (v : cell) : cell :=
  match v with
  | VFloat q => VFloat (round1 q)
  | VInt z => VFloat (round1 (inject_Z z))
  | _ => v
  end.

Definition round_numeric (t : Table) : Table :=
  {| header := header t;
     body := fmap (fun kv : cell * list cell => (kv.1, fmap round_cell kv.2))
               (body t) |}.

(** [_round_numeric] on the correlation table. *)
Definition round_corr (rs : list (cell * option surd)) : Table :=
  {| header := match rs with [] => [] | _ => ["Track"; "Correlation (%)"] end;
     body := fmap (fun ks : cell * option surd =>
                    (ks.1, [of_float (round1_surd <$> ks.2)])) rs |}.

Definition compute_all_stats (df : DataFrame) : result (list (string * Table)) :=
  track_counts ← TrackStatistics.nb_students df;
  track_avgs ← round_numeric <$> TrackStatistics.avg_scores df;
  track_att ← round_numeric <$> TrackStatistics.avg_attendance df;
  track_proj ← round_numeric <$> TrackStatistics.avg_project_scores df;
  track_pass ← round_numeric <$> TrackStatistics.pass_rate df;
  track_corr ← round_corr <$> TrackStatistics.corr_attendance_project df;
  cohort_counts ← CohortStatistics.nb_students df;
  cohort_avgs ← round_numeric <$> CohortStatistics.avg_scores df;
  cohort_att ← round_numeric <$> CohortStatistics.avg_attendance df;
  cohort_proj ← round_numeric <$> CohortStatistics.avg_project_scores df;
  cohort_pass ← round_numeric <$> CohortStatistics.pass_rate df;
  income_counts ← IncomeStatusStatistics.nb_students df;
  income_avgs ← round_numeric <$> IncomeStatusStatistics.avg_scores df;
  income_att ← round_numeric <$> IncomeStatusStatistics.avg_attendance df;
  income_proj ← round_numeric <$> IncomeStatusStatistics.avg_project_scores df;
  income_pass ← round_numeric <$> IncomeStatusStatistics.avg_passed_rate df;
  Ok [("Track - Counts", track_counts);
      ("Track - Avg Scores", track_avgs);
      ("Track - Attendance", track_att);
      ("Track - Project", track_proj);
      ("Track - Pass Rate", track_pass);
      ("Track - Corr (%)", track_corr);
      ("Cohort - Counts", cohort_counts);
      ("Cohort - Avg Scores", cohort_avgs);
      ("Cohort - Attendance", cohort_att);
      ("Cohort - Project", cohort_proj);
      ("Cohort - Pass Rate", cohort_pass);
      ("Income - Counts", income_counts);
      ("Income - Avg Scores", income_avgs);
      ("Income - Attendance", income_att);
      ("Income - Project", income_proj);
      ("Income - Pass Rate", income_pass)].

Definition index_le (a b : Z * row) : Prop := (a.1 <=? b.1)%Z = true.

(** The index labels of the frame increase (weakly) from row to row. *)
Definition index_sorted (df : DataFrame) : Prop := Sorted index_le (rows df).

Definition has_key (k : cell * cell * cell) (ir : Z * row) : Prop :=
  dup_key ir.2 = k.

Global Instance has_key_dec k ir : Decision (has_key k ir).
Proof. unfold has_key. apply _. Defined.

(** ** The pipeline as a list of guarded steps *)

Definition step : Type := string * (DataFrame -> result DataFrame).

Definition guarded (s : step) (d : DataFrame) : result DataFrame :=
  if has_col s.1 d then s.2 d else Ok d.

Definition run_steps (steps : list step) (d : DataFrame) : result DataFrame :=
  foldR (fun d s => guarded s d) d steps.

Definition pure_step (c : string) (f : DataFrame -> DataFrame) : step :=
  (c, fun d => Ok (f d)).

Definition clean_pipeline `{PyLib} : list step :=
  ((fun c => pure_step c (normalize_str c)) <$> str_cols)
  ++ [pure_step "Class" (validate_format re_class "Class");
      pure_step "Cohort" (validate_format re_cohort "Cohort")]
  ++ ((fun c => (c, coerce_int c)) <$> int_cols)
  ++ [pure_step "StudentID" validate_student_id;
      pure_step "Term" validate_term]
  ++ ((fun c => (c, clean_score c)) <$> score_cols)
  ++ ((fun c => (c, clean_bool c)) <$> boolean_cols).

(** The cells of one column, with the index labels. *)
Definition col_view (c : string) (d : DataFrame) : list (Z * cell) :=
  (fun ir : Z * row => (ir.1, get c ir.2)) <$> rows d.

(** Every cell of a column satisfies [P], which may look at the index label. *)
Definition col_all (P : Z -> cell -> Prop) (c : string) (d : DataFrame) : Prop :=
  Forall (fun ir : Z * row => P ir.1 (get c ir.2)) (rows d).

(** A step writes one column: the frame it returns is an assignment to it. *)
Definition writes (s : step) : Prop :=
  forall d d', has_col s.1 d = true -> s.2 d = Ok d' ->
    exists f, d' = assign s.1 f d.

Definition in_range (q : Q) : Prop := (0 <= q)%Q /\ (q <= 100)%Q.

(** ** What the cells of a column are after its steps *)

Definition is_str (v : cell) : Prop := v = NA \/ exists s, v = VStr s.
Definition matches (p : list cclass) (v : cell) : Prop :=
  v = NA \/ exists s, v = VStr s /\ fullmatch p s = true.
Definition is_int (v : cell) : Prop := v = NA \/ exists z, v = VInt z.
Definition id_ok (v : cell) : Prop :=
  v = NA \/ exists z, v = VInt z /\ (1000 <= z <= 9999)%Z.
Definition term_ok (v : cell) : Prop := v = NA \/ v = VInt 1 \/ v = VInt 2.
Definition score_ok (v : cell) : Prop :=
  v = NA \/ exists q, v = VFloat q /\ in_range q.
Definition bool_ok (v : cell) : Prop := v = NA \/ exists b, v = VBool b.

(** The cell of a score column after coercion and range filter. *)
Definition score_cell `{PyLib} (v : cell) : cell :=
  range_cell (of_float (to_numeric v)).

Definition any_cell : Z -> cell -> Prop := fun _ _ => True.


(** A valid score: the number a cell reads as, when it lies in [0, 100]. *)
Definition valid_score `{PyLib} (v : cell) : option Q :=
  match to_numeric v with
  | Some q => if Qle_bool 0 q && Qle_bool q 100 then Some q else None
  | None => None
  end.

(** The first value of the list among its most frequent ones: the mode that
    is met first. *)
Definition first_encountered_mode (l : list bool) : option bool :=
  head (filter (fun b => count_occ_bool (negb b) l <= count_occ_bool b l)%nat l).

(** Boolean imputation as the specification words it: a value that is missing
    after decoding, in a row with a track, becomes the first-met mode of the
    decoded values of its track. *)
Definition imputes_first_encountered_mode `{PyLib} : Prop :=
  forall c df out n i r,
    c ∈ boolean_cols -> c ∈ columns df -> clean_bool c df = Ok out ->
    rows df !! n = Some (i, r) ->
    decode_bool (get c r) = NA -> get "Track" r <> NA ->
    exists r', rows out !! n = Some (i, r') /\
      get c r' = match first_encountered_mode
                         (omap (fun ir : Z * row => as_bool (decode_bool (get c ir.2)))
                            (group_rows "Track" (get "Track" r) (rows df))) with
                 | Some b => VBool b
                 | None => NA
                 end.

(** The track of a raw row as [clean_df] groups it: the [Track] cell after
    null replacement and string normalisation. *)
Definition track_of `{PyLib} (r : row) : cell :=
  normalize_cell (replace_null (get "Track" r)).

(** Two raw frames that differ at most in rows of track [A]: the same columns,
    the same index, and row by row either the same record or two records of
    track [A]. *)
Definition differ_within_track `{PyLib} (A : string) (df1 df2 : DataFrame) : Prop :=
  columns df1 = columns df2 /\
  Forall2 (fun ir1 ir2 : Z * row =>
             ir1.1 = ir2.1 /\
             (ir1.2 = ir2.2 \/ (track_of ir1.2 = VStr A /\ track_of ir2.2 = VStr A)))
    (rows df1) (rows df2).

(** The rows of a frame outside track [A]. *)
Definition rows_off_track (A : string) (d : DataFrame) : list (Z * row) :=
  filter (fun ir : Z * row => get "Track" ir.2 <> VStr A) (rows d).

(** Two frames related row by row, with the same columns. *)
Definition frames_rel (R : row -> row -> Prop) (d1 d2 : DataFrame) : Prop :=
  columns d1 = columns d2 /\
  Forall2 (fun ir1 ir2 : Z * row => ir1.1 = ir2.1 /\ R ir1.2 ir2.2)
    (rows d1) (rows d2).

(** Rows of two runs before the [Track] column is normalised ... *)
Definition rel_raw `{PyLib} (A : string) (r1 r2 : row) : Prop :=
  r1 = r2 \/ (normalize_cell (get "Track" r1) = VStr A
              /\ normalize_cell (get "Track" r2) = VStr A).

(** ... and after. *)
Definition rel_norm (A : string) (r1 r2 : row) : Prop :=
  get "Track" r1 = get "Track" r2 /\ (get "Track" r1 <> VStr A -> r1 = r2).

Definition step_preserves (Rel : DataFrame -> DataFrame -> Prop) (s : step) : Prop :=
  forall d1 d2 d1' d2',
    Rel d1 d2 -> guarded s d1 = Ok d1' -> guarded s d2 = Ok d2' -> Rel d1' d2'.

(** A computation on frames tolerates absent columns, as the specification
    words it: on a frame that has the [Track] column and the identity columns
    it does not fail for lack of a column. *)
Definition tolerates_absent_columns {T} (f : DataFrame -> result T) : Prop :=
  forall df, "Track" ∈ columns df -> "StudentID" ∈ columns df ->
             "Term" ∈ columns df ->
             forall c, f df <> Raise (KeyError c).

(** A step does not fail for lack of a column when its own column and [Track]
    are there. *)
Definition no_key_error (s : step) : Prop :=
  forall d c, has_col s.1 d = true -> has_col "Track" d = true ->
              s.2 d <> Raise (KeyError c).


(** ** Order of the rows of the summary tables *)

(** Strict order of two group keys of one kind: text by code point, booleans
    with [false] first. *)
Definition key_lt (a b : cell) : Prop :=
  match a, b with
  | VStr s, VStr t => String.ltb s t = true
  | VBool x, VBool y => x = false /\ y = true
  | _, _ => False
  end.



Definition count_tables : list string :=
  ["Track - Counts"; "Cohort - Counts"; "Income - Counts"].

(** A frame as the report computes on it: cleaned, then deduplicated. *)
Definition cleaned_frame `{PyLib} (df : DataFrame) : Prop :=
  exists raw d, clean_df raw = Ok d /\ drop_duplicates d = Ok df.

(** The keys of a column are all text, or all booleans. *)
Definition text_keys (key : string) (df : DataFrame) : Prop :=
  Forall (fun k => exists s, k = VStr s) (key_column key df).

Definition bool_keys (key : string) (df : DataFrame) : Prop :=
  Forall (fun k => exists b, k = VBool b) (key_column key df).

(** The keys of the groups of [df.groupby(key, dropna=...)], as the tables
    list them. *)
Definition group_keys (key : string) (drop_na : bool) (df : DataFrame)
  : list cell :=
  sort_by cell_leb
    (unique (filter (fun k => drop_na = false \/ k <> NA) (key_column key df))).

(** ** Correlation *)

(** Sample variance. *)
Definition variance (xs : list Q) : Q :=
  (sum_sq_dev xs / (inject_Z (Z.of_nat (length xs)) - 1))%Q.

(** [k] is an integer nearest to [y / sqrt d], for [d] positive: it has the
    sign of [y], and [|k| - 1/2 <= |y| / sqrt d <= |k| + 1/2], written with
    squares. *)
Definition nearest_to_ratio_sqrt (y d : Q) (k : Z) : Prop :=
  ((0 <= y)%Q -> (0 <= k)%Z) /\ ((y <= 0)%Q -> (k <= 0)%Z) /\
  (k = 0%Z \/
   ((2 * inject_Z (Z.abs k) - 1) * (2 * inject_Z (Z.abs k) - 1) * d
    <= 4 * (y * y))%Q) /\
  (4 * (y * y)
   <= (2 * inject_Z (Z.abs k) + 1) * (2 * inject_Z (Z.abs k) + 1) * d)%Q.

(** A group without a defined correlation: fewer than two observations, or
    no variance in one of the two variables. *)
Definition degenerate (ps : list (Q * Q)) : Prop :=
  (length ps < 2)%nat \/ (variance (fmap fst ps) == 0)%Q
  \/ (variance (fmap snd ps) == 0)%Q.

(** ** Sample frames *)

Definition all_columns : list string :=
  ["StudentID"; "FirstName"; "LastName"; "Class"; "Term"; "Cohort";
   "IncomeStudent"; "Math"; "English"; "Science"; "History";
   "Attendance (%)"; "ProjectScore"; "Passed (Y/N)"; "Track"].

(** One record of a sheet, as the loader reads it. *)
Definition record (sid term : cell) (track cohort : string)
    (income math english science history attendance project passed : cell)
  : row :=
  list_to_map
    [("StudentID", sid); ("FirstName", VStr "ann"); ("LastName", VStr "lee");
     ("Class", VStr "10a"); ("Term", term); ("Cohort", VStr cohort);
     ("IncomeStudent", income); ("Math", math); ("English", english);
     ("Science", science); ("History", history);
     ("Attendance (%)", attendance); ("ProjectScore", project);
     ("Passed (Y/N)", passed); ("Track", VStr track)].

Definition leading_zero_record : row :=
  record (VStr "0123") (VInt 2) "alpha" "22-23" (VBool true)
    (VInt 52) (VInt 60) (VInt 70) (VInt 80) (VInt 77) (VInt 20) (VInt 1).

Definition sample_frame : DataFrame :=
  {| columns := all_columns;
     rows :=
       [(0%Z, record (VInt 1001) (VInt 1) "beta" "23-24" (VStr "yes")
                (VInt 50) (VInt 60) (VInt 70) (VInt 80) (VInt 80) (VInt 10)
                (VStr "Y"));
        (1%Z, record (VInt 1002) (VInt 1) "beta" "23-24" (VStr "no")
                (VInt 51) (VInt 60) (VInt 70) (VInt 80) (VInt 90) (VInt 30)
                (VStr "N"));
        (2%Z, record (VInt 1003) (VInt 1) "beta" "22-23" (VStr "no")
                (VInt 52) (VInt 60) (VInt 70) (VInt 80) NA (VInt 20)
                (VStr "FALSE"));
        (3%Z, record (VInt 1003) (VInt 1) "beta" "22-23" (VStr "no")
                (VInt 52) (VInt 60) (VInt 70) (VInt 80) NA (VInt 20)
                (VStr "bogus"));
        (4%Z, leading_zero_record);
        (5%Z, record (VInt 1004) (VInt 2) "alpha" "22-23" (VBool true)
                (VInt 52) (VInt 60) (VInt 70) (VInt 80) (VInt 77) (VInt 20)
                (VInt 1))] |}.

(** A frame with two columns, [Track] and [c], all rows in track [A]. *)
Definition one_track_frame (c : string) (vs : list cell) : DataFrame :=
  {| columns := ["Track"; c];
     rows := zip (fmap Z.of_nat (seq 0 (length vs)))
               (fmap (fun v => list_to_map [("Track", VStr "A"); (c, v)]) vs) |}.

(** The cells of a column of a frame that was computed without error. *)
Definition column_of (c : string) (d : result DataFrame) : list cell :=
  match d with
  | Ok d => fmap (fun ir : Z * row => get c ir.2) (rows d)
  | Raise _ => []
  end.

(** [sample_frame] with the scores and the pass mark of its [alpha] records
    changed. *)
Definition sample_frame_alpha_changed : DataFrame :=
  {| columns := all_columns;
     rows :=
       [(0%Z, record (VInt 1001) (VInt 1) "beta" "23-24" (VStr "yes")
                (VInt 50) (VInt 60) (VInt 70) (VInt 80) (VInt 80) (VInt 10)
                (VStr "Y"));
        (1%Z, record (VInt 1002) (VInt 1) "beta" "23-24" (VStr "no")
                (VInt 51) (VInt 60) (VInt 70) (VInt 80) (VInt 90) (VInt 30)
                (VStr "N"));
        (2%Z, record (VInt 1003) (VInt 1) "beta" "22-23" (VStr "no")
                (VInt 52) (VInt 60) (VInt 70) (VInt 80) NA (VInt 20)
                (VStr "FALSE"));
        (3%Z, record (VInt 1003) (VInt 1) "beta" "22-23" (VStr "no")
                (VInt 52) (VInt 60) (VInt 70) (VInt 80) NA (VInt 20)
                (VStr "bogus"));
        (4%Z, record (VStr "0123") (VInt 2) " ALPHA" "22-23" (VBool true)
                (VInt 0) (VInt 60) (VInt 70) (VInt 80) (VInt 5) (VInt 20)
                (VInt 0));
        (5%Z, record (VInt 1004) (VInt 2) "alpha" "22-23" (VBool true)
                (VInt 100) NA (VInt 70) (VInt 80) (VInt 1) (VStr "x")
                (VInt 0))] |}.

(** A cleaned frame with the identity columns only. *)
Definition identity_frame : DataFrame :=
  {| columns := ["StudentID"; "Term"; "Track"];
     rows := [(0%Z, list_to_map [("StudentID", VInt 1001); ("Term", VInt 1);
                                 ("Track", VStr "Alpha")])] |}.

(** [sample_frame] cleaned, then deduplicated, and its report. *)
Definition sample_clean : DataFrame :=
  match clean_df (L := ascii_lib) sample_frame with
  | Ok d => d
  | Raise _ => sample_frame
  end.

Definition sample_cleaned : DataFrame :=
  match drop_duplicates sample_clean with
  | Ok d => d
  | Raise _ => sample_clean
  end.

Definition sample_stats : list (string * Table) :=
  match compute_all_stats sample_cleaned with
  | Ok s => s
  | Raise _ => []
  end.

(** ** Equality of results, frames and tables is decidable *)

Definition exn_eq_dec : EqDecision exn.
Proof. solve_decision. Defined.

Definition result_eq_dec {A} `{EqDecision A} : EqDecision (result A).
Proof. pose proof exn_eq_dec. solve_decision. Defined.

Definition DataFrame_eq_dec : EqDecision DataFrame.
Proof. solve_decision. Defined.

Definition Table_eq_dec : EqDecision Table.
Proof. solve_decision. Defined.

(** ** The figures of the dashboard *)

(** [df[c].nunique()] *)
Definition nunique (c : string) (df : DataFrame) : nat :=
  length (unique (filter (fun k => k <> NA) (key_column c df))).

(** The key metrics of the dashboard ([app.py]): the number of records, of
    tracks and of cohorts and the overall pass rate; a column that is absent
    gives 0, or NaN for the rate, and an exception while they are computed
    gives 0, 0, 0 and NaN. *)
Definition key_metrics (df : DataFrame) : nat * nat * nat * option Q :=
  let total_students := length (rows df) in
  let n_tracks := if has_col "Track" df then nunique "Track" df else 0%nat in
  let n_cohorts := if has_col "Cohort" df then nunique "Cohort" df else 0%nat in
  let pass_rate_overall :=
    if has_col "Passed (Y/N)" df
    then vs ← mapR (fun ir : Z * row => num_of (get "Passed (Y/N)" ir.2)) (rows df);
         Ok ((fun m => m * 100)%Q <$> mean (omap id vs))
    else Ok None in
  match pass_rate_overall with
  | Ok p => (total_students, n_tracks, n_cohorts, p)
  | Raise _ => (0%nat, 0%nat, 0%nat, None)
  end.

(** ** Auxiliary definitions for the properties of the cleaning *)

Section CellWise.
Context `{L : PyLib}.

(** The integer cast of one cell, where it does not raise. *)
Definition int_cell (v : cell) : cell :=
  match astype_Int64 (to_numeric v) with
  | Ok v' => v'
  | Raise _ => NA
  end.

(** What the steps of [clean_df] before imputation make of one cell of
    column [c]: the composition of the steps that write that column. *)
Definition clean_cell (c : string) (v : cell) : cell :=
  let v := replace_null v in
  if bool_decide (c = "Class") then validate_cell re_class (normalize_cell v)
  else if bool_decide (c = "Cohort") then validate_cell re_cohort (normalize_cell v)
  else if bool_decide (c ∈ str_cols) then normalize_cell v
  else if bool_decide (c = "StudentID") then student_id_cell (int_cell v)
  else if bool_decide (c = "Term") then term_cell (int_cell v)
  else if bool_decide (c ∈ score_cols) then score_cell v
  else if bool_decide (c ∈ boolean_cols) then decode_bool v
  else v.

(** A cell that the integer cast accepts: it does not read as a number, or it
    reads as a whole number of 64 bits. *)
Definition int_castable (v : cell) : Prop :=
  match to_numeric (replace_null v) with
  | None => True
  | Some q => Qden (Qred q) = 1%positive
              /\ (int64_min <= Qnum (Qred q) <= int64_max)%Z
  end.

Global Instance int_castable_dec v : Decision (int_castable v).
Proof. unfold int_castable. destruct (to_numeric _); apply _. Defined.

(** The pipeline in four parts: the text steps, the integer casts, the
    checks of the identifiers, the imputations. *)
Definition text_steps : list step :=
  ((fun c => pure_step c (normalize_str c)) <$> str_cols)
  ++ [pure_step "Class" (validate_format re_class "Class");
      pure_step "Cohort" (validate_format re_cohort "Cohort")].

Definition check_steps : list step :=
  [pure_step "StudentID" validate_student_id; pure_step "Term" validate_term].

Definition impute_steps : list step :=
  ((fun c => (c, clean_score c)) <$> score_cols)
  ++ ((fun c => (c, clean_bool c)) <$> boolean_cols).

End CellWise.

(** The cell of column [c] in the record of label [j] is what [F] makes of
    the cell of the record of that label in [df] ... *)
Definition cell_is (df : DataFrame) (c : string) (F : cell -> cell)
  : Z -> cell -> Prop :=
  fun j v => forall r, (j, r) ∈ rows df -> v = F (get c r).

(** ... or at least it is when [F] does not give a missing cell. *)
Definition cell_fills (df : DataFrame) (c : string) (F : cell -> cell)
  : Z -> cell -> Prop :=
  fun j v => forall r, (j, r) ∈ rows df -> F (get c r) <> NA -> v = F (get c r).

(** The columns that [clean_df] imputes by track. *)
Definition imputed_cols : list string := (score_cols ++ boolean_cols)%list.

(** The columns that the summary tables read. *)
Definition report_cols : list string :=
  ["Track"; "Cohort"; "IncomeStudent"; "Math"; "English"; "Science";
   "History"; "Attendance (%)"; "ProjectScore"; "Passed (Y/N)"].

(** The names of the tables of the report, in sheet order. *)
Definition table_names : list string :=
  ["Track - Counts"; "Track - Avg Scores"; "Track - Attendance";
   "Track - Project"; "Track - Pass Rate"; "Track - Corr (%)";
   "Cohort - Counts"; "Cohort - Avg Scores"; "Cohort - Attendance";
   "Cohort - Project"; "Cohort - Pass Rate";
   "Income - Counts"; "Income - Avg Scores"; "Income - Attendance";
   "Income - Project"; "Income - Pass Rate"].

(** The mean of column [c] over the rows of a group, missing cells left out:
    the value of one cell of a table of averages before rounding. *)
Definition group_mean (c : string) (g : list (Z * row)) : cell :=
  of_float (mean (omap (fun ir : Z * row => num_rank (get c ir.2)) g)).

(** A cell that is not text. *)
Definition not_text (v : cell) : Prop :=
  match v with VStr _ => False | _ => True end.

Global Instance not_text_dec v : Decision (not_text v).
Proof. destruct v; apply _. Defined.

(** The keys of the rows of a frame for deduplication. *)
Definition dup_keys (df : DataFrame) : list (cell * cell * cell) :=
  fmap (fun ir : Z * row => dup_key ir.2) (rows df).

(** The sum of a list of counts. *)
Definition total (ns : list nat) : nat := foldr Nat.add 0%nat ns.

(** The counts of a counts table. *)
Definition table_counts (t : Table) : list nat :=
  omap (fun kv : cell * list cell =>
          match kv.2 with
          | [VInt n] => Some (Z.to_nat n)
          | _ => None
          end) (body t).

(** ** Definitions for the statements on imputation, deduplication and the report *)

(** The mean and the rounding of the program are computed in binary floating
    point; the model computes them exactly. Statements about an imputed value
    allow for the difference: at a tie between two one-decimal neighbours, or
    next to one, the program's last digit may be either of them. The
    tolerance is far above the error of a float mean of values in [0, 100]. *)
Definition float_tolerance : Q := 1 # 1000000.

(** [v] is the number [m] rounded to one decimal: a multiple of one tenth,
    half a tenth away from [m] at most. *)
Definition rounded_to_one_decimal (m v : Q) : Prop :=
  exists k : Z, (Qabs (v - (k # 10)) <= float_tolerance)%Q /\
                (Qabs (v - m) <= (1 # 20) + float_tolerance)%Q.

(** Keeping the first row as the specification words it: in every dataset,
    of the rows with the same ([StudentID], [Term], [Track]), the result has
    the first one in input order, and no other. *)
Definition keeps_first_in_input_order : Prop :=
  forall df out,
    has_col "StudentID" df = true -> has_col "Term" df = true ->
    drop_duplicates df = Ok out ->
    forall k, filter (has_key k) (rows out)
              = take 1 (filter (has_key k) (rows df)).


(** ** More samples *)

(** [sample_frame], deduplicated as it is. *)
Definition sample_dedup : DataFrame :=
  match drop_duplicates sample_frame with
  | Ok d => d
  | Raise _ => sample_frame
  end.

(** A workbook of two sheets; loaded, it is [sample_frame]. *)
Definition sample_workbook : list sheet :=
  [("beta", take 14 all_columns, take 4 (fmap snd (rows sample_frame)));
   ("alpha", take 14 all_columns, drop 4 (fmap snd (rows sample_frame)))].

(** A frame with an identifier that is not a whole number, and a frame
    without a [Track] column. *)
Definition fractional_id_frame : DataFrame :=
  one_track_frame "StudentID" [VInt 1001; VStr "12.5"].

Definition no_track_frame : DataFrame :=
  {| columns := ["StudentID"; "Math"];
     rows := [(0%Z, list_to_map [("StudentID", VInt 1001); ("Math", VInt 50)])] |}.

(** The first record of [sample_frame]. *)
Definition first_record : row :=
  record (VInt 1001) (VInt 1) "beta" "23-24" (VStr "yes")
    (VInt 50) (VInt 60) (VInt 70) (VInt 80) (VInt 80) (VInt 10) (VStr "Y").

(** [sample_frame] after the steps of [clean_df], before [dropna]. *)
Definition sample_steps : DataFrame :=
  match clean_steps (L := ascii_lib) sample_frame with
  | Ok d => d
  | Raise _ => sample_frame
  end.

(** The tables of counts of the cleaned sample. *)
Definition sample_track_counts : Table :=
  match TrackStatistics.nb_students sample_cleaned with
  | Ok t => t
  | Raise _ => {| header := []; body := [] |}
  end.

Definition sample_cohort_counts : Table :=
  match CohortStatistics.nb_students sample_cleaned with
  | Ok t => t
  | Raise _ => {| header := []; body := [] |}
  end.

(** A frame whose index labels do not increase in row order: the records of
    labels 3 and 1 have the same identity. *)
Definition unsorted_frame : DataFrame :=
  {| columns := ["StudentID"; "Term"; "Track"; "Math"];
     rows :=
       [(3%Z, list_to_map [("StudentID", VInt 1001); ("Term", VInt 1);
                           ("Track", VStr "A"); ("Math", VFloat 10)]);
        (1%Z, list_to_map [("StudentID", VInt 1001); ("Term", VInt 1);
                           ("Track", VStr "A"); ("Math", VFloat 20)]);
        (2%Z, list_to_map [("StudentID", VInt 1002); ("Term", VInt 1);
                           ("Track", VStr "A"); ("Math", VFloat 30)]);
        (0%Z, list_to_map [("StudentID", VInt 1003); ("Term", VInt 1);
                           ("Track", VStr "A"); ("Math", VFloat 40)])] |}.

Definition unsorted_dedup : DataFrame :=
  match drop_duplicates unsorted_frame with
  | Ok d => d
  | Raise _ => unsorted_frame
  end.

(** One track with the attendances 80, 90 and a missing one, and the frame
    after the step of [clean_df] for that column. *)
Definition attendance_frame : DataFrame :=
  one_track_frame "Attendance (%)" [VInt 80; VInt 90; NA].

Definition attendance_filled : DataFrame :=
  match clean_score (L := ascii_lib) "Attendance (%)" attendance_frame with
  | Ok d => d
  | Raise _ => attendance_frame
  end.

(** ** The ASCII primitives read digits as [parses_digits] asks *)

Lemma digit_cases a : is_digit a = true ->
  is_space a = false /\ Ascii.eqb a "-"%char = false /\ Ascii.eqb a "+"%char = false /\ Ascii.eqb a "."%char = false.
Proof. destruct a as [[] [] [] [] [] [] [] []]; vm_compute; intros; try discriminate; auto. Qed.

Lemma lstrip_digits s : all_digits s = true -> lstrip s = s.
Proof. destruct s as [|a s]; simpl; [done|]. intros [Ha _]%andb_true_iff. by destruct (digit_cases a Ha) as [-> _]. Qed.

Lemma rstrip_digits s : all_digits s = true -> rstrip s = s.
Proof.
  induction s as [|a s IH]; simpl; [done|]. intros [Ha Hs]%andb_true_iff.
  rewrite (IH Hs). destruct s; [|done]. by destruct (digit_cases a Ha) as [-> _].
Qed.

Lemma split_point_digits s : all_digits s = true -> split_point s = (s, None).
Proof.
  induction s as [|a s IH]; simpl; [done|]. intros [Ha Hs]%andb_true_iff.
  destruct (digit_cases a Ha) as (_ & _ & _ & ->). by rewrite (IH Hs).
Qed.

Lemma decimal_parse_digits : parses_digits (H := ascii_lib).
Proof.
  intros s Hne Hd _. simpl. unfold decimal_parse, ascii_strip.
  rewrite (lstrip_digits _ Hd), (rstrip_digits _ Hd).
  destruct s as [|a s]; [done|].
  pose proof Hd as [Ha _]%andb_true_iff.
  destruct (digit_cases a Ha) as (_ & -> & -> & _).
  unfold parse_unsigned. rewrite (split_point_digits _ Hd), Hd. done.
Qed.

(** ** The result monad *)

Lemma bind_Ok {A B} (m : result A) (f : A -> result B) (b : B) :
  m ≫= f = Ok b <-> exists a, m = Ok a /\ f a = Ok b.
Proof.
  destruct m as [a|e]; simpl; split.
  - intros H. by exists a.
  - by intros (a' & [= ->] & H).
  - done.
  - by intros (a' & [=] & _).
Qed.

Lemma mapR_Ok {A B} (f : A -> result B) (l : list A) (l' : list B) :
  mapR f l = Ok l' <-> Forall2 (fun x y => f x = Ok y) l l'.
Proof.
  revert l'. induction l as [|x l IH]; intros l'; simpl.
  - split; [intros [= <-]; constructor | by inversion 1].
  - rewrite bind_Ok. split.
    + intros (y & Hy & (ys & Hys & [= <-])%bind_Ok).
      constructor; [done | by apply IH].
    + inversion 1 as [|? y ? ys Hy Hys]; subst.
      exists y. split; [done|]. apply bind_Ok. exists ys. by rewrite IH.
Qed.

(** ** Sorting *)

Section SortFacts.
Context {A : Type} (leb : A -> A -> bool).
Let R := fun a b => leb a b = true.

Lemma insert_sorted_HdRel x l : HdRel R x l -> insert_sorted leb x l = x :: l.
Proof. destruct 1 as [|y l H]; simpl; [done|]. by rewrite H. Qed.

Lemma sort_by_sorted l : Sorted R l -> sort_by leb l = l.
Proof.
  induction 1 as [|x l Hs IH Hd]; [done|].
  unfold sort_by in *. simpl. rewrite IH. by apply insert_sorted_HdRel.
Qed.

Lemma insert_sorted_perm x l : insert_sorted leb x l ≡ₚ x :: l.
Proof.
  induction l as [|y l IH]; simpl; [done|].
  destruct (leb x y); [done|]. rewrite IH. apply Permutation_swap.
Qed.

Lemma sort_by_perm l : sort_by leb l ≡ₚ l.
Proof.
  induction l as [|x l IH]; [done|].
  unfold sort_by in *. simpl. by rewrite insert_sorted_perm, IH.
Qed.

Hypothesis leb_total : forall a b, leb a b = false -> leb b a = true.

Lemma insert_sorted_Sorted x l : Sorted R l -> Sorted R (insert_sorted leb x l).
Proof.
  induction 1 as [|y l Hs IH Hd]; simpl.
  - repeat constructor.
  - destruct (leb x y) eqn:Hxy.
    + repeat constructor; done.
    + constructor; [done|].
      destruct Hd as [|z l Hyz]; simpl.
      * constructor. by apply leb_total.
      * destruct (leb x z); constructor; [by apply leb_total | done].
Qed.

Lemma sort_by_Sorted l : Sorted R (sort_by leb l).
Proof.
  induction l as [|x l IH]; [constructor|].
  unfold sort_by in *. simpl. by apply insert_sorted_Sorted.
Qed.

End SortFacts.

(** ** Deduplication *)

Global Instance index_le_trans : Transitive index_le.
Proof. intros a b c. unfold index_le. lia. Qed.

Lemma sort_index_sorted df : index_sorted (sort_index df).
Proof. apply (sort_by_Sorted (fun a b : Z * row => (a.1 <=? b.1)%Z)). intros a b. lia. Qed.

Lemma sort_index_id df : index_sorted df -> sort_index df = df.
Proof.
  intros H. destruct df as [cs rs]. unfold sort_index. simpl. f_equal.
  by apply (sort_by_sorted (fun a b : Z * row => (a.1 <=? b.1)%Z)).
Qed.

Lemma keep_first_sublist seen rs : keep_first seen rs `sublist_of` rs.
Proof.
  revert seen. induction rs as [|ir rs IH]; intros seen; simpl; [done|].
  case_bool_decide; [by apply sublist_cons | by apply sublist_skip].
Qed.

Lemma keep_first_key_in seen rs ir :
  ir ∈ keep_first seen rs -> dup_key ir.2 ∉ seen.
Proof.
  revert seen. induction rs as [|jr rs IH]; intros seen; simpl.
  - by intros ?%elem_of_nil.
  - case_bool_decide as Hk; [by apply IH|].
    intros [->|Hin]%elem_of_cons; [done|].
    apply IH in Hin. set_solver.
Qed.

Lemma keep_first_idem seen rs :
  keep_first seen (keep_first seen rs) = keep_first seen rs.
Proof.
  revert seen. induction rs as [|ir rs IH]; intros seen; simpl; [done|].
  case_bool_decide as Hk; [by apply IH|].
  simpl. rewrite bool_decide_eq_false_2 by done. f_equal. apply IH.
Qed.

Lemma StronglySorted_sublist {A} (R : relation A) (l1 l2 : list A) :
  l1 `sublist_of` l2 -> StronglySorted R l2 -> StronglySorted R l1.
Proof.
  induction 1 as [|x l1 l2 Hs IH|x l1 l2 Hs IH]; intros H2; [done| |].
  - apply StronglySorted_inv in H2 as [H2 Hx]. constructor; [by apply IH|].
    apply Forall_forall. intros y Hy. rewrite Forall_forall in Hx.
    apply Hx. by eapply elem_of_sublist.
  - apply StronglySorted_inv in H2 as [H2 _]. by apply IH.
Qed.

Lemma keep_first_sorted seen rs :
  Sorted index_le rs -> Sorted index_le (keep_first seen rs).
Proof.
  intros H. apply StronglySorted_Sorted.
  eapply StronglySorted_sublist; [apply keep_first_sublist|].
  by apply Sorted_StronglySorted; [apply _|].
Qed.

Lemma drop_duplicates_columns df out :
  drop_duplicates df = Ok out -> columns out = columns df.
Proof.
  unfold drop_duplicates. destruct (_ && _); [|by intros [= <-]].
  destruct (has_col "Track" _); [|done]. by intros [= <-].
Qed.

Lemma drop_duplicates_idem df :
  drop_duplicates df ≫= drop_duplicates = drop_duplicates df.
Proof.
  unfold drop_duplicates at 2 3.
  destruct (has_col "StudentID" df && has_col "Term" df) eqn:Hc; simpl.
  2: { unfold drop_duplicates. by rewrite Hc. }
  destruct (has_col "Track" (sort_index df)) eqn:Ht; simpl; [|done].
  unfold drop_duplicates, has_col in *. simpl in *. rewrite Hc, Ht.
  f_equal. f_equal.
  rewrite (sort_by_sorted (fun a b : Z * row => (a.1 <=? b.1)%Z)).
  - by rewrite keep_first_idem.
  - apply keep_first_sorted, (sort_index_sorted df).
Qed.

Lemma keep_first_groups seen rs k :
  filter (has_key k) (keep_first seen rs)
  = if bool_decide (k ∈ seen) then [] else take 1 (filter (has_key k) rs).
Proof.
  revert seen. induction rs as [|ir rs IH]; intros seen; simpl.
  - by case_bool_decide.
  - rewrite (filter_cons (has_key k) ir rs).
    destruct (bool_decide (dup_key ir.2 ∈ seen)) eqn:Hs.
    + apply bool_decide_eq_true in Hs. rewrite IH.
      destruct (decide (has_key k ir)) as [<-|Hne]; [|done].
      by rewrite bool_decide_eq_true_2.
    + apply bool_decide_eq_false in Hs.
      rewrite filter_cons, IH.
      destruct (decide (has_key k ir)) as [Hk|Hne].
      * unfold has_key in Hk. subst k.
        rewrite bool_decide_eq_true_2 by set_solver.
        by rewrite bool_decide_eq_false_2.
      * unfold has_key in Hne.
        destruct (bool_decide (k ∈ seen)) eqn:Hks.
        -- apply bool_decide_eq_true in Hks.
           by rewrite bool_decide_eq_true_2 by set_solver.
        -- apply bool_decide_eq_false in Hks.
           rewrite bool_decide_eq_false_2; [done|]. set_solver.
Qed.

Lemma drop_duplicates_skip df :
  has_col "StudentID" df = false \/ has_col "Term" df = false ->
  drop_duplicates df = Ok df.
Proof. unfold drop_duplicates. by intros [-> | ->]; rewrite ?andb_false_r. Qed.

Lemma drop_duplicates_rows df out :
  has_col "StudentID" df = true -> has_col "Term" df = true ->
  drop_duplicates df = Ok out ->
  rows out = keep_first [] (rows (sort_index df)).
Proof.
  intros H1 H2. unfold drop_duplicates. rewrite H1, H2. simpl.
  destruct (has_col "Track" _); [|done]. by intros [= <-].
Qed.

Section PipelineFacts.
Context `{L : PyLib}.

Lemma foldR_app {A S} (f : S -> A -> result S) s l1 l2 :
  foldR f s (l1 ++ l2) = foldR f s l1 ≫= fun s' => foldR f s' l2.
Proof.
  revert s. induction l1 as [|x l1 IH]; intros s; simpl; [done|].
  destruct (f s x); simpl; [apply IH | done].
Qed.

Lemma run_steps_app a b d :
  run_steps (a ++ b) d = run_steps a d ≫= run_steps b.
Proof. apply foldR_app. Qed.

Lemma run_steps_cons s l d :
  run_steps (s :: l) d = guarded s d ≫= run_steps l.
Proof. done. Qed.

Lemma for_cols_cons body c cs d :
  for_cols (c :: cs) body d = for_cols cs body (if_col c (body c) d).
Proof. done. Qed.

Lemma for_colsR_cons body c cs d :
  for_colsR (c :: cs) body d
  = (if has_col c d then body c d else Ok d) ≫= for_colsR cs body.
Proof. done. Qed.

Lemma guarded_pure c f d : guarded (pure_step c f) d = Ok (if_col c f d).
Proof. unfold guarded, if_col. simpl. by destruct (has_col c d). Qed.

Lemma run_pure_for_cols body cs d :
  run_steps ((fun c => pure_step c (body c)) <$> cs) d = Ok (for_cols cs body d).
Proof.
  revert d. induction cs as [|c cs IH]; intros d; [done|].
  rewrite fmap_cons, run_steps_cons, guarded_pure, for_cols_cons. simpl. apply IH.
Qed.

Lemma run_for_colsR body cs d :
  run_steps ((fun c => (c, body c)) <$> cs) d = for_colsR cs body d.
Proof.
  revert d. induction cs as [|c cs IH]; intros d; [done|].
  rewrite fmap_cons, run_steps_cons, for_colsR_cons. unfold guarded. simpl.
  destruct (if has_col c d then _ else _); simpl; [apply IH | done].
Qed.

Lemma run_pure_pair c1 f1 c2 f2 d :
  run_steps [pure_step c1 f1; pure_step c2 f2] d
  = Ok (if_col c2 f2 (if_col c1 f1 d)).
Proof.
  rewrite run_steps_cons, guarded_pure. simpl.
  by rewrite run_steps_cons, guarded_pure.
Qed.

Lemma bind_ret_l {A B} (a : A) (f : A -> result B) : Ok a ≫= f = f a.
Proof. done. Qed.

Lemma clean_steps_run df :
  clean_steps df = run_steps clean_pipeline (replace_special_nulls df).
Proof.
  unfold clean_steps, clean_pipeline.
  rewrite run_steps_app, run_pure_for_cols, bind_ret_l.
  rewrite run_steps_app, run_pure_pair, bind_ret_l.
  rewrite run_steps_app, run_for_colsR.
  destruct (for_colsR int_cols _ _) as [d1|]; [|done].
  rewrite !bind_ret_l.
  rewrite run_steps_app, run_pure_pair, bind_ret_l.
  rewrite run_steps_app, run_for_colsR.
  destruct (for_colsR score_cols _ _) as [d2|]; [|done].
  rewrite !bind_ret_l. by rewrite run_for_colsR.
Qed.

(** *** Assignments *)

Lemma assign_columns c f d : has_col c d = true -> columns (assign c f d) = columns d.
Proof. unfold assign. simpl. by intros ->. Qed.

Lemma assign_has_col c f d c0 :
  has_col c d = true -> has_col c0 (assign c f d) = has_col c0 d.
Proof. intros H. unfold has_col at 1. by rewrite assign_columns. Qed.

Lemma assign_index c f d : fmap fst (rows (assign c f d)) = fmap fst (rows d).
Proof. unfold assign. simpl. rewrite <- list_fmap_compose. done. Qed.

Lemma get_insert_eq c v (r : row) : get c (<[c := v]> r) = v.
Proof. apply lookup_total_insert_eq. Qed.

Lemma get_insert_ne c c0 v (r : row) : c <> c0 -> get c0 (<[c := v]> r) = get c0 r.
Proof. apply lookup_total_insert_ne. Qed.

Lemma assign_col_view_ne c c0 f d :
  c <> c0 -> col_view c0 (assign c f d) = col_view c0 d.
Proof.
  intros Hne. unfold col_view, assign. simpl. rewrite <- list_fmap_compose.
  apply list_fmap_ext. intros _ [i r] _. simpl. by rewrite get_insert_ne.
Qed.

Lemma col_all_view P c d :
  col_all P c d <-> Forall (fun iv : Z * cell => P iv.1 iv.2) (col_view c d).
Proof. unfold col_all, col_view. by rewrite Forall_fmap. Qed.

Lemma assign_col_all P c f d :
  (forall ir, ir ∈ rows d -> P ir.1 (f ir.2)) -> col_all P c (assign c f d).
Proof.
  intros H. unfold col_all, assign. simpl. rewrite Forall_fmap.
  apply Forall_forall. intros ir Hir. simpl. rewrite get_insert_eq. by apply H.
Qed.

Lemma assign_assign c f g d :
  has_col c d = true ->
  assign c g (assign c f d) = assign c (fun r => g (<[c := f r]> r)) d.
Proof.
  intros H. unfold assign at 1 3. rewrite assign_has_col, H by done.
  rewrite assign_columns by done. f_equal.
  unfold assign. simpl. rewrite <- list_fmap_compose.
  apply list_fmap_ext. intros _ [i r] _. simpl. by rewrite insert_insert_eq.
Qed.

Lemma assignR_Ok c f d d' :
  assignR c f d = Ok d' ->
  d' = assign c (fun r => match f r with Ok v => v | Raise _ => NA end) d
  /\ Forall (fun ir : Z * row => exists v, f ir.2 = Ok v) (rows d).
Proof.
  unfold assignR. intros (rs & Hrs & [= <-])%bind_Ok.
  apply mapR_Ok in Hrs. unfold assign. split.
  - f_equal. induction Hrs as [|[i r] y l l' Hy Hl IH]; simpl; [done|].
    apply bind_Ok in Hy as (v & Hv & [= <-]). simpl in *. rewrite Hv. by f_equal.
  - induction Hrs as [|[i r] y l l' Hy Hl IH]; constructor; [|done].
    apply bind_Ok in Hy as (v & Hv & _). by exists v.
Qed.

(** *** Every step of the pipeline writes its own column *)

Lemma writes_pure_assign c (g : DataFrame -> row -> cell) :
  writes (pure_step c (fun d => assign c (g d) d)).
Proof. intros d d' _ [= <-]. by eexists. Qed.

Lemma writes_normalize_str c : writes (pure_step c (normalize_str c)).
Proof. intros d d' _ [= <-]. by eexists. Qed.

Lemma writes_validate_format p c : writes (pure_step c (validate_format p c)).
Proof. intros d d' _ [= <-]. by eexists. Qed.

Lemma writes_validate_student_id : writes (pure_step "StudentID" validate_student_id).
Proof. intros d d' _ [= <-]. by eexists. Qed.

Lemma writes_validate_term : writes (pure_step "Term" validate_term).
Proof. intros d d' _ [= <-]. by eexists. Qed.

Lemma writes_coerce_int c : writes (c, coerce_int c).
Proof. intros d d' _ [-> _]%assignR_Ok. by eexists. Qed.

End PipelineFacts.

(** ** Rationals: mean and rounding *)

Lemma out_of_range_false q : out_of_range q = false <-> in_range q.
Proof.
  unfold out_of_range, in_range.
  rewrite orb_false_iff, !negb_false_iff, !Qle_bool_iff. done.
Qed.

Lemma Qsum_bounds lo hi (l : list Q) :
  Forall (fun q => lo <= q /\ q <= hi)%Q l ->
  (lo * inject_Z (Z.of_nat (length l)) <= Qsum l
   /\ Qsum l <= hi * inject_Z (Z.of_nat (length l)))%Q.
Proof.
  induction 1 as [|q l [Hlo Hhi] Hl [IH1 IH2]].
  - change (inject_Z (Z.of_nat (length (@nil Q)))) with 0%Q.
    change (Qsum []) with 0%Q. lra.
  - change (Qsum (q :: l)) with (q + Qsum l)%Q.
    change (length (q :: l)) with (S (length l)).
    rewrite Nat2Z.inj_succ, <- Z.add_1_r, inject_Z_plus.
    change (inject_Z 1) with 1%Q. lra.
Qed.

Lemma mean_bounds lo hi (l : list Q) m :
  Forall (fun q => lo <= q /\ q <= hi)%Q l -> mean l = Some m ->
  (lo <= m /\ m <= hi)%Q.
Proof.
  intros Hl. destruct l as [|q l]; [done|]. intros [= <-].
  rewrite Qred_correct.
  destruct (Qsum_bounds lo hi _ Hl) as [H1 H2].
  set (n := inject_Z (Z.of_nat (length (q :: l)))) in *.
  assert (Hn : (0 < n)%Q).
  { unfold n. change 0%Q with (inject_Z 0). rewrite <- Zlt_Qlt. simpl. lia. }
  split.
  - apply Qle_shift_div_l; [done | exact H1].
  - apply Qle_shift_div_r; [done | exact H2].
Qed.

Lemma round_half_even_bounds q :
  (Qfloor q <= round_half_even q <= Qfloor q + 1)%Z.
Proof.
  unfold round_half_even. destruct (Qcompare _ _); [|lia|lia].
  destruct (Z.even _); lia.
Qed.

Lemma round_half_even_close q :
  (Qabs (inject_Z (round_half_even q) - q) <= 1 # 2)%Q.
Proof.
  unfold round_half_even.
  pose proof (Qfloor_le q) as H1. pose proof (Qlt_floor q) as H2.
  rewrite inject_Z_plus in H2. change (inject_Z 1) with 1%Q in H2.
  destruct (Qcompare _ _) eqn:Hc.
  - apply Qeq_alt in Hc. destruct (Z.even _).
    + apply Qabs_Qle_condition. lra.
    + rewrite inject_Z_plus. change (inject_Z 1) with 1%Q.
      apply Qabs_Qle_condition. lra.
  - apply Qlt_alt in Hc. apply Qabs_Qle_condition. lra.
  - apply Qgt_alt in Hc. rewrite inject_Z_plus. change (inject_Z 1) with 1%Q.
    apply Qabs_Qle_condition. lra.
Qed.

Lemma round_half_even_range q (a b : Z) :
  (inject_Z a <= q)%Q -> (q <= inject_Z b)%Q ->
  (a <= round_half_even q <= b)%Z.
Proof.
  intros Ha Hb.
  assert (a <= Qfloor q)%Z as Ha'.
  { rewrite <- (Qfloor_Z a). by apply Qfloor_resp_le. }
  assert (Qfloor q <= b)%Z as Hb'.
  { rewrite <- (Qfloor_Z b). by apply Qfloor_resp_le. }
  pose proof (round_half_even_bounds q) as [H1 H2].
  split; [lia|].
  destruct (decide (Qfloor q = b)) as [Hf|Hf]; [|lia].
  unfold round_half_even.
  assert (q == inject_Z b)%Q as Hq.
  { apply Qle_antisym; [done|]. rewrite <- Hf. apply Qfloor_le. }
  destruct (Qcompare _ _) eqn:Hc; [| lia |].
  - apply Qeq_alt in Hc. rewrite Hf in Hc. lra.
  - apply Qgt_alt in Hc. rewrite Hf in Hc. lra.
Qed.

Lemma Qmake_10 (k : Z) : (k # 10 == inject_Z k / 10)%Q.
Proof. unfold Qeq, Qdiv, Qmult, Qinv, inject_Z. simpl. lia. Qed.

Lemma round1_in_range q : in_range q -> in_range (round1 q).
Proof.
  intros [H0 H1]. unfold round1, in_range. rewrite Qred_correct.
  destruct (round_half_even_range (q * 10) 0 1000) as [Ha Hb].
  { change (inject_Z 0) with 0%Q. lra. }
  { change (inject_Z 1000) with 1000%Q. lra. }
  rewrite Qmake_10. rewrite Zle_Qle in Ha, Hb.
  change (inject_Z 0) with 0%Q in Ha. change (inject_Z 1000) with 1000%Q in Hb.
  unfold Qdiv. change (/ 10)%Q with (1 # 10)%Q. lra.
Qed.

(** [round1] gives a multiple of one tenth, at most one twentieth away. *)
Lemma round1_spec q :
  exists k : Z, (round1 q == k # 10)%Q /\ (Qabs (round1 q - q) <= 1 # 20)%Q.
Proof.
  exists (round_half_even (q * 10)). unfold round1. rewrite Qred_correct.
  split; [done|].
  pose proof (round_half_even_close (q * 10)) as H.
  apply Qabs_Qle_condition in H as [H1 H2].
  rewrite Qmake_10. apply Qabs_Qle_condition.
  set (k := inject_Z (round_half_even (q * 10))) in *.
  unfold Qdiv. change (/ 10)%Q with (1 # 10)%Q. lra.
Qed.

(** ** Decimal text of an integer *)

Lemma str_of_nonneg_length_le (k : nat) : forall fuel n acc,
  (1 <= k)%nat -> (0 <= n < 10 ^ Z.of_nat k)%Z ->
  (String.length (str_of_nonneg fuel n acc) <= k + String.length acc)%nat.
Proof.
  induction k as [|k IH]; intros fuel n acc Hk Hn; [lia|].
  destruct fuel as [|fuel]; simpl; [lia|].
  destruct (Z.eqb_spec (n / 10) 0) as [Hz|Hz]; simpl; [lia|].
  assert (10 <= n)%Z.
  { destruct (Z_lt_le_dec n 10) as [Hlt|]; [|done].
    rewrite Z.div_small in Hz; lia. }
  destruct k as [|k].
  { simpl in Hn. lia. }
  etrans; [apply IH; [lia|]|simpl; lia].
  rewrite Nat2Z.inj_succ, Z.pow_succ_r in Hn by lia.
  split; [apply Z.div_pos; lia|].
  apply Z.div_lt_upper_bound; lia.
Qed.

Lemma str_of_nonneg_length_acc fuel n acc :
  (String.length acc <= String.length (str_of_nonneg fuel n acc))%nat.
Proof.
  revert n acc. induction fuel as [|fuel IH]; intros n acc; simpl; [lia|].
  destruct (n / 10 =? 0)%Z; simpl; [lia|].
  etrans; [|apply IH]. simpl. lia.
Qed.

Lemma str_of_nonneg_length_ge (k : nat) : forall fuel n acc,
  (10 ^ Z.of_nat k <= n < 2 ^ Z.of_nat fuel)%Z ->
  (k + 1 + String.length acc <= String.length (str_of_nonneg fuel n acc))%nat.
Proof.
  induction k as [|k IH]; intros fuel n acc [Hlo Hhi].
  - destruct fuel as [|fuel]; [simpl in *; lia|]. simpl.
    destruct (n / 10 =? 0)%Z; simpl; [lia|].
    etrans; [|apply str_of_nonneg_length_acc]. simpl. lia.
  - rewrite Nat2Z.inj_succ, Z.pow_succ_r in Hlo by lia.
    assert (0 < 10 ^ Z.of_nat k)%Z by (apply Z.pow_pos_nonneg; lia).
    destruct fuel as [|fuel]; [simpl in *; lia|]. simpl.
    rewrite Nat2Z.inj_succ, Z.pow_succ_r in Hhi by lia.
    destruct (Z.eqb_spec (n / 10) 0) as [Hz|Hz].
    { apply Z.div_small_iff in Hz; lia. }
    etrans; [|apply IH].
    + simpl. lia.
    + split.
      * apply Z.div_le_lower_bound; lia.
      * apply Z.div_lt_upper_bound; lia.
Qed.

Lemma fullmatch_length p s : fullmatch p s = true -> String.length s = length p.
Proof.
  revert s. induction p as [|k p IH]; intros [|a s]; simpl; try done.
  intros [_ H]%andb_true_iff. by rewrite (IH s).
Qed.

Lemma str_of_Z_four_digits z :
  fullmatch re_student_id (str_of_Z z) = true -> (1000 <= z <= 9999)%Z.
Proof.
  unfold str_of_Z. destruct (Z.ltb_spec z 0) as [Hneg|Hpos]; [done|].
  intros Hlen%fullmatch_length. simpl in Hlen.
  destruct (Z_lt_le_dec z 1000) as [Hlt|Hge].
  { pose proof (str_of_nonneg_length_le 3 (S (Z.to_nat (Z.log2 z))) z "").
    simpl in *. lia. }
  destruct (Z_lt_le_dec z 10000) as [Hlt|Hge']; [lia|].
  pose proof (str_of_nonneg_length_ge 4 (S (Z.to_nat (Z.log2 z))) z "") as H.
  simpl in H. rewrite Hlen in H.
  assert (10000 <= z < 2 ^ Z.of_nat (S (Z.to_nat (Z.log2 z))))%Z; [|lia].
  split; [done|]. rewrite Nat2Z.inj_succ, Z2Nat.id by apply Z.log2_nonneg.
  apply Z.log2_spec. lia.
Qed.

Lemma is_digit_val a : is_digit a = true -> (0 <= digit_val a <= 9)%Z.
Proof.
  unfold is_digit, digit_val. intros [H1 H2]%andb_true_iff.
  apply Nat.leb_le in H1, H2. lia.
Qed.

(** Four digits, the first of them [0], denote a number below 1000. *)
Lemma leading_zero_value s :
  fullmatch re_student_id s = true -> (exists t, s = String "0"%char t) ->
  (0 <= digits_value 0 s <= 999)%Z.
Proof.
  intros Hm [t ->]. pose proof (fullmatch_length _ _ Hm) as Hlen.
  destruct t as [|b [|c [|d [|]]]]; try done.
  unfold re_student_id in Hm. cbn [fullmatch cclass_match] in Hm.
  apply andb_true_iff in Hm as [_ Hm]. apply andb_true_iff in Hm as [Hb Hm].
  apply andb_true_iff in Hm as [Hc Hm]. apply andb_true_iff in Hm as [Hd _].
  apply is_digit_val in Hb, Hc, Hd. cbn [digits_value].
  change (digit_val "0") with 0%Z. lia.
Qed.

Lemma fullmatch_digits_all s :
  fullmatch re_student_id s = true -> all_digits s = true /\ s <> "" /\ (String.length s <= 18)%nat.
Proof.
  intros Hm. pose proof (fullmatch_length _ _ Hm) as Hlen. revert Hm.
  destruct s as [|a [|b [|c [|d [|]]]]]; try done.
  unfold re_student_id. cbn [fullmatch cclass_match all_digits].
  intros Hm. split; [done|]. split; [done|]. simpl. lia.
Qed.

Section Steps.
Context `{L : PyLib}.

Lemma run_steps_nil d d' : run_steps [] d = Ok d' -> d' = d.
Proof. by intros [= <-]. Qed.

Lemma guarded_writes s d d' :
  writes s -> guarded s d = Ok d' ->
  columns d' = columns d /\ fmap fst (rows d') = fmap fst (rows d) /\
  forall c0, s.1 <> c0 -> col_view c0 d' = col_view c0 d.
Proof.
  intros Hw. unfold guarded. destruct (has_col s.1 d) eqn:Hc.
  - intros Hs. destruct (Hw d d' Hc Hs) as [f ->].
    split; [by apply assign_columns|]. split; [apply assign_index|].
    intros c0 Hne. by apply assign_col_view_ne.
  - by intros [= <-].
Qed.

Lemma run_steps_writes steps d d' :
  Forall writes steps -> run_steps steps d = Ok d' ->
  columns d' = columns d /\ fmap fst (rows d') = fmap fst (rows d) /\
  forall c0, Forall (fun s : step => s.1 <> c0) steps ->
             col_view c0 d' = col_view c0 d.
Proof.
  intros Hw. revert d. induction Hw as [|s steps Hs Hw IH]; intros d.
  - by intros ->%run_steps_nil.
  - rewrite run_steps_cons. intros (d1 & H1 & H2)%bind_Ok.
    destruct (guarded_writes _ _ _ Hs H1) as (Hc1 & Hi1 & Hv1).
    destruct (IH _ H2) as (Hc2 & Hi2 & Hv2).
    split; [congruence|]. split; [congruence|].
    intros c0 [Hne Hrest]%Forall_cons. rewrite Hv2, Hv1; done.
Qed.

Lemma has_col_columns c d d' : columns d' = columns d -> has_col c d' = has_col c d.
Proof. unfold has_col. by intros ->. Qed.

Lemma col_all_col_view P c d d' :
  col_view c d' = col_view c d -> col_all P c d -> col_all P c d'.
Proof. rewrite !col_all_view. by intros ->. Qed.

Lemma run_rest c0 Q B d d' :
  Forall writes B -> Forall (fun s : step => s.1 <> c0) B ->
  col_all Q c0 d -> run_steps B d = Ok d' -> col_all Q c0 d'.
Proof.
  intros Hw Hne HQ Hrun.
  destruct (run_steps_writes _ _ _ Hw Hrun) as (_ & _ & Hv).
  eapply col_all_col_view; [by apply Hv | done].
Qed.

Lemma run_hit c0 P Q A s B d d' :
  Forall writes A -> Forall (fun s : step => s.1 <> c0) A ->
  s.1 = c0 -> has_col c0 d = true -> col_all P c0 d ->
  (forall d1 d2, has_col c0 d1 = true -> col_all P c0 d1 -> s.2 d1 = Ok d2 ->
                 columns d2 = columns d1 /\ col_all Q c0 d2) ->
  run_steps (A ++ s :: B) d = Ok d' ->
  exists d2, has_col c0 d2 = true /\ col_all Q c0 d2 /\ run_steps B d2 = Ok d'.
Proof.
  intros Hw Hne Hs Hc HP Hstep. rewrite run_steps_app.
  intros (d1 & HA & Hrun)%bind_Ok. rewrite run_steps_cons in Hrun.
  apply bind_Ok in Hrun as (d2 & Hg & HB).
  destruct (run_steps_writes _ _ _ Hw HA) as (Hc1 & _ & Hv1).
  assert (has_col c0 d1 = true) as Hc0 by (by rewrite (has_col_columns _ _ _ Hc1)).
  unfold guarded in Hg. rewrite Hs, Hc0 in Hg.
  destruct (Hstep d1 d2 Hc0) as [Hc2 HQ]; [|done|].
  { eapply col_all_col_view; [by apply Hv1 | done]. }
  exists d2. split; [|done]. by rewrite (has_col_columns _ _ _ Hc2).
Qed.

(** *** The steps, one by one *)

Lemma col_all_elem P c d ir : col_all P c d -> ir ∈ rows d -> P ir.1 (get c ir.2).
Proof. unfold col_all. rewrite Forall_forall. auto. Qed.

Lemma col_all_impl (P Q : Z -> cell -> Prop) c d :
  (forall j v, P j v -> Q j v) -> col_all P c d -> col_all Q c d.
Proof. intros H HP. unfold col_all in *. eapply Forall_impl; [done|]. simpl. auto. Qed.

(** A step that rewrites each cell of a column from the cell alone. *)
Lemma assign_local (g : cell -> cell) (P Q : Z -> cell -> Prop) c d :
  (forall j v, P j v -> Q j (g v)) ->
  col_all P c d -> col_all Q c (assign c (fun r => g (get c r)) d).
Proof.
  intros Hg HP. apply assign_col_all. intros ir Hir.
  apply Hg. by apply (col_all_elem P c d).
Qed.

Lemma assignR_local (g : cell -> result cell) (P Q : Z -> cell -> Prop) c d d' :
  (forall j v v', P j v -> g v = Ok v' -> Q j v') ->
  col_all P c d -> assignR c (fun r => g (get c r)) d = Ok d' -> col_all Q c d'.
Proof.
  intros Hg HP [-> Hall]%assignR_Ok. apply assign_col_all. intros ir Hir.
  rewrite Forall_forall in Hall. destruct (Hall ir Hir) as [v Hv].
  rewrite Hv. eapply Hg; [|done]. by apply (col_all_elem P c d).
Qed.

Lemma normalize_cell_ok v : is_str (normalize_cell v).
Proof.
  unfold is_str, normalize_cell. destruct (astype_string _); simpl; eauto.
Qed.

Lemma validate_cell_ok p v : is_str v -> matches p (validate_cell p v).
Proof.
  intros [->|[s ->]]; [by left|]. unfold matches. simpl.
  destruct (fullmatch p s) eqn:Hm; eauto.
Qed.

Lemma astype_Int64_is_int x v : astype_Int64 x = Ok v -> is_int v.
Proof.
  unfold astype_Int64, is_int. destruct x as [q|]; [|intros [= <-]; by left].
  destruct (_ && _); [|done]. intros [= <-]. eauto.
Qed.

Lemma student_id_cell_ok v : is_int v -> id_ok (student_id_cell v).
Proof.
  intros [->|[z ->]]; [by left|]. unfold student_id_cell. cbn [astype_str].
  destruct (fullmatch re_student_id (str_of_Z z)) eqn:Hm; [|by left].
  right. exists z. split; [done|]. by apply str_of_Z_four_digits.
Qed.

Lemma term_cell_ok v : is_int v -> term_ok (term_cell v).
Proof.
  intros [->|[z ->]]; [by left|]. unfold term_cell, term_ok. cbn [isin_1_2].
  destruct (Z.eqb_spec z 1) as [->|]; [eauto|].
  destruct (Z.eqb_spec z 2) as [->|]; eauto.
Qed.

Lemma score_cell_ok v : score_ok (score_cell v).
Proof.
  unfold score_cell, score_ok. destruct (to_numeric v) as [q|]; [|by left].
  simpl. destruct (out_of_range q) eqn:Hr; [by left|].
  right. exists q. by rewrite <- out_of_range_false.
Qed.

Lemma range_coerce c d :
  has_col c d = true ->
  range_filter c (coerce_score c d) = assign c (fun r => score_cell (get c r)) d.
Proof.
  intros Hc. unfold range_filter, coerce_score. rewrite assign_assign by done.
  unfold assign. f_equal. apply list_fmap_ext. intros _ [i r] _. simpl.
  f_equal. f_equal. rewrite get_insert_eq. reflexivity.
Qed.

Lemma clean_score_Ok c d d' :
  has_col c d = true -> clean_score c d = Ok d' ->
  let d2 := assign c (fun r => score_cell (get c r)) d in
  has_col "Track" d = true /\
  d' = assign c (fun r => fillna (get c r)
                            (of_float (round1 <$> transform_mean c d2 r))) d2.
Proof.
  intros Hc. unfold clean_score. rewrite range_coerce by done.
  unfold impute_score. rewrite assign_has_col by done.
  destruct (has_col "Track" d); [|done]. by intros [= <-].
Qed.

Lemma transform_mean_in_range c d r m :
  col_all (fun _ => score_ok) c d -> transform_mean c d r = Some m -> in_range m.
Proof.
  intros Hall. unfold transform_mean.
  assert (forall k m, mean (omap (fun ir : Z * row => as_float (get c ir.2))
                       (group_rows "Track" k (rows d))) = Some m -> in_range m)
    as Hm.
  { intros k m'. apply mean_bounds. apply Forall_forall. intros q Hq.
    apply list_elem_of_omap in Hq as (ir & Hir & Hf).
    apply list_elem_of_filter in Hir as [_ Hir].
    destruct (col_all_elem _ _ _ _ Hall Hir) as [Hna|(q' & Hq' & Hr)]; rewrite ?Hna, ?Hq' in Hf;
      [done|]. by injection Hf as <-. }
  destruct (get "Track" r); [done|..]; apply Hm.
Qed.

Lemma clean_score_ok c d d' :
  has_col c d = true -> clean_score c d = Ok d' ->
  columns d' = columns d /\ col_all (fun _ => score_ok) c d'.
Proof.
  intros Hc Hs. destruct (clean_score_Ok _ _ _ Hc Hs) as [_ ->].
  set (d2 := assign c _ d).
  assert (col_all (fun _ => score_ok) c d2) as H2.
  { apply assign_col_all. intros ir _. apply score_cell_ok. }
  assert (has_col c d2 = true) as Hc2 by (unfold d2; by rewrite assign_has_col).
  split.
  { rewrite (assign_columns c _ d2 Hc2). unfold d2. by apply assign_columns. }
  apply assign_col_all. intros ir Hir. pose proof H2 as H2'.
  unfold col_all in H2. rewrite Forall_forall in H2.
  destruct (H2 ir Hir) as [->|(q & -> & Hq)]; simpl.
  - destruct (transform_mean c d2 ir.2) as [m|] eqn:Hm; simpl; [|by left].
    right. exists (round1 m). split; [done|].
    apply round1_in_range. by eapply transform_mean_in_range.
  - right. eauto.
Qed.

Lemma writes_clean_score c : writes (c, clean_score c).
Proof.
  intros d d' Hc Hs. simpl in *.
  destruct (clean_score_Ok _ _ _ Hc Hs) as [_ ->].
  rewrite assign_assign by done. by eexists.
Qed.

Lemma clean_bool_Ok c d d' :
  has_col c d = true -> clean_bool c d = Ok d' ->
  let d2 := decode_bools c d in
  has_col "Track" d = true /\
  d' = assign c (fun r => fillna (get c r) (transform_mode c d2 r)) d2.
Proof.
  intros Hc. unfold clean_bool, impute_bool, decode_bools.
  rewrite assign_has_col by done.
  destruct (has_col "Track" d); [|done]. by intros [= <-].
Qed.

Lemma decode_bool_ok v : bool_ok (decode_bool v).
Proof.
  unfold decode_bool, bool_ok. destruct (astype_string v); [|by left].
  destruct (BOOL_MAP !! _); eauto.
Qed.

Lemma first_mode_ok l : bool_ok (first_mode l).
Proof. unfold first_mode, bool_ok. destruct (mode l); eauto. Qed.

Lemma transform_mode_ok c d r : bool_ok (transform_mode c d r).
Proof.
  unfold transform_mode. destruct (get "Track" r); try apply first_mode_ok.
  by left.
Qed.

Lemma clean_bool_ok c d d' :
  has_col c d = true -> clean_bool c d = Ok d' ->
  columns d' = columns d /\ col_all (fun _ => bool_ok) c d'.
Proof.
  intros Hc Hs. destruct (clean_bool_Ok _ _ _ Hc Hs) as [_ ->].
  unfold decode_bools. split.
  { rewrite assign_columns; [by apply assign_columns|]. by rewrite assign_has_col. }
  apply assign_col_all. intros ir Hir.
  apply list_elem_of_fmap in Hir as ([i r] & -> & _). simpl.
  rewrite get_insert_eq.
  destruct (decode_bool_ok (get c r)) as [->|[b ->]]; simpl.
  - apply transform_mode_ok.
  - right. eauto.
Qed.

Lemma writes_clean_bool c : writes (c, clean_bool c).
Proof.
  intros d d' Hc Hs. simpl in *.
  destruct (clean_bool_Ok _ _ _ Hc Hs) as [_ ->].
  unfold decode_bools. rewrite assign_assign by done. by eexists.
Qed.

Lemma writes_pipeline : Forall writes clean_pipeline.
Proof.
  unfold clean_pipeline. repeat apply Forall_app_2; simpl.
  - repeat constructor; apply writes_normalize_str.
  - repeat constructor; apply writes_validate_format.
  - repeat constructor; apply writes_coerce_int.
  - repeat constructor; [apply writes_validate_student_id | apply writes_validate_term].
  - repeat constructor; apply writes_clean_score.
  - repeat constructor; apply writes_clean_bool.
Qed.

End Steps.

Section Columns.
Context `{L : PyLib}.

Ltac others :=
  unfold clean_pipeline; simpl; repeat constructor; simpl; discriminate.

(** A column written by one step of the pipeline. *)
Lemma one_hit (n : nat) c0 (P Q : Z -> cell -> Prop) (s : step) d d' :
  clean_pipeline !! n = Some s -> s.1 = c0 ->
  Forall (fun s : step => s.1 <> c0) (take n clean_pipeline) ->
  Forall (fun s : step => s.1 <> c0) (drop (S n) clean_pipeline) ->
  (forall d1 d2, has_col c0 d1 = true -> col_all P c0 d1 -> s.2 d1 = Ok d2 ->
                 columns d2 = columns d1 /\ col_all Q c0 d2) ->
  has_col c0 d = true -> col_all P c0 d ->
  run_steps clean_pipeline d = Ok d' -> col_all Q c0 d'.
Proof.
  intros Hn Hs HA HB Hstep Hc HP Hrun.
  rewrite <- (take_drop_middle _ _ _ Hn) in Hrun.
  pose proof writes_pipeline as Hw.
  apply run_hit with (P := P) (Q := Q) (c0 := c0) in Hrun
    as (d2 & Hc2 & HQ & Hrun); try done.
  - eapply run_rest; [| done | done | done]. by apply Forall_drop.
  - by apply Forall_take.
Qed.

(** A column written by two steps of the pipeline. *)
Lemma two_hits (n m : nat) c0 (P Q R : Z -> cell -> Prop) (s1 s2 : step) d d' :
  clean_pipeline !! n = Some s1 -> s1.1 = c0 ->
  drop (S n) clean_pipeline !! m = Some s2 -> s2.1 = c0 ->
  Forall (fun s : step => s.1 <> c0) (take n clean_pipeline) ->
  Forall (fun s : step => s.1 <> c0) (take m (drop (S n) clean_pipeline)) ->
  Forall (fun s : step => s.1 <> c0) (drop (S m) (drop (S n) clean_pipeline)) ->
  (forall d1 d2, has_col c0 d1 = true -> col_all P c0 d1 -> s1.2 d1 = Ok d2 ->
                 columns d2 = columns d1 /\ col_all Q c0 d2) ->
  (forall d1 d2, has_col c0 d1 = true -> col_all Q c0 d1 -> s2.2 d1 = Ok d2 ->
                 columns d2 = columns d1 /\ col_all R c0 d2) ->
  has_col c0 d = true -> col_all P c0 d ->
  run_steps clean_pipeline d = Ok d' -> col_all R c0 d'.
Proof.
  intros Hn Hs1 Hm Hs2 HA HB HC Hstep1 Hstep2 Hc HP Hrun.
  rewrite <- (take_drop_middle _ _ _ Hn) in Hrun.
  rewrite <- (take_drop_middle _ _ _ Hm) in Hrun.
  pose proof writes_pipeline as Hw.
  apply run_hit with (P := P) (Q := Q) (c0 := c0) in Hrun
    as (d2 & Hc2 & HQ & Hrun); try done; [|by apply Forall_take].
  apply run_hit with (P := Q) (Q := R) (c0 := c0) in Hrun
    as (d3 & Hc3 & HR & Hrun); try done;
    [|by apply Forall_take, Forall_drop].
  eapply run_rest; [| done | done | done]. by apply Forall_drop, Forall_drop.
Qed.

Lemma pure_assign_step c (g : cell -> cell) (P Q : Z -> cell -> Prop) d1 d2 :
  (forall j v, P j v -> Q j (g v)) ->
  has_col c d1 = true -> col_all P c d1 ->
  Ok (assign c (fun r => g (get c r)) d1) = Ok d2 ->
  columns d2 = columns d1 /\ col_all Q c d2.
Proof.
  intros Hg Hc HP [= <-]. split; [by apply assign_columns|].
  by apply assign_local with (P := P).
Qed.

Lemma normalize_str_step c (P Q : Z -> cell -> Prop) d1 d2 :
  (forall j v, P j v -> Q j (normalize_cell v)) ->
  has_col c d1 = true -> col_all P c d1 ->
  (pure_step c (normalize_str c)).2 d1 = Ok d2 ->
  columns d2 = columns d1 /\ col_all Q c d2.
Proof. apply (pure_assign_step c normalize_cell). Qed.

Lemma validate_format_step p c (P Q : Z -> cell -> Prop) d1 d2 :
  (forall j v, P j v -> Q j (validate_cell p v)) ->
  has_col c d1 = true -> col_all P c d1 ->
  (pure_step c (validate_format p c)).2 d1 = Ok d2 ->
  columns d2 = columns d1 /\ col_all Q c d2.
Proof. apply (pure_assign_step c (validate_cell p)). Qed.

Lemma validate_student_id_step (P Q : Z -> cell -> Prop) d1 d2 :
  (forall j v, P j v -> Q j (student_id_cell v)) ->
  has_col "StudentID" d1 = true -> col_all P "StudentID" d1 ->
  (pure_step "StudentID" validate_student_id).2 d1 = Ok d2 ->
  columns d2 = columns d1 /\ col_all Q "StudentID" d2.
Proof. apply (pure_assign_step "StudentID" student_id_cell). Qed.

Lemma validate_term_step (P Q : Z -> cell -> Prop) d1 d2 :
  (forall j v, P j v -> Q j (term_cell v)) ->
  has_col "Term" d1 = true -> col_all P "Term" d1 ->
  (pure_step "Term" validate_term).2 d1 = Ok d2 ->
  columns d2 = columns d1 /\ col_all Q "Term" d2.
Proof. apply (pure_assign_step "Term" term_cell). Qed.

Lemma coerce_int_step c (P Q : Z -> cell -> Prop) d1 d2 :
  (forall j v v', P j v -> astype_Int64 (to_numeric v) = Ok v' -> Q j v') ->
  has_col c d1 = true -> col_all P c d1 -> coerce_int c d1 = Ok d2 ->
  columns d2 = columns d1 /\ col_all Q c d2.
Proof.
  intros Hg Hc HP Hs. split.
  - apply assignR_Ok in Hs as [-> _]. by apply assign_columns.
  - by apply (assignR_local (fun v => astype_Int64 (to_numeric v)) P Q c d1 d2).
Qed.

Lemma col_all_any c d : col_all any_cell c d.
Proof. by apply Forall_forall. Qed.

(** Text columns: normalised, then (for Class and Cohort) validated. *)
Lemma run_text c d d' :
  c ∈ ["FirstName"; "LastName"; "Track"] -> has_col c d = true ->
  run_steps clean_pipeline d = Ok d' -> col_all (fun _ => is_str) c d'.
Proof.
  intros Hc Hh Hrun.
  assert (forall d1 d2, has_col c d1 = true -> col_all any_cell c d1 ->
            (pure_step c (normalize_str c)).2 d1 = Ok d2 ->
            columns d2 = columns d1 /\ col_all (fun _ => is_str) c d2) as Hstep.
  { intros d1 d2. apply normalize_str_step. intros _ v _. apply normalize_cell_ok. }
  pose proof (col_all_any c d) as HT.
  repeat (apply elem_of_cons in Hc as [->|Hc]); [| | |by apply elem_of_nil in Hc].
  - eapply (one_hit 0 _ any_cell); try done; others.
  - eapply (one_hit 1 _ any_cell); try done; others.
  - eapply (one_hit 4 _ any_cell); try done; others.
Qed.

Lemma run_class d d' :
  has_col "Class" d = true -> run_steps clean_pipeline d = Ok d' ->
  col_all (fun _ => matches re_class) "Class" d'.
Proof.
  intros Hh Hrun.
  eapply (two_hits 2 2 "Class" any_cell (fun _ => is_str));
    [done | done | done | done | others | others | others | | | done
     | apply col_all_any | done].
  - intros d1 d2. apply normalize_str_step. intros _ v _. apply normalize_cell_ok.
  - intros d1 d2. apply validate_format_step. intros _ v. apply validate_cell_ok.
Qed.

Lemma run_cohort d d' :
  has_col "Cohort" d = true -> run_steps clean_pipeline d = Ok d' ->
  col_all (fun _ => matches re_cohort) "Cohort" d'.
Proof.
  intros Hh Hrun.
  eapply (two_hits 3 2 "Cohort" any_cell (fun _ => is_str));
    [done | done | done | done | others | others | others | | | done
     | apply col_all_any | done].
  - intros d1 d2. apply normalize_str_step. intros _ v _. apply normalize_cell_ok.
  - intros d1 d2. apply validate_format_step. intros _ v. apply validate_cell_ok.
Qed.

Lemma run_student_id d d' :
  has_col "StudentID" d = true -> run_steps clean_pipeline d = Ok d' ->
  col_all (fun _ => id_ok) "StudentID" d'.
Proof.
  intros Hh Hrun.
  eapply (two_hits 7 1 "StudentID" any_cell (fun _ => is_int));
    [done | done | done | done | others | others | others | | | done
     | apply col_all_any | done].
  - intros d1 d2. apply coerce_int_step. intros _ v v' _. apply astype_Int64_is_int.
  - intros d1 d2. apply validate_student_id_step.
    intros _ v. apply student_id_cell_ok.
Qed.

Lemma run_term d d' :
  has_col "Term" d = true -> run_steps clean_pipeline d = Ok d' ->
  col_all (fun _ => term_ok) "Term" d'.
Proof.
  intros Hh Hrun.
  eapply (two_hits 8 1 "Term" any_cell (fun _ => is_int));
    [done | done | done | done | others | others | others | | | done
     | apply col_all_any | done].
  - intros d1 d2. apply coerce_int_step. intros _ v v' _. apply astype_Int64_is_int.
  - intros d1 d2. apply validate_term_step. intros _ v. apply term_cell_ok.
Qed.

Lemma run_score c d d' :
  c ∈ score_cols -> has_col c d = true ->
  run_steps clean_pipeline d = Ok d' -> col_all (fun _ => score_ok) c d'.
Proof.
  intros Hc Hh Hrun.
  assert (forall d1 d2, has_col c d1 = true -> col_all any_cell c d1 ->
            clean_score c d1 = Ok d2 ->
            columns d2 = columns d1 /\ col_all (fun _ => score_ok) c d2) as Hstep.
  { intros d1 d2 H1 _. by apply clean_score_ok. }
  pose proof (col_all_any c d) as HT.
  unfold score_cols in Hc.
  repeat (apply elem_of_cons in Hc as [->|Hc]); [| | | | | |by apply elem_of_nil in Hc].
  - eapply (one_hit 11 _ any_cell); try done; others.
  - eapply (one_hit 12 _ any_cell); try done; others.
  - eapply (one_hit 13 _ any_cell); try done; others.
  - eapply (one_hit 14 _ any_cell); try done; others.
  - eapply (one_hit 15 _ any_cell); try done; others.
  - eapply (one_hit 16 _ any_cell); try done; others.
Qed.

Lemma run_bool c d d' :
  c ∈ boolean_cols -> has_col c d = true ->
  run_steps clean_pipeline d = Ok d' -> col_all (fun _ => bool_ok) c d'.
Proof.
  intros Hc Hh Hrun.
  assert (forall d1 d2, has_col c d1 = true -> col_all any_cell c d1 ->
            clean_bool c d1 = Ok d2 ->
            columns d2 = columns d1 /\ col_all (fun _ => bool_ok) c d2) as Hstep.
  { intros d1 d2 H1 _. by apply clean_bool_ok. }
  pose proof (col_all_any c d) as HT.
  unfold boolean_cols in Hc.
  repeat (apply elem_of_cons in Hc as [->|Hc]); [| |by apply elem_of_nil in Hc].
  - eapply (one_hit 17 _ any_cell); try done; others.
  - eapply (one_hit 18 _ any_cell); try done; others.
Qed.

End Columns.

Section CleanDf.
Context `{L : PyLib}.

Lemma get_replace_null c (r : row) :
  get c (replace_null <$> r) = replace_null (get c r).
Proof.
  unfold get. rewrite lookup_total_fmap, lookup_total_alt.
  by destruct (r !! c).
Qed.

Lemma replace_special_nulls_has_col c df :
  has_col c (replace_special_nulls df) = has_col c df.
Proof. done. Qed.

Lemma replace_special_nulls_index df :
  fmap fst (rows (replace_special_nulls df)) = fmap fst (rows df).
Proof. unfold replace_special_nulls. simpl. by rewrite <- list_fmap_compose. Qed.

Lemma clean_steps_frame df d :
  clean_steps df = Ok d ->
  columns d = columns df /\ fmap fst (rows d) = fmap fst (rows df).
Proof.
  rewrite clean_steps_run. intros Hrun.
  destruct (run_steps_writes _ _ _ writes_pipeline Hrun) as (Hc & Hi & _).
  split; [done|]. by rewrite Hi, replace_special_nulls_index.
Qed.

Lemma clean_df_Ok df out :
  clean_df df = Ok out <-> exists d, clean_steps df = Ok d /\ out = dropna d.
Proof.
  unfold clean_df. rewrite bind_Ok. split.
  - intros (d & Hd & [= <-]). eauto.
  - intros (d & Hd & ->). eauto.
Qed.

Lemma complete_get cols (r : row) c :
  complete cols r = true -> c ∈ cols -> get c r <> NA.
Proof.
  unfold complete. rewrite forallb_forall. intros H Hc.
  apply list_elem_of_In in Hc. specialize (H c Hc).
  by destruct (get c r).
Qed.

Lemma complete_false cols (r : row) c :
  c ∈ cols -> get c r = NA -> complete cols r = false.
Proof.
  intros Hc Hna. destruct (complete cols r) eqn:H; [|done].
  by destruct (complete_get cols r c H Hc).
Qed.

Lemma elem_of_dropna ir d :
  ir ∈ rows (dropna d) <-> complete (columns d) ir.2 = true /\ ir ∈ rows d.
Proof.
  unfold dropna. simpl.
  by rewrite (list_elem_of_filter (fun ir : Z * row => complete (columns d) ir.2 = true)).
Qed.

Lemma has_col_elem c d : has_col c d = true <-> c ∈ columns d.
Proof. unfold has_col. apply bool_decide_eq_true. Qed.

(** The cells of a row that survives [clean_df]. *)
Lemma clean_df_cells df out ir :
  clean_df df = Ok out -> ir ∈ rows out ->
  (forall c, c ∈ columns out -> get c ir.2 <> NA) /\
  (forall c, c ∈ score_cols -> c ∈ columns out ->
     exists q, get c ir.2 = VFloat q /\ in_range q) /\
  (forall c, c ∈ boolean_cols -> c ∈ columns out ->
     exists b, get c ir.2 = VBool b) /\
  (forall c, c ∈ ["FirstName"; "LastName"; "Track"] -> c ∈ columns out ->
     exists s, get c ir.2 = VStr s) /\
  ("Term" ∈ columns out ->
     get "Term" ir.2 = VInt 1 \/ get "Term" ir.2 = VInt 2) /\
  ("StudentID" ∈ columns out ->
     exists z, get "StudentID" ir.2 = VInt z /\ (1000 <= z <= 9999)%Z) /\
  ("Class" ∈ columns out ->
     exists s, get "Class" ir.2 = VStr s /\ fullmatch re_class s = true) /\
  ("Cohort" ∈ columns out ->
     exists s, get "Cohort" ir.2 = VStr s /\ fullmatch re_cohort s = true).
Proof.
  intros (d & Hd & ->)%clean_df_Ok [Hcomp Hir]%elem_of_dropna.
  pose proof (clean_steps_frame _ _ Hd) as [Hcols _].
  rewrite clean_steps_run in Hd.
  assert (forall c, c ∈ columns (dropna d) ->
            has_col c (replace_special_nulls df) = true /\ get c ir.2 <> NA)
    as Hcol.
  { intros c Hc. simpl in Hc. split.
    - rewrite replace_special_nulls_has_col. apply has_col_elem. by rewrite <- Hcols.
    - by eapply complete_get. }
  split; [intros c Hc; by apply Hcol|].
  split; [|split; [|split; [|split; [|split; [|split]]]]].
  - intros c Hs Hc. destruct (Hcol c Hc) as [Hh Hna].
    pose proof (col_all_elem _ _ _ _ (run_score c _ _ Hs Hh Hd) Hir) as [?|?];
      [done|]. done.
  - intros c Hs Hc. destruct (Hcol c Hc) as [Hh Hna].
    pose proof (col_all_elem _ _ _ _ (run_bool c _ _ Hs Hh Hd) Hir) as [?|?];
      [done|]. done.
  - intros c Hs Hc. destruct (Hcol c Hc) as [Hh Hna].
    pose proof (col_all_elem _ _ _ _ (run_text c _ _ Hs Hh Hd) Hir) as [?|?];
      [done|]. done.
  - intros Hc. destruct (Hcol _ Hc) as [Hh Hna].
    pose proof (col_all_elem _ _ _ _ (run_term _ _ Hh Hd) Hir) as [?|?];
      [done|]. done.
  - intros Hc. destruct (Hcol _ Hc) as [Hh Hna].
    pose proof (col_all_elem _ _ _ _ (run_student_id _ _ Hh Hd) Hir) as [?|?];
      [done|]. done.
  - intros Hc. destruct (Hcol _ Hc) as [Hh Hna].
    pose proof (col_all_elem _ _ _ _ (run_class _ _ Hh Hd) Hir) as [?|?];
      [done|]. done.
  - intros Hc. destruct (Hcol _ Hc) as [Hh Hna].
    pose proof (col_all_elem _ _ _ _ (run_cohort _ _ Hh Hd) Hir) as [?|?];
      [done|]. done.
Qed.

Lemma NoDup_fst_eq {A} (l : list (Z * A)) i x y :
  NoDup (fmap fst l) -> (i, x) ∈ l -> (i, y) ∈ l -> x = y.
Proof.
  induction l as [|[j z] l IH]; simpl; [by intros _ ?%elem_of_nil|].
  intros [Hj Hnd]%NoDup_cons [Hx|Hx]%elem_of_cons [Hy|Hy]%elem_of_cons.
  - congruence.
  - injection Hx as -> ->. destruct Hj. apply list_elem_of_fmap.
    by exists (j, y).
  - injection Hy as -> ->. destruct Hj. apply list_elem_of_fmap.
    by exists (j, x).
  - by apply IH.
Qed.

(** A record with a missing cell after the steps does not appear in the
    result. *)
Lemma dropped_not_in d i r :
  NoDup (fmap fst (rows d)) -> (i, r) ∈ rows d -> complete (columns d) r = false ->
  i ∉ fmap fst (rows (dropna d)).
Proof.
  intros Hnd Hir Hinc ([j r'] & Hj & Hin)%list_elem_of_fmap. simpl in Hj. subst j.
  apply elem_of_dropna in Hin as [Hcomp Hin]. simpl in Hcomp.
  rewrite (NoDup_fst_eq _ _ _ _ Hnd Hir Hin) in Hinc. congruence.
Qed.

End CleanDf.

Section StudentId.
Context `{L : PyLib}.

Lemma Qred_inject_Z z : Qred (inject_Z z) = inject_Z z.
Proof. apply Qred_identity. simpl. apply Z.gcd_1_r. Qed.

Lemma astype_Int64_small z :
  (0 <= z <= 999)%Z -> astype_Int64 (Some (inject_Z z)) = Ok (VInt z).
Proof.
  intros Hz. unfold astype_Int64. rewrite Qred_inject_Z. simpl.
  unfold int64_min, int64_max.
  destruct (Z.leb_spec (- 2 ^ 63) z); [|lia].
  destruct (Z.leb_spec z (2 ^ 63 - 1)); [done|lia].
Qed.

Lemma four_digits_not_null s :
  fullmatch re_student_id s = true -> replace_null (VStr s) = VStr s.
Proof.
  intros Hm. unfold replace_null. case_bool_decide as Hs; [|done].
  unfold SPECIAL_NULLS in Hs.
  repeat (apply elem_of_cons in Hs as [->|Hs]); try done.
  by apply elem_of_nil in Hs.
Qed.

(** A four-digit identifier that starts with [0] is missing after the
    validation step, in every row that carries the label of its record. *)
Lemma leading_zero_missing df d i r s :
  parses_digits ->
  clean_steps df = Ok d -> "StudentID" ∈ columns df ->
  NoDup (fmap fst (rows df)) -> (i, r) ∈ rows df ->
  get "StudentID" r = VStr s -> fullmatch re_student_id s = true ->
  (exists t, s = String "0"%char t) ->
  forall r', (i, r') ∈ rows d -> get "StudentID" r' = NA.
Proof.
  intros Hparse Hd Hc Hnd Hir Hget Hm Hzero r' Hr'.
  rewrite clean_steps_run in Hd.
  pose proof (leading_zero_value s Hm Hzero) as Hval.
  destruct (fullmatch_digits_all s Hm) as (Hdig & Hne & Hlen).
  set (value := digits_value 0 s) in *.
  assert (col_all (fun j v => j = i -> v = NA) "StudentID" d) as Hall.
  { eapply (two_hits 7 1 "StudentID"
              (fun j v => j = i -> v = VStr s)
              (fun j v => j = i -> v = VInt value));
      [done | done | done | done | | | | | | | | exact Hd].
    - unfold clean_pipeline; simpl; repeat constructor; simpl; discriminate.
    - unfold clean_pipeline; simpl; repeat constructor; simpl; discriminate.
    - unfold clean_pipeline; simpl; repeat constructor; simpl; discriminate.
    - intros d1 d2. apply coerce_int_step. intros j v v' Hv Hcast Hj.
      rewrite (Hv Hj) in Hcast. simpl in Hcast.
      rewrite (Hparse s Hne Hdig Hlen) in Hcast.
      rewrite astype_Int64_small in Hcast by done. by injection Hcast as <-.
    - intros d1 d2. apply validate_student_id_step. intros j v Hv Hj.
      rewrite (Hv Hj). unfold student_id_cell. cbn [astype_str].
      destruct (fullmatch re_student_id (str_of_Z value)) eqn:Hf; [|done].
      apply str_of_Z_four_digits in Hf. lia.
    - rewrite replace_special_nulls_has_col. by apply has_col_elem.
    - unfold col_all, replace_special_nulls. simpl. rewrite Forall_fmap.
      apply Forall_forall. intros [j r0] Hr0 Hj. simpl in *. subst j.
      rewrite (NoDup_fst_eq _ _ _ _ Hnd Hr0 Hir), get_replace_null, Hget.
      by apply four_digits_not_null. }
  by apply (col_all_elem _ _ _ _ Hall Hr').
Qed.

End StudentId.

(** ** Imputation, row by row *)

Section Imputation.
Context `{L : PyLib}.

Lemma assign_lookup c f d n i r :
  rows d !! n = Some (i, r) -> rows (assign c f d) !! n = Some (i, <[c := f r]> r).
Proof. intros H. unfold assign. simpl. by rewrite list_lookup_fmap, H. Qed.

Lemma omap_cons {A B} (f : A -> option B) x l :
  omap f (x :: l) = match f x with Some y => y :: omap f l | None => omap f l end.
Proof. done. Qed.

Lemma omap_pointwise {A B} (f g : A -> option B) (l : list A) :
  (forall x, f x = g x) -> omap f l = omap g l.
Proof.
  intros H. induction l as [|x l IH]; [done|].
  by rewrite !omap_cons, H, IH.
Qed.

Lemma omap_group_assign {B} (g : cell -> option B) c f k (rs : list (Z * row)) :
  c <> "Track" ->
  omap (fun ir : Z * row => g (get c ir.2))
    (group_rows "Track" k
       (fmap (fun ir : Z * row => (ir.1, <[c := f ir.2]> ir.2)) rs))
  = omap (fun ir : Z * row => g (f ir.2)) (group_rows "Track" k rs).
Proof.
  intros Hne. unfold group_rows.
  induction rs as [|[i r] rs IH]; [done|].
  rewrite fmap_cons. cbn [fst snd].
  destruct (decide (get "Track" r = k)) as [Hk|Hk].
  - rewrite (filter_cons_True _ (i, r)) by done.
    rewrite filter_cons_True by (cbn [fst snd]; by rewrite get_insert_ne).
    rewrite !omap_cons, IH. cbn [fst snd]. by rewrite get_insert_eq.
  - rewrite (filter_cons_False _ (i, r)) by done.
    rewrite filter_cons_False by (cbn [fst snd]; by rewrite get_insert_ne).
    done.
Qed.

Lemma omap_group_rows_assign {B} (g : cell -> option B) c f k d :
  c <> "Track" ->
  omap (fun ir : Z * row => g (get c ir.2))
    (group_rows "Track" k (rows (assign c f d)))
  = omap (fun ir : Z * row => g (f ir.2)) (group_rows "Track" k (rows d)).
Proof. apply omap_group_assign. Qed.

Lemma valid_score_cell v : as_float (score_cell v) = valid_score v.
Proof.
  unfold score_cell, valid_score. destruct (to_numeric v) as [q|]; [|done].
  simpl. unfold out_of_range.
  destruct (Qle_bool 0 q), (Qle_bool q 100); done.
Qed.

Lemma score_cell_missing v : valid_score v = None -> score_cell v = NA.
Proof.
  rewrite <- valid_score_cell. destruct (score_cell_ok v) as [->|(q & -> & _)]; done.
Qed.

Lemma score_cell_valid v q : valid_score v = Some q -> score_cell v = VFloat q.
Proof.
  rewrite <- valid_score_cell.
  destruct (score_cell_ok v) as [->|(q' & -> & _)]; [done|]. by intros [= ->].
Qed.

Lemma score_cols_not_track c : c ∈ score_cols -> c <> "Track".
Proof.
  unfold score_cols. intros Hc ->.
  repeat (apply elem_of_cons in Hc as [Hc|Hc]; [discriminate|]).
  by apply elem_of_nil in Hc.
Qed.

Lemma boolean_cols_not_track c : c ∈ boolean_cols -> c <> "Track".
Proof.
  unfold boolean_cols. intros Hc ->.
  repeat (apply elem_of_cons in Hc as [Hc|Hc]; [discriminate|]).
  by apply elem_of_nil in Hc.
Qed.

(** The cell that [clean_score] leaves in each row. *)
Lemma clean_score_cell c df out n i r :
  c ∈ score_cols -> c ∈ columns df -> clean_score c df = Ok out ->
  rows df !! n = Some (i, r) ->
  exists r', rows out !! n = Some (i, r') /\
    (forall c', c' <> c -> get c' r' = get c' r) /\
    get c r' =
      fillna (score_cell (get c r))
        (match get "Track" r with
         | NA => NA
         | k => of_float (round1 <$>
                  mean (omap (fun ir : Z * row => valid_score (get c ir.2))
                          (group_rows "Track" k (rows df))))
         end).
Proof.
  intros Hs Hc Hclean Hn. apply has_col_elem in Hc.
  destruct (clean_score_Ok _ _ _ Hc Hclean) as [_ ->].
  pose proof (score_cols_not_track c Hs) as Hne.
  eexists. split.
  { apply assign_lookup, assign_lookup, Hn. }
  split.
  { intros c' Hc'. by rewrite !get_insert_ne. }
  rewrite !get_insert_eq. f_equal.
  unfold transform_mean. rewrite get_insert_ne by done.
  assert (forall k, omap (fun ir : Z * row => as_float (get c ir.2))
            (group_rows "Track" k
               (rows (assign c (fun r0 => score_cell (get c r0)) df)))
          = omap (fun ir : Z * row => valid_score (get c ir.2))
              (group_rows "Track" k (rows df))) as Hg.
  { intros k. rewrite omap_group_rows_assign by done.
    apply omap_pointwise. intros ir. apply valid_score_cell. }
  destruct (get "Track" r); [done|..]; by rewrite Hg.
Qed.

(** The cell that [clean_bool] leaves in each row. *)
Lemma clean_bool_cell c df out n i r :
  c ∈ boolean_cols -> c ∈ columns df -> clean_bool c df = Ok out ->
  rows df !! n = Some (i, r) ->
  exists r', rows out !! n = Some (i, r') /\
    (forall c', c' <> c -> get c' r' = get c' r) /\
    get c r' =
      fillna (decode_bool (get c r))
        (match get "Track" r with
         | NA => NA
         | k => first_mode
                  (omap (fun ir : Z * row => as_bool (decode_bool (get c ir.2)))
                     (group_rows "Track" k (rows df)))
         end).
Proof.
  intros Hs Hc Hclean Hn. apply has_col_elem in Hc.
  destruct (clean_bool_Ok _ _ _ Hc Hclean) as [_ ->].
  pose proof (boolean_cols_not_track c Hs) as Hne.
  eexists. split.
  { apply assign_lookup, assign_lookup, Hn. }
  split.
  { intros c' Hc'. by rewrite !get_insert_ne. }
  rewrite !get_insert_eq. f_equal.
  unfold transform_mode. rewrite get_insert_ne by done.
  assert (forall k, omap (fun ir : Z * row => as_bool (get c ir.2))
            (group_rows "Track" k (rows (decode_bools c df)))
          = omap (fun ir : Z * row => as_bool (decode_bool (get c ir.2)))
              (group_rows "Track" k (rows df))) as Hg.
  { intros k. unfold decode_bools. by rewrite omap_group_rows_assign. }
  destruct (get "Track" r); [done|..]; by rewrite Hg.
Qed.

Lemma mean_nil_iff (l : list Q) : mean l = None <-> l = [].
Proof. by destruct l. Qed.

(** [mean] is the sum over the count. *)
Lemma mean_spec (l : list Q) m :
  mean l = Some m -> (m == Qsum l / inject_Z (Z.of_nat (length l)))%Q.
Proof. destruct l; [done|]. intros [= <-]. apply Qred_correct. Qed.

Lemma count_occ_bool_total (l : list bool) :
  (count_occ_bool true l + count_occ_bool false l = length l)%nat.
Proof.
  unfold count_occ_bool. induction l as [|[] l IH]; simpl; [done| |];
    rewrite !filter_cons; simpl; lia.
Qed.

Lemma first_mode_cases (l : list bool) :
  (l = [] -> first_mode l = NA) /\
  (count_occ_bool false l < count_occ_bool true l -> first_mode l = VBool true)%nat /\
  (l <> [] -> count_occ_bool true l <= count_occ_bool false l ->
   first_mode l = VBool false)%nat.
Proof.
  pose proof (count_occ_bool_total l) as Ht.
  unfold first_mode, mode. split; [by intros ->|]. split.
  - intros Hlt.
    destruct (Nat.eqb_spec (count_occ_bool false l) 0),
      (Nat.eqb_spec (count_occ_bool true l) 0); simpl; try lia;
      destruct (Nat.ltb_spec (count_occ_bool true l) (count_occ_bool false l));
      try lia;
      destruct (Nat.ltb_spec (count_occ_bool false l) (count_occ_bool true l));
      try lia; done.
  - intros Hne Hle.
    assert (length l <> 0)%nat by (by destruct l).
    destruct (Nat.eqb_spec (count_occ_bool false l) 0),
      (Nat.eqb_spec (count_occ_bool true l) 0); simpl; try lia;
      destruct (Nat.ltb_spec (count_occ_bool true l) (count_occ_bool false l));
      try lia; try done;
      destruct (Nat.ltb_spec (count_occ_bool false l) (count_occ_bool true l));
      try lia; done.
Qed.

End Imputation.

(** ** Two runs of the pipeline *)

Section TwoRuns.
Context `{L : PyLib}.

Lemma run_steps_preserves Rel steps d1 d2 d1' d2' :
  Forall (step_preserves Rel) steps -> Rel d1 d2 ->
  run_steps steps d1 = Ok d1' -> run_steps steps d2 = Ok d2' -> Rel d1' d2'.
Proof.
  intros Hs. revert d1 d2. induction Hs as [|s steps Hs _ IH]; intros d1 d2 HR.
  - by intros ->%run_steps_nil ->%run_steps_nil.
  - rewrite !run_steps_cons.
    intros (e1 & H1 & Hr1)%bind_Ok (e2 & H2 & Hr2)%bind_Ok.
    eapply IH; [|done|done]. by eapply Hs.
Qed.

Lemma frames_rel_has_col R c d1 d2 :
  frames_rel R d1 d2 -> has_col c d1 = has_col c d2.
Proof. intros [Hc _]. unfold has_col. by rewrite Hc. Qed.

(** Assignments that agree on related rows keep the frames related. *)
Lemma assign_frames_rel (R R' : row -> row -> Prop) c f1 f2 d1 d2 :
  frames_rel R d1 d2 ->
  (forall r1 r2, R r1 r2 -> R' (<[c := f1 r1]> r1) (<[c := f2 r2]> r2)) ->
  frames_rel R' (assign c f1 d1) (assign c f2 d2).
Proof.
  intros HR Hf. pose proof (frames_rel_has_col _ c _ _ HR) as Hc.
  destruct HR as [Hcols Hrows]. split.
  - unfold assign. simpl. by rewrite Hc, Hcols.
  - unfold assign. simpl. apply Forall2_fmap.
    eapply Forall2_impl; [done|]. intros [i1 r1] [i2 r2] [Hi Hr]. simpl in *.
    split; [done|]. by apply Hf.
Qed.

Lemma guarded_pure_preserves (R : row -> row -> Prop) c
    (f : DataFrame -> row -> cell) :
  (forall d1 d2 r1 r2, frames_rel R d1 d2 -> R r1 r2 ->
     R (<[c := f d1 r1]> r1) (<[c := f d2 r2]> r2)) ->
  step_preserves (frames_rel R) (pure_step c (fun d => assign c (f d) d)).
Proof.
  intros Hf d1 d2 d1' d2' HR. rewrite !guarded_pure. unfold if_col.
  rewrite (frames_rel_has_col _ c _ _ HR).
  destruct (has_col c d2); intros [= <-] [= <-]; [|done].
  apply (assign_frames_rel R R); [done|]. intros r1 r2. by apply Hf.
Qed.

Lemma rel_raw_insert A c v1 v2 r1 r2 :
  c <> "Track" -> rel_raw A r1 r2 -> (r1 = r2 -> v1 = v2) ->
  rel_raw A (<[c := v1]> r1) (<[c := v2]> r2).
Proof.
  intros Hne [->|[H1 H2]] Hv.
  - left. by rewrite Hv.
  - right. by rewrite !get_insert_ne.
Qed.

Lemma rel_norm_insert A c v1 v2 r1 r2 :
  c <> "Track" -> rel_norm A r1 r2 ->
  (r1 = r2 -> get "Track" r1 <> VStr A -> v1 = v2) ->
  rel_norm A (<[c := v1]> r1) (<[c := v2]> r2).
Proof.
  intros Hne [Ht Hr] Hv. split; rewrite !get_insert_ne by done; [done|].
  intros HA. specialize (Hr HA). subst r2. by rewrite Hv.
Qed.

(** The groups outside track [A] are the same in both runs. *)
Lemma group_rows_agree A k d1 d2 :
  frames_rel (rel_norm A) d1 d2 -> k <> VStr A ->
  group_rows "Track" k (rows d1) = group_rows "Track" k (rows d2).
Proof.
  intros [_ Hrows] Hk. unfold group_rows.
  induction Hrows as [|[i1 r1] [i2 r2] l1 l2 [Hi [Ht Hr]] _ IH]; [done|].
  simpl in *. subst i2. rewrite !filter_cons. simpl. rewrite <- Ht, IH.
  destruct (decide (get "Track" r1 = k)) as [Hk1|]; [|done].
  rewrite Hr; [done|]. by rewrite Hk1.
Qed.

Lemma transform_mean_agree A c d1 d2 r :
  frames_rel (rel_norm A) d1 d2 -> get "Track" r <> VStr A ->
  transform_mean c d1 r = transform_mean c d2 r.
Proof.
  intros HR Hr. unfold transform_mean.
  destruct (get "Track" r) eqn:Hk; [done|..];
    by rewrite (group_rows_agree A _ d1 d2 HR).
Qed.

Lemma transform_mode_agree A c d1 d2 r :
  frames_rel (rel_norm A) d1 d2 -> get "Track" r <> VStr A ->
  transform_mode c d1 r = transform_mode c d2 r.
Proof.
  intros HR Hr. unfold transform_mode.
  destruct (get "Track" r) eqn:Hk; [done|..];
    by rewrite (group_rows_agree A _ d1 d2 HR).
Qed.

(** *** The steps *)

Lemma normalize_str_raw A c :
  c <> "Track" -> step_preserves (frames_rel (rel_raw A)) (pure_step c (normalize_str c)).
Proof.
  intros Hne. apply (guarded_pure_preserves _ c (fun _ r => normalize_cell (get c r))).
  intros d1 d2 r1 r2 _ Hr. apply rel_raw_insert; [done|done|]. by intros ->.
Qed.

Lemma normalize_track_norm A :
  forall d1 d2 d1' d2',
    has_col "Track" d1 = true ->
    frames_rel (rel_raw A) d1 d2 ->
    guarded (pure_step "Track" (normalize_str "Track")) d1 = Ok d1' ->
    guarded (pure_step "Track" (normalize_str "Track")) d2 = Ok d2' ->
    frames_rel (rel_norm A) d1' d2'.
Proof.
  intros d1 d2 d1' d2' Hc HR. rewrite !guarded_pure. unfold if_col.
  rewrite <- (frames_rel_has_col _ "Track" _ _ HR), Hc. intros [= <-] [= <-].
  apply (assign_frames_rel (rel_raw A)); [done|].
  intros r1 r2 [->|[H1 H2]]; split; rewrite ?get_insert_eq; try done.
  by rewrite H1, H2.
Qed.

Lemma local_step_norm A c (g : cell -> cell) :
  c <> "Track" ->
  step_preserves (frames_rel (rel_norm A))
    (pure_step c (fun d => assign c (fun r => g (get c r)) d)).
Proof.
  intros Hne. apply (guarded_pure_preserves _ c (fun _ r => g (get c r))).
  intros d1 d2 r1 r2 _ Hr. apply rel_norm_insert; [done|done|]. by intros ->.
Qed.

Lemma coerce_int_norm A c :
  c <> "Track" -> step_preserves (frames_rel (rel_norm A)) (c, coerce_int c).
Proof.
  intros Hne d1 d2 d1' d2' HR. unfold guarded. simpl.
  rewrite (frames_rel_has_col _ c _ _ HR).
  destruct (has_col c d2); [|by intros [= <-] [= <-]].
  intros [-> _]%assignR_Ok [-> _]%assignR_Ok.
  apply (assign_frames_rel (rel_norm A)); [done|].
  intros r1 r2 Hr. apply rel_norm_insert; [done|done|]. by intros ->.
Qed.

Lemma clean_score_norm A c :
  c <> "Track" -> step_preserves (frames_rel (rel_norm A)) (c, clean_score c).
Proof.
  intros Hne d1 d2 d1' d2' HR. unfold guarded. simpl.
  pose proof (frames_rel_has_col _ c _ _ HR) as Hc. rewrite Hc.
  destruct (has_col c d2) eqn:Hc2; [|by intros [= <-] [= <-]].
  intros [_ ->]%clean_score_Ok [_ ->]%clean_score_Ok; [|done..].
  assert (frames_rel (rel_norm A)
            (assign c (fun r => score_cell (get c r)) d1)
            (assign c (fun r => score_cell (get c r)) d2)) as HR2.
  { apply (assign_frames_rel (rel_norm A)); [done|].
    intros r1 r2 Hr. apply rel_norm_insert; [done|done|]. by intros ->. }
  apply (assign_frames_rel (rel_norm A)); [done|].
  intros r1 r2 Hr. apply rel_norm_insert; [done|done|].
  intros -> HA. by rewrite (transform_mean_agree A c _ _ r2 HR2).
Qed.

Lemma clean_bool_norm A c :
  c <> "Track" -> step_preserves (frames_rel (rel_norm A)) (c, clean_bool c).
Proof.
  intros Hne d1 d2 d1' d2' HR. unfold guarded. simpl.
  pose proof (frames_rel_has_col _ c _ _ HR) as Hc. rewrite Hc.
  destruct (has_col c d2) eqn:Hc2; [|by intros [= <-] [= <-]].
  intros [_ ->]%clean_bool_Ok [_ ->]%clean_bool_Ok; [|done..].
  assert (frames_rel (rel_norm A) (decode_bools c d1) (decode_bools c d2)) as HR2.
  { apply (assign_frames_rel (rel_norm A)); [done|].
    intros r1 r2 Hr. apply rel_norm_insert; [done|done|]. by intros ->. }
  apply (assign_frames_rel (rel_norm A)); [done|].
  intros r1 r2 Hr. apply rel_norm_insert; [done|done|].
  intros -> HA. by rewrite (transform_mode_agree A c _ _ r2 HR2).
Qed.

Lemma pipeline_before_track A :
  Forall (step_preserves (frames_rel (rel_raw A))) (take 4 clean_pipeline).
Proof.
  unfold clean_pipeline. simpl.
  repeat (first [apply Forall_nil_2 | apply Forall_cons_2]);
    by apply normalize_str_raw.
Qed.

Lemma pipeline_after_track A :
  Forall (step_preserves (frames_rel (rel_norm A))) (drop 5 clean_pipeline).
Proof.
  unfold clean_pipeline. simpl.
  repeat (first [apply Forall_nil_2 | apply Forall_cons_2]);
    first [ by apply (local_step_norm A _ (validate_cell _))
          | by apply coerce_int_norm
          | by apply (local_step_norm A _ student_id_cell)
          | by apply (local_step_norm A _ term_cell)
          | by apply clean_score_norm
          | by apply clean_bool_norm ].
Qed.

Lemma replace_special_nulls_raw A df1 df2 :
  differ_within_track A df1 df2 ->
  frames_rel (rel_raw A) (replace_special_nulls df1) (replace_special_nulls df2).
Proof.
  intros [Hc Hrows]. split; [done|]. unfold replace_special_nulls. simpl.
  apply Forall2_fmap. eapply Forall2_impl; [done|].
  intros [i1 r1] [i2 r2] [Hi Hr]. simpl in *. split; [done|].
  destruct Hr as [->|[H1 H2]]; [by left|]. right.
  by rewrite !get_replace_null.
Qed.

Lemma clean_steps_agree A df1 df2 d1 d2 :
  "Track" ∈ columns df1 -> differ_within_track A df1 df2 ->
  clean_steps df1 = Ok d1 -> clean_steps df2 = Ok d2 ->
  frames_rel (rel_norm A) d1 d2.
Proof.
  intros Ht Hdiff. rewrite !clean_steps_run.
  assert (clean_pipeline !! 4%nat
          = Some (pure_step "Track" (normalize_str "Track"))) as H4 by done.
  rewrite <- (take_drop_middle _ _ _ H4), !run_steps_app.
  intros (a1 & Ha1 & Hr1)%bind_Ok (a2 & Ha2 & Hr2)%bind_Ok.
  rewrite run_steps_cons in Hr1, Hr2.
  apply bind_Ok in Hr1 as (b1 & Hb1 & Hr1). apply bind_Ok in Hr2 as (b2 & Hb2 & Hr2).
  pose proof (replace_special_nulls_raw A _ _ Hdiff) as HR0.
  pose proof (run_steps_preserves _ _ _ _ _ _ (pipeline_before_track A) HR0 Ha1 Ha2)
    as HRa.
  assert (has_col "Track" a1 = true) as Hca.
  { assert (Forall writes (take 4 clean_pipeline)) as Hw
      by apply Forall_take, writes_pipeline.
    destruct (run_steps_writes _ _ _ Hw Ha1) as (Hc & _).
    rewrite (has_col_columns _ _ _ Hc). by apply has_col_elem. }
  pose proof (normalize_track_norm A _ _ _ _ Hca HRa Hb1 Hb2) as HRb.
  exact (run_steps_preserves _ _ _ _ _ _ (pipeline_after_track A) HRb Hr1 Hr2).
Qed.

Lemma dropna_agree A d1 d2 :
  frames_rel (rel_norm A) d1 d2 ->
  rows_off_track A (dropna d1) = rows_off_track A (dropna d2).
Proof.
  intros [Hc Hrows]. unfold rows_off_track, dropna. simpl. rewrite Hc.
  induction Hrows as [|[i1 r1] [i2 r2] l1 l2 [Hi [Ht Hr]] _ IH]; [done|].
  simpl in *. subst i2.
  destruct (decide (get "Track" r1 = VStr A)) as [HA|HA].
  - rewrite (filter_cons _ (i1, r1)), (filter_cons _ (i1, r2)). simpl.
    destruct (decide (complete (columns d2) r1 = true)),
      (decide (complete (columns d2) r2 = true));
      rewrite ?filter_cons_False; simpl; try done; by rewrite <- ?Ht, ?HA; auto.
  - rewrite <- (Hr HA).
    rewrite (filter_cons _ (i1, r1)), (filter_cons _ (i1, r1)). simpl.
    destruct (decide (complete (columns d2) r1 = true)); [|done].
    rewrite !filter_cons_True by done. by rewrite IH.
Qed.

End TwoRuns.

(** ** Absent columns *)

Section Absent.
Context `{L : PyLib}.

Lemma mapR_not_KeyError {A B} (f : A -> result B) l c :
  (forall x, f x <> Raise (KeyError c)) -> mapR f l <> Raise (KeyError c).
Proof.
  intros Hf. induction l as [|x l IH]; simpl; [done|].
  destruct (f x) eqn:Hx; simpl; [|by intros [= ->]; eapply Hf].
  destruct (mapR f l); simpl; [done|]. intros [= ->]. by apply IH.
Qed.

Lemma astype_Int64_not_KeyError x c : astype_Int64 x <> Raise (KeyError c).
Proof. unfold astype_Int64. destruct x; [|done]. by destruct (_ && _). Qed.

Lemma coerce_int_not_KeyError c0 d c : coerce_int c0 d <> Raise (KeyError c).
Proof.
  unfold coerce_int, assignR.
  destruct (mapR _ (rows d)) eqn:Hm; simpl; [done|]. intros [= ->].
  revert Hm. apply mapR_not_KeyError. intros [i r]. simpl.
  destruct (astype_Int64 _) eqn:Hx; simpl; [done|].
  intros [= ->]. by eapply astype_Int64_not_KeyError.
Qed.

Lemma clean_score_not_KeyError c0 d c :
  has_col c0 d = true -> has_col "Track" d = true ->
  clean_score c0 d <> Raise (KeyError c).
Proof.
  intros Hc Ht. unfold clean_score, impute_score, range_filter, coerce_score.
  rewrite !assign_has_col; [by rewrite Ht | done | by rewrite assign_has_col].
Qed.

Lemma clean_bool_not_KeyError c0 d c :
  has_col c0 d = true -> has_col "Track" d = true ->
  clean_bool c0 d <> Raise (KeyError c).
Proof.
  intros Hc Ht. unfold clean_bool, impute_bool, decode_bools.
  rewrite !assign_has_col; [by rewrite Ht | done].
Qed.

Lemma run_steps_not_KeyError steps d c :
  Forall writes steps -> Forall no_key_error steps ->
  has_col "Track" d = true -> run_steps steps d <> Raise (KeyError c).
Proof.
  intros Hw Hk. revert d. induction Hw as [|s steps Hs Hw IH]; intros d Ht; [done|].
  apply Forall_cons in Hk as [Hk Hks]. rewrite run_steps_cons.
  destruct (guarded s d) as [d1|e] eqn:Hg; simpl.
  - apply IH; [done|].
    destruct (guarded_writes _ _ _ Hs Hg) as (Hc & _).
    by rewrite (has_col_columns _ _ _ Hc).
  - intros [= ->]. unfold guarded in Hg.
    destruct (has_col s.1 d) eqn:Hc; [|done]. by eapply Hk.
Qed.

Lemma pipeline_no_key_error : Forall no_key_error clean_pipeline.
Proof.
  unfold clean_pipeline. simpl.
  repeat (first [apply Forall_nil_2 | apply Forall_cons_2]);
    intros d c Hc Ht; simpl in *;
    first [ done
          | apply coerce_int_not_KeyError
          | by apply clean_score_not_KeyError
          | by apply clean_bool_not_KeyError ].
Qed.

Lemma clean_df_not_KeyError df c :
  "Track" ∈ columns df -> clean_df df <> Raise (KeyError c).
Proof.
  intros Ht. unfold clean_df. rewrite clean_steps_run.
  destruct (run_steps _ _) eqn:Hr; simpl; [done|]. intros [= ->].
  revert Hr. apply run_steps_not_KeyError;
    [apply writes_pipeline | apply pipeline_no_key_error |].
  rewrite replace_special_nulls_has_col. by apply has_col_elem.
Qed.

Lemma drop_duplicates_not_KeyError df c :
  "Track" ∈ columns df -> drop_duplicates df <> Raise (KeyError c).
Proof.
  intros Ht%has_col_elem. unfold drop_duplicates.
  destruct (_ && _); [|done].
  assert (has_col "Track" (sort_index df) = true) as -> by done. done.
Qed.

End Absent.

Lemma group_means_absent key cs df c :
  key ∈ columns df -> c ∈ cs -> c ∉ columns df ->
  exists c', c' ∈ cs /\ (c' ∉ columns df)
             /\ (group_means key cs df = Raise (KeyError c')).
Proof.
  intros Hk Hc Hna. unfold group_means, groupby.
  apply has_col_elem in Hk. rewrite Hk. simpl.
  destruct (filter (fun c0 : string => (c0 ∉ columns df)) cs) as [|c' l] eqn:Hf.
  - exfalso. eapply (filter_nil_not_elem_of (fun c0 : string => (c0 ∉ columns df))); done.
  - exists c'. assert (c' ∈ filter (fun c0 : string => (c0 ∉ columns df)) cs) as Hin.
    { rewrite Hf. apply list_elem_of_here. }
    apply list_elem_of_filter in Hin as [? ?]. done.
Qed.

Lemma pass_rate_absent key name df :
  key ∈ columns df -> "Passed (Y/N)" ∉ columns df ->
  GroupStatistics.pass_rate key name df = Raise (KeyError "Passed (Y/N)").
Proof.
  intros Hk Hna. unfold GroupStatistics.pass_rate.
  destruct (group_means_absent key ["Passed (Y/N)"] df "Passed (Y/N)")
    as (c' & Hc' & _ & ->); [done | apply list_elem_of_here | done |].
  by apply list_elem_of_singleton in Hc' as ->.
Qed.

(** ** Order of group keys *)

Lemma ascii_compare_lt_trans a b c :
  Ascii.compare a b = Lt -> Ascii.compare b c = Lt -> Ascii.compare a c = Lt.
Proof.
  unfold Ascii.compare. rewrite !N.compare_lt_iff. apply N.lt_trans.
Qed.

Lemma string_compare_lt_trans s1 : forall s2 s3,
  String.compare s1 s2 = Lt -> String.compare s2 s3 = Lt ->
  String.compare s1 s3 = Lt.
Proof.
  induction s1 as [|a s1 IH]; intros [|b s2] [|c s3]; simpl; try done.
  destruct (Ascii.compare a b) eqn:Hab; [|intros _|done].
  - apply Ascii.compare_eq_iff in Hab as ->.
    destruct (Ascii.compare b c); [apply IH | done | done].
  - destruct (Ascii.compare b c) eqn:Hbc; [|intros _|done].
    + apply Ascii.compare_eq_iff in Hbc as <-. by rewrite Hab.
    + by rewrite (ascii_compare_lt_trans a b c).
Qed.

Global Instance key_lt_trans : Transitive key_lt.
Proof.
  intros [| s | ? | ? |bx] [| t | ? | ? |by'] [| u | ? | ? |bz]; simpl; try done.
  - unfold String.ltb. intros H1 H2.
    destruct (String.compare s t) eqn:E1; try done.
    destruct (String.compare t u) eqn:E2; try done.
    by rewrite (string_compare_lt_trans s t u).
  - intros [-> _] [_ ->]. done.
Qed.



(** *** Distinct values, sorted *)

Lemma elem_of_unique x l : x ∈ unique l <-> x ∈ l.
Proof.
  induction l as [|y l IH]; simpl; [done|].
  rewrite !elem_of_cons, list_elem_of_filter, IH.
  destruct (decide (x = y)); naive_solver.
Qed.

Lemma NoDup_unique l : NoDup (unique l).
Proof.
  induction l as [|y l IH]; simpl; [constructor|].
  constructor.
  - rewrite list_elem_of_filter. naive_solver.
  - by apply NoDup_filter.
Qed.



(** ** The keys and the counts of the summary tables *)

Lemma fmap_Ok {A B} (f : A -> B) (m : result A) (b : B) :
  f <$> m = Ok b <-> exists a, m = Ok a /\ b = f a.
Proof.
  destruct m as [a|e]; simpl; split.
  - intros [= <-]. eauto.
  - by intros (a' & [= <-] & ->).
  - done.
  - by intros (a' & [=] & _).
Qed.

Lemma mapR_keys {A B} (f : A -> result (cell * B)) (key : A -> cell) l l' :
  (forall x y, f x = Ok y -> y.1 = key x) ->
  mapR f l = Ok l' -> fmap fst l' = fmap key l.
Proof.
  intros Hf Hm%mapR_Ok. induction Hm as [|x y l l' Hxy _ IH]; [done|].
  rewrite !fmap_cons, IH. f_equal. by apply Hf.
Qed.

Lemma groupby_keys key drop_na df gs :
  groupby key drop_na df = Ok gs -> fmap fst gs = group_keys key drop_na df.
Proof.
  unfold groupby. destruct (has_col key df); [|done]. intros [= <-].
  rewrite <- list_fmap_compose. apply list_fmap_id.
Qed.

Lemma groupby_has_col key drop_na df gs :
  groupby key drop_na df = Ok gs -> key ∈ columns df.
Proof.
  unfold groupby. destruct (has_col key df) eqn:Hc; [|done].
  intros _. by apply has_col_elem.
Qed.

Lemma group_means_keys key cs df t :
  group_means key cs df = Ok t ->
  key ∈ columns df /\ fmap fst (body t) = group_keys key true df.
Proof.
  unfold group_means. intros (gs & Hgs & Ht)%bind_Ok.
  split; [by eapply groupby_has_col|].
  destruct (filter _ cs); [|done].
  apply bind_Ok in Ht as (b & Hb & [= <-]). simpl.
  rewrite <- (groupby_keys _ _ _ _ Hgs).
  eapply mapR_keys; [|done]. intros [k g] y Hy. simpl in Hy.
  apply bind_Ok in Hy as (vs & _ & [= <-]). done.
Qed.



Lemma corr_keys df rs :
  TrackStatistics.corr_attendance_project df = Ok rs ->
  "Track" ∈ columns df /\
  fmap fst (body (round_corr rs)) = group_keys "Track" false df.
Proof.
  unfold TrackStatistics.corr_attendance_project.
  intros (gs & Hgs & Hm)%bind_Ok. split; [by eapply groupby_has_col|].
  unfold round_corr. simpl. rewrite <- list_fmap_compose.
  rewrite <- (groupby_keys _ _ _ _ Hgs).
  change (fst ∘ _) with (@fst cell (option surd)).
  eapply mapR_keys; [|done]. intros [k g] y Hy. simpl in Hy.
  destruct (filter _ _); [|done].
  apply bind_Ok in Hy as (ps & _ & [= <-]). done.
Qed.

Lemma Forall_filter_keep {A} (P Q : A -> Prop) `{!forall x, Decision (Q x)} l :
  Forall P l -> Forall P (filter Q l).
Proof.
  rewrite !Forall_forall. intros HP x [_ Hx]%list_elem_of_filter. by apply HP.
Qed.





(** *** The key columns of a cleaned frame *)

Lemma drop_duplicates_elem d df ir :
  drop_duplicates d = Ok df -> ir ∈ rows df -> ir ∈ rows d.
Proof.
  unfold drop_duplicates. destruct (_ && _); [|by intros [= <-]].
  destruct (has_col "Track" _); [|done]. intros [= <-]. simpl.
  intros Hin. eapply elem_of_sublist in Hin; [|apply keep_first_sublist].
  by rewrite (sort_by_perm _ (rows d)) in Hin.
Qed.

Lemma cleaned_frame_cells `{L : PyLib} df :
  cleaned_frame df ->
  (forall key, key ∈ ["Track"; "Cohort"] -> key ∈ columns df -> text_keys key df) /\
  ("IncomeStudent" ∈ columns df -> bool_keys "IncomeStudent" df) /\
  (forall c, c ∈ score_cols -> c ∈ columns df ->
     Forall (fun ir : Z * row => exists q, get c ir.2 = VFloat q) (rows df)).
Proof.
  intros (raw & d & Hclean & Hdd).
  pose proof (drop_duplicates_columns _ _ Hdd) as Hcols.
  assert (forall ir, ir ∈ rows df -> ir ∈ rows d) as Hsub
    by (intros ir; by apply drop_duplicates_elem).
  split; [|split].
  - intros key Hkey Hc. unfold text_keys, key_column.
    rewrite Forall_fmap. apply Forall_forall. intros ir Hir. simpl.
    destruct (clean_df_cells _ _ _ Hclean (Hsub _ Hir))
      as (_ & _ & _ & Htext & _ & _ & _ & Hcohort).
    rewrite Hcols in Hc.
    apply elem_of_cons in Hkey as [->|Hkey].
    + apply Htext; [|done]. set_solver.
    + apply list_elem_of_singleton in Hkey as ->.
      destruct (Hcohort Hc) as (s & Hs & _). eauto.
  - intros Hc. unfold bool_keys, key_column.
    rewrite Forall_fmap. apply Forall_forall. intros ir Hir. simpl.
    destruct (clean_df_cells _ _ _ Hclean (Hsub _ Hir))
      as (_ & _ & Hbool & _).
    rewrite Hcols in Hc. apply Hbool; [|done]. set_solver.
  - intros c Hs Hc. apply Forall_forall. intros ir Hir.
    destruct (clean_df_cells _ _ _ Hclean (Hsub _ Hir)) as (_ & Hscore & _).
    rewrite Hcols in Hc. destruct (Hscore c Hs Hc) as (q & Hq & _). eauto.
Qed.

(** ** Correlation *)

Lemma round_sqrt_spec (t : Q) :
  (0 <= t)%Q ->
  (0 <= round_sqrt t)%Z /\
  (round_sqrt t = 0%Z \/
   ((inject_Z (round_sqrt t) - (1 # 2)) * (inject_Z (round_sqrt t) - (1 # 2))
    <= t)%Q) /\
  (t <= (inject_Z (round_sqrt t) + (1 # 2))
        * (inject_Z (round_sqrt t) + (1 # 2)))%Q.
Proof.
  intros Ht. unfold round_sqrt.
  set (m := Z.sqrt (Qfloor t)).
  assert (0 <= Qfloor t)%Z as Hf.
  { rewrite <- (Qfloor_Z 0). by apply Qfloor_resp_le. }
  pose proof (Z.sqrt_spec (Qfloor t) Hf) as [Hlo Hhi]. fold m in Hlo, Hhi.
  assert (0 <= m)%Z as Hm by apply Z.sqrt_nonneg.
  pose proof (Qfloor_le t) as Hfl. pose proof (Qlt_floor t) as Hfu.
  assert (inject_Z m * inject_Z m <= t)%Q as HLO.
  { rewrite <- inject_Z_mult. eapply Qle_trans; [|exact Hfl].
    by rewrite <- Zle_Qle. }
  assert (t <= (inject_Z m + 1) * (inject_Z m + 1))%Q as HHI.
  { apply Qlt_le_weak. eapply Qlt_le_trans; [exact Hfu|].
    change 1%Q with (inject_Z 1). rewrite <- !inject_Z_plus, <- inject_Z_mult.
    rewrite <- Zle_Qle. unfold Z.succ in Hhi. lia. }
  assert (0 <= inject_Z m)%Q as HM.
  { change 0%Q with (inject_Z 0). by rewrite <- Zle_Qle. }
  assert (m <> 0%Z -> 1 <= inject_Z m)%Q as HM1.
  { intros ?. change 1%Q with (inject_Z 1). rewrite <- Zle_Qle. lia. }
  destruct (Qcompare t _) eqn:Hc.
  - apply Qeq_alt in Hc. destruct (Z.even m).
    + split; [done|]. split; [|lra].
      destruct (decide (m = 0%Z)) as [?|Hne]; [by left|]. right.
      specialize (HM1 Hne). nra.
    + split; [lia|]. rewrite inject_Z_plus. change (inject_Z 1) with 1%Q.
      split; [right|]; nra.
  - apply Qlt_alt in Hc. split; [done|]. split; [|lra].
    destruct (decide (m = 0%Z)) as [?|Hne]; [by left|]. right.
    specialize (HM1 Hne). nra.
  - apply Qgt_alt in Hc. split; [lia|].
    rewrite inject_Z_plus. change (inject_Z 1) with 1%Q.
    split; [right|]; nra.
Qed.

Lemma Qsum_nonneg (l : list Q) :
  Forall (fun x => (0 <= x)%Q) l -> (0 <= Qsum l)%Q.
Proof.
  induction 1 as [|x l Hx _ IH]; simpl; [done|]. lra.
Qed.

Lemma sum_sq_dev_eq (xs : list Q) :
  sum_sq_dev xs =
  Qsum (fmap (fun x : Q =>
                ((x - Qsum xs / inject_Z (Z.of_nat (length xs)))
                 * (x - Qsum xs / inject_Z (Z.of_nat (length xs))))%Q) xs).
Proof.
  unfold sum_sq_dev, sum_dev_products.
  rewrite length_fmap, <- !list_fmap_compose.
  change (fmap (fst ∘ _) xs) with (fmap id xs).
  change (fmap (snd ∘ _) xs) with (fmap id xs).
  by rewrite list_fmap_id.
Qed.

Lemma sum_sq_dev_nonneg (xs : list Q) : (0 <= sum_sq_dev xs)%Q.
Proof.
  rewrite sum_sq_dev_eq. apply Qsum_nonneg, Forall_fmap, Forall_forall.
  intros x _. simpl.
  generalize (x - Qsum xs / inject_Z (Z.of_nat (length xs)))%Q. intros a. nra.
Qed.

Lemma sum_sq_dev_single (x : Q) : (sum_sq_dev [x] == 0)%Q.
Proof.
  rewrite sum_sq_dev_eq. simpl. change (inject_Z 1) with 1%Q. field.
Qed.

Lemma variance_zero (xs : list Q) :
  (2 <= length xs)%nat -> (variance xs == 0)%Q <-> (sum_sq_dev xs == 0)%Q.
Proof.
  intros Hn. unfold variance.
  assert (0 < inject_Z (Z.of_nat (length xs)) - 1)%Q as Hpos.
  { assert (inject_Z 2 <= inject_Z (Z.of_nat (length xs)))%Q as H2
      by (rewrite <- Zle_Qle; lia).
    change (inject_Z 2) with 2%Q in H2. lra. }
  set (n1 := (inject_Z (Z.of_nat (length xs)) - 1)%Q) in *.
  split; intros H0.
  - assert (sum_sq_dev xs == sum_sq_dev xs / n1 * n1)%Q as -> by (field; lra).
    rewrite H0. ring.
  - rewrite H0. field. lra.
Qed.

Lemma pearson_degenerate (ps : list (Q * Q)) :
  degenerate ps -> pearson ps = None.
Proof.
  intros Hd. destruct ps as [|p ps]; [done|].
  unfold pearson.
  assert (sum_sq_dev (fmap fst (p :: ps)) * sum_sq_dev (fmap snd (p :: ps)) == 0)%Q
    as H0; [|by apply Qeq_bool_iff in H0 as ->].
  destruct ps as [|p' ps].
  { simpl. rewrite sum_sq_dev_single. ring. }
  destruct Hd as [Hl|[Hv|Hv]]; [simpl in Hl; lia| |];
    apply variance_zero in Hv; try (rewrite length_fmap; simpl; lia);
    rewrite Hv; ring.
Qed.

Lemma pearson_defined (ps : list (Q * Q)) :
  ~ degenerate ps ->
  (0 < sum_sq_dev (fmap fst ps) * sum_sq_dev (fmap snd ps))%Q /\
  pearson ps =
    Some {| surd_num := sum_dev_products ps;
            surd_rad := (sum_sq_dev (fmap fst ps) * sum_sq_dev (fmap snd ps))%Q |}.
Proof.
  intros Hd.
  assert (2 <= length ps)%nat as Hn.
  { destruct (decide (2 <= length ps)%nat); [done|]. exfalso. apply Hd. left. lia. }
  assert (forall xs : list Q, length xs = length ps ->
            ~ (variance xs == 0)%Q -> (0 < sum_sq_dev xs)%Q) as Hpos.
  { intros xs Hl Hv. pose proof (sum_sq_dev_nonneg xs) as H0.
    destruct (Qlt_le_dec 0 (sum_sq_dev xs)) as [|Hle]; [done|].
    exfalso. apply Hv, variance_zero; [lia|]. lra. }
  assert (0 < sum_sq_dev (fmap fst ps))%Q as Hx.
  { apply Hpos; [by rewrite length_fmap|]. intros ?. apply Hd. by right; left. }
  assert (0 < sum_sq_dev (fmap snd ps))%Q as Hy.
  { apply Hpos; [by rewrite length_fmap|]. intros ?. apply Hd. by right; right. }
  assert (0 < sum_sq_dev (fmap fst ps) * sum_sq_dev (fmap snd ps))%Q as Hxy by nra.
  split; [done|]. unfold pearson. destruct ps as [|p ps]; [simpl in Hn; lia|].
  destruct (Qeq_bool _ 0) eqn:Heq; [|done].
  apply Qeq_bool_iff in Heq. lra.
Qed.

Lemma round1_surd_spec (s : surd) :
  (0 < surd_rad s)%Q ->
  exists k : Z, round1_surd s = Qred (k # 10) /\
    nearest_to_ratio_sqrt (10 * surd_num s) (surd_rad s) k.
Proof.
  intros Hd. unfold round1_surd.
  set (y := (10 * surd_num s)%Q). set (d := surd_rad s) in *.
  assert (0 <= y * y / d)%Q as Ht.
  { apply Qle_shift_div_l; [done|]. nra. }
  assert (y * y / d * d == y * y)%Q as Htd by (field; lra).
  destruct (round_sqrt_spec _ Ht) as (Hk & Hlo & Hhi).
  set (k := round_sqrt (y * y / d)) in *.
  assert (0 <= inject_Z k)%Q as HK.
  { change 0%Q with (inject_Z 0). by rewrite <- Zle_Qle. }
  assert (k <> 0%Z -> 1 <= inject_Z k)%Q as HK1.
  { intros ?. change 1%Q with (inject_Z 1). rewrite <- Zle_Qle. lia. }
  assert (k = 0%Z \/
          ((2 * inject_Z k - 1) * (2 * inject_Z k - 1) * d <= 4 * (y * y))%Q)
    as Hlo'.
  { destruct Hlo as [?|Hlo]; [by left|right].
    apply (Qmult_le_compat_r _ _ d) in Hlo; [|lra]. rewrite Htd in Hlo. lra. }
  assert (4 * (y * y) <= (2 * inject_Z k + 1) * (2 * inject_Z k + 1) * d)%Q
    as Hhi'.
  { apply (Qmult_le_compat_r _ _ d) in Hhi; [|lra]. rewrite Htd in Hhi. lra. }
  destruct (Qle_bool 0 y) eqn:Hy.
  - apply Qle_bool_iff in Hy. exists k. split; [done|].
    unfold nearest_to_ratio_sqrt. rewrite Z.abs_eq by done.
    split; [done|]. split; [|done].
    intros Hy0. destruct (decide (k = 0%Z)) as [->|Hne]; [done|].
    exfalso. specialize (HK1 Hne). destruct Hlo' as [?|Hlo']; [done|].
    assert (y == 0)%Q as Hy1 by lra. rewrite Hy1 in Hlo'. nra.
  - assert (y < 0)%Q as Hy'.
    { destruct (Qlt_le_dec y 0) as [|Hle]; [done|].
      apply Qle_bool_iff in Hle. congruence. }
    exists (- k)%Z. split; [done|].
    unfold nearest_to_ratio_sqrt. rewrite Z.abs_opp, Z.abs_eq by done.
    split; [lra|]. split; [lia|]. split; [|done].
    destruct Hlo' as [->|?]; [by left|by right].
Qed.

Lemma mapR_total {A B} (f : A -> result B) (l : list A) :
  Forall (fun x => exists y, f x = Ok y) l -> exists l', mapR f l = Ok l'.
Proof.
  induction 1 as [|x l [y Hy] _ [l' IH]]; simpl; [by eexists|].
  rewrite Hy, IH. simpl. by eexists.
Qed.

Lemma Forall2_elem_r {A B} (R : A -> B -> Prop) l l' y :
  Forall2 R l l' -> y ∈ l' -> exists x, x ∈ l /\ R x y.
Proof.
  induction 1 as [|x y' l l' Hxy _ IH]; intros Hin.
  - by apply elem_of_nil in Hin.
  - apply elem_of_cons in Hin as [->|Hin].
    + exists x. split; [apply list_elem_of_here | done].
    + destruct (IH Hin) as (x' & Hx' & HR). exists x'.
      split; [by apply list_elem_of_further | done].
Qed.

Lemma pairs_of_floats cx cy (g : list (Z * row)) :
  Forall (fun ir : Z * row =>
            exists x y, get cx ir.2 = VFloat x /\ get cy ir.2 = VFloat y) g ->
  exists ps, pairs_of cx cy g = Ok ps /\ length ps = length g.
Proof.
  unfold pairs_of. induction 1 as [|ir g (x & y & Hx & Hy) _ (ps & IH & Hl)].
  - by exists [].
  - apply bind_Ok in IH as (os & Hos & [= <-]).
    exists ((x, y) :: omap id os). split; [|by rewrite !length_cons, Hl].
    simpl. rewrite Hx, Hy. simpl. by rewrite Hos.
Qed.

(** The correlation table of the sample: one record in track [Alpha], three
    records on a line in track [Beta]. *)
Lemma sample_correlation_table :
  round_corr <$> TrackStatistics.corr_attendance_project sample_cleaned
  = Ok {| header := ["Track"; "Correlation (%)"];
          body := [(VStr "Alpha", [NA]); (VStr "Beta", [VFloat 100])] |}.
Proof. vm_compute. reflexivity. Qed.

(** C1. Every record that survives [clean_df] has a value in every column of
    the frame; its score columns hold numbers between 0 and 100, its [Term]
    is 1 or 2, its [Class] and [Cohort] match their patterns. A record that
    still has a missing cell after the steps (a dropped record) does not
    appear in the result: with unique index labels, its label is not in the
    result's index. *)
Theorem clean_df_invariants `{L : PyLib} (df out : DataFrame) :
  clean_df df = Ok out ->
  columns out = columns df /\
  (forall ir, ir ∈ rows out ->
     (forall c, c ∈ columns out -> get c ir.2 <> NA) /\
     (forall c, c ∈ score_cols -> c ∈ columns out ->
        exists q, get c ir.2 = VFloat q /\ (0 <= q)%Q /\ (q <= 100)%Q) /\
     ("Term" ∈ columns out ->
        get "Term" ir.2 = VInt 1 \/ get "Term" ir.2 = VInt 2) /\
     ("Class" ∈ columns out ->
        exists s, get "Class" ir.2 = VStr s /\ fullmatch re_class s = true) /\
     ("Cohort" ∈ columns out ->
        exists s, get "Cohort" ir.2 = VStr s /\ fullmatch re_cohort s = true)) /\
  (exists d, clean_steps df = Ok d /\ out = dropna d /\
     fmap fst (rows d) = fmap fst (rows df) /\
     (NoDup (fmap fst (rows df)) ->
      forall i r c, (i, r) ∈ rows d -> c ∈ columns d -> get c r = NA ->
                    i ∉ fmap fst (rows out))).
Proof.
  intros Hclean.
  pose proof Hclean as (d & Hd & Hout)%clean_df_Ok.
  destruct (clean_steps_frame _ _ Hd) as [Hcols Hidx].
  split; [by subst out|]. split.
  - intros ir Hir.
    destruct (clean_df_cells _ _ _ Hclean Hir)
      as (Hna & Hscore & _ & _ & Hterm & _ & Hclass & Hcohort).
    repeat split; done.
  - exists d. repeat split; try done.
    intros Hnd i r c Hir Hc Hna. subst out.
    apply (dropped_not_in d i r); [by rewrite Hidx | done |].
    by eapply complete_false.
Qed.

Lemma clean_df_invariants_witness :
  exists out, clean_df (L := ascii_lib) sample_frame = Ok out
              /\ columns out = columns sample_frame
              /\ fmap fst (rows out) = [0; 1; 2; 3; 5]%Z.
Proof.
  eexists. split; [vm_compute; reflexivity|].
  split; [|vm_compute; reflexivity].
  apply (clean_df_invariants (L := ascii_lib) sample_frame). vm_compute; reflexivity.
Defined.

(** C7, as stated, fails: [drop_duplicates] sorts the rows by index label
    before it drops, so on a frame whose labels do not increase in row order
    it keeps the row of the least label, not the first row of the input. The
    rows of labels 3 and 1, in that order, have the same identity, and the
    row of label 1 is the one kept. *)
Lemma drop_duplicates_unsorted_counterexample : ~ keeps_first_in_input_order.
Proof.
  intros Hspec.
  specialize (Hspec unsorted_frame unsorted_dedup
                ltac:(vm_compute; reflexivity) ltac:(vm_compute; reflexivity)
                ltac:(vm_compute; reflexivity) (VInt 1001, VInt 1, VStr "A")).
  vm_compute in Hspec. discriminate Hspec.
Qed.

(** C7, amended. Deduplication is idempotent, raised errors included; on a
    frame that has the [StudentID] and [Term] columns and whose index labels
    increase in row order (as the loader numbers them), the result keeps the
    order of the rows and, of every group of rows with the same
    ([StudentID], [Term], [Track]), exactly the first row. *)
Theorem drop_duplicates_idempotent_keep_first :
  (forall df, drop_duplicates df ≫= drop_duplicates = drop_duplicates df) /\
  (forall df out,
     has_col "StudentID" df = true -> has_col "Term" df = true ->
     index_sorted df ->
     drop_duplicates df = Ok out ->
     columns out = columns df /\
     rows out `sublist_of` rows df /\
     forall k, filter (has_key k) (rows out)
               = take 1 (filter (has_key k) (rows df))).
Proof.
  split; [apply drop_duplicates_idem|].
  intros df out H1 H2 Hs Hd.
  split; [by eapply drop_duplicates_columns|].
  rewrite (drop_duplicates_rows _ _ H1 H2 Hd), (sort_index_id _ Hs).
  split; [apply keep_first_sublist|].
  intros k. by rewrite keep_first_groups.
Qed.

Lemma drop_duplicates_idempotent_keep_first_witness :
  exists out, drop_duplicates sample_frame = Ok out
              /\ fmap fst (rows out) = [0; 1; 2; 4; 5]%Z
              /\ rows out `sublist_of` rows sample_frame.
Proof.
  eexists. split; [vm_compute; reflexivity|].
  split; [vm_compute; reflexivity|].
  apply (proj2 drop_duplicates_idempotent_keep_first sample_frame);
    [reflexivity | reflexivity | | vm_compute; reflexivity].
  unfold index_sorted, index_le. simpl. repeat constructor.
Defined.

(** C8. With [pd.to_numeric] reading a run of digits as the integer it
    denotes, a [StudentID] given as four digits of text that start with [0]
    is missing after validation, and its record is dropped; in every
    surviving record [StudentID] is an integer from 1000 to 9999. *)
Theorem student_id_leading_zero_dropped `{L : PyLib} (df out : DataFrame) :
  parses_digits ->
  clean_df df = Ok out -> "StudentID" ∈ columns df ->
  (forall i r s,
     NoDup (fmap fst (rows df)) -> (i, r) ∈ rows df ->
     get "StudentID" r = VStr s -> fullmatch re_student_id s = true ->
     (exists t, s = String "0"%char t) ->
     (exists d, clean_steps df = Ok d /\ i ∈ fmap fst (rows d) /\
                forall r', (i, r') ∈ rows d -> get "StudentID" r' = NA) /\
     i ∉ fmap fst (rows out)) /\
  (forall ir, ir ∈ rows out ->
     exists z, get "StudentID" ir.2 = VInt z /\ (1000 <= z <= 9999)%Z).
Proof.
  intros Hparse Hclean Hc.
  pose proof Hclean as (d & Hd & Hout)%clean_df_Ok.
  destruct (clean_steps_frame _ _ Hd) as [Hcols Hidx].
  split.
  - intros i r s Hnd Hir Hget Hm Hzero.
    pose proof (leading_zero_missing df d i r s Hparse Hd Hc Hnd Hir Hget Hm Hzero)
      as Hna.
    assert (i ∈ fmap fst (rows d)) as Hi.
    { rewrite Hidx. apply list_elem_of_fmap. by exists (i, r). }
    split; [by exists d|].
    apply list_elem_of_fmap in Hi as ([j r'] & Hj & Hr'). simpl in Hj. subst j.
    subst out. apply (dropped_not_in d i r'); [by rewrite Hidx | done |].
    apply (complete_false _ _ "StudentID"); [by rewrite Hcols | by apply Hna].
  - intros ir Hir.
    destruct (clean_df_cells _ _ _ Hclean Hir) as (_ & _ & _ & _ & _ & Hid & _).
    apply Hid. subst out. simpl. by rewrite Hcols.
Qed.

(** C10. Without a [StudentID] column or without a [Term] column,
    [drop_duplicates] returns the frame it was given: the same rows in the same
    order, and no error. *)
Theorem drop_duplicates_without_identity (df : DataFrame) :
  "StudentID" ∉ columns df \/ "Term" ∉ columns df ->
  drop_duplicates df = Ok df.
Proof.
  intros H. apply drop_duplicates_skip. unfold has_col.
  destruct H as [H|H]; [left|right]; by apply bool_decide_eq_false.
Qed.

Lemma drop_duplicates_without_identity_witness :
  drop_duplicates (one_track_frame "Math" [VInt 1; VInt 1])
  = Ok (one_track_frame "Math" [VInt 1; VInt 1]).
Proof.
  apply drop_duplicates_without_identity. left.
  apply (proj1 (bool_decide_eq_false _)). vm_compute; reflexivity.
Defined.

Lemma student_id_leading_zero_dropped_witness :
  exists out, clean_df (L := ascii_lib) sample_frame = Ok out
              /\ 4%Z ∉ fmap fst (rows out).
Proof.
  eexists. split; [vm_compute; reflexivity|].
  refine (proj2 (proj1 (student_id_leading_zero_dropped (L := ascii_lib)
            sample_frame _ decimal_parse_digits _ _)
            4%Z leading_zero_record "0123" _ _ _ _ _)).
  - vm_compute; reflexivity.
  - apply (proj1 (bool_decide_eq_true _)). vm_compute; reflexivity.
  - apply (proj1 (bool_decide_eq_true _)). vm_compute; reflexivity.
  - apply (list_elem_of_lookup_2 _ 4%nat). reflexivity.
  - vm_compute; reflexivity.
  - reflexivity.
  - by eexists.
Defined.

(** C2, as stated, fails: with the decoded values true, false and a missing
    one in one track, the two values tie, the first one met is true, and the
    code fills in false. *)
Lemma boolean_tie_counterexample :
  ~ imputes_first_encountered_mode (H := ascii_lib).
Proof.
  intros Hspec.
  destruct (Hspec "Passed (Y/N)"
              (one_track_frame "Passed (Y/N)" [VStr "Y"; VStr "N"; VStr "bogus"])
              (match clean_bool (L := ascii_lib) "Passed (Y/N)"
                       (one_track_frame "Passed (Y/N)"
                          [VStr "Y"; VStr "N"; VStr "bogus"])
               with Ok d => d | Raise _ => one_track_frame "" [] end)
              2%nat 2%Z
              (list_to_map [("Track", VStr "A"); ("Passed (Y/N)", VStr "bogus")])
              ltac:(apply (proj1 (bool_decide_eq_true _)); vm_compute; reflexivity)
              ltac:(apply (proj1 (bool_decide_eq_true _)); vm_compute; reflexivity)
              ltac:(vm_compute; reflexivity)
              ltac:(reflexivity)
              ltac:(vm_compute; reflexivity)
              ltac:(discriminate))
    as (r' & Hr' & Hget).
  vm_compute in Hr'. injection Hr' as <-. vm_compute in Hget. discriminate.
Qed.

(** C2, amended. In the step of [clean_df] for a boolean column, a value that
    decodes is kept, and a value that is missing after decoding, in a row with
    a track, becomes the most frequent decoded value of the rows of that
    track, [false] when [true] and [false] are as frequent; it stays missing
    when no value of the track decodes. The values "Y", "N", "FALSE", "bogus"
    of one track decode to true, false, false and missing, and the missing
    one becomes false. *)
Theorem boolean_imputation_track_mode :
  (forall (L : PyLib) (c : string) (df out : DataFrame),
     c ∈ boolean_cols -> c ∈ columns df -> clean_bool c df = Ok out ->
     forall n i r, rows df !! n = Some (i, r) ->
     exists r', rows out !! n = Some (i, r') /\
       (forall b, decode_bool (get c r) = VBool b -> get c r' = VBool b) /\
       (decode_bool (get c r) = NA -> get "Track" r <> NA ->
        let bs := omap (fun ir : Z * row => as_bool (decode_bool (get c ir.2)))
                    (group_rows "Track" (get "Track" r) (rows df)) in
        (bs = [] -> get c r' = NA) /\
        (count_occ_bool false bs < count_occ_bool true bs ->
         get c r' = VBool true)%nat /\
        (bs <> [] -> count_occ_bool true bs <= count_occ_bool false bs ->
         get c r' = VBool false)%nat)) /\
  fmap (decode_bool (L := ascii_lib))
    [VStr "Y"; VStr "N"; VStr "FALSE"; VStr "bogus"]
  = [VBool true; VBool false; VBool false; NA] /\
  column_of "Passed (Y/N)"
    (clean_df (L := ascii_lib)
       (one_track_frame "Passed (Y/N)"
          [VStr "Y"; VStr "N"; VStr "FALSE"; VStr "bogus"]))
  = [VBool true; VBool false; VBool false; VBool false].
Proof.
  split; [|split; vm_compute; reflexivity].
  intros L c df out Hs Hc Hclean n i r Hn.
  destruct (clean_bool_cell c df out n i r Hs Hc Hclean Hn) as (r' & Hr' & _ & Hget).
  exists r'. split; [done|]. split.
  - intros b Hb. by rewrite Hget, Hb.
  - intros Hna Htrack bs. rewrite Hna in Hget. simpl in Hget.
    assert (get c r' = first_mode bs) as ->.
    { rewrite Hget. by destruct (get "Track" r). }
    apply first_mode_cases.
Qed.

Lemma boolean_imputation_track_mode_witness :
  exists out r',
    clean_bool (L := ascii_lib) "Passed (Y/N)"
      (one_track_frame "Passed (Y/N)"
         [VStr "Y"; VStr "N"; VStr "FALSE"; VStr "bogus"]) = Ok out
    /\ rows out !! 3%nat = Some (3%Z, r')
    /\ get "Passed (Y/N)" r' = VBool false.
Proof.
  destruct (proj1 boolean_imputation_track_mode ascii_lib "Passed (Y/N)"
              (one_track_frame "Passed (Y/N)"
                 [VStr "Y"; VStr "N"; VStr "FALSE"; VStr "bogus"])
              (match clean_bool (L := ascii_lib) "Passed (Y/N)"
                       (one_track_frame "Passed (Y/N)"
                          [VStr "Y"; VStr "N"; VStr "FALSE"; VStr "bogus"])
               with Ok d => d | Raise _ => one_track_frame "" [] end)
              ltac:(apply (proj1 (bool_decide_eq_true _)); vm_compute; reflexivity)
              ltac:(apply (proj1 (bool_decide_eq_true _)); vm_compute; reflexivity)
              ltac:(vm_compute; reflexivity)
              3%nat 3%Z
              (list_to_map [("Track", VStr "A"); ("Passed (Y/N)", VStr "bogus")])
              ltac:(reflexivity))
    as (r' & Hr' & _ & Himp).
  eexists _, r'. split; [vm_compute; reflexivity|]. split; [exact Hr'|].
  destruct (Himp ltac:(vm_compute; reflexivity) ltac:(discriminate))
    as (_ & _ & Hfalse).
  apply Hfalse; [vm_compute; discriminate | vm_compute; lia].
Defined.

(** C6. Imputation is local to a track: when two input frames with a [Track]
    column have the same columns and index and differ at most in records of
    track [A] (as [clean_df] groups them, after normalising [Track]), the
    rows of every other track are the same in the two cleaned frames, imputed
    values included. *)
Theorem imputation_group_local `{L : PyLib} (A : string)
    (df1 df2 out1 out2 : DataFrame) :
  "Track" ∈ columns df1 ->
  differ_within_track A df1 df2 ->
  clean_df df1 = Ok out1 -> clean_df df2 = Ok out2 ->
  rows_off_track A out1 = rows_off_track A out2.
Proof.
  intros Ht Hdiff (d1 & Hd1 & ->)%clean_df_Ok (d2 & Hd2 & ->)%clean_df_Ok.
  apply dropna_agree. by eapply clean_steps_agree.
Qed.

Lemma imputation_group_local_witness :
  exists out1 out2,
    clean_df (L := ascii_lib) sample_frame = Ok out1
    /\ clean_df (L := ascii_lib) sample_frame_alpha_changed = Ok out2
    /\ column_of "Math" (Ok out1) <> column_of "Math" (Ok out2)
    /\ rows_off_track "Alpha" out1 = rows_off_track "Alpha" out2.
Proof.
  eexists _, _. split; [vm_compute; reflexivity|].
  split; [vm_compute; reflexivity|].
  split; [vm_compute; intros H; discriminate H|].
  apply (imputation_group_local (L := ascii_lib) "Alpha"
           sample_frame sample_frame_alpha_changed).
  - apply (proj1 (bool_decide_eq_true _)). vm_compute; reflexivity.
  - split; [reflexivity|].
    unfold sample_frame, sample_frame_alpha_changed. cbn [rows].
    repeat (first [apply Forall2_nil_2 | apply Forall2_cons_2]);
      (split; [reflexivity|]);
      first [left; reflexivity | right; split; vm_compute; reflexivity].
  - vm_compute; reflexivity.
  - vm_compute; reflexivity.
Defined.

(** C5, as stated, fails for the summary computations: on a frame that has
    the [Track] and identity columns and no [Passed (Y/N)] column, the pass
    rate raises [KeyError], and so does [compute_all_stats]. *)
Lemma summaries_raise_on_absent_column :
  ~ tolerates_absent_columns TrackStatistics.pass_rate
  /\ ~ tolerates_absent_columns compute_all_stats.
Proof.
  split; intros H.
  - apply (H identity_frame) with (c := "Passed (Y/N)");
      try (apply (proj1 (bool_decide_eq_true _)); vm_compute; reflexivity).
    vm_compute; reflexivity.
  - apply (H identity_frame) with (c := "Math");
      try (apply (proj1 (bool_decide_eq_true _)); vm_compute; reflexivity).
    vm_compute; reflexivity.
Qed.

(** C5, amended. The cleaning pipeline and the deduplicator tolerate absent
    columns: on a frame with a [Track] column neither fails for lack of a
    column, [clean_df] returns the columns it was given, and [drop_duplicates]
    returns the frame unchanged when [StudentID] or [Term] is absent. The
    summary computations do not: a group mean over an absent column raises
    [KeyError], the pass rate without [Passed (Y/N)] among them. *)
Theorem cleaning_tolerates_absent_columns :
  (forall (L : PyLib), tolerates_absent_columns clean_df) /\
  (forall (L : PyLib) df out, clean_df df = Ok out -> columns out = columns df) /\
  tolerates_absent_columns drop_duplicates /\
  (forall df, "StudentID" ∉ columns df \/ "Term" ∉ columns df ->
              drop_duplicates df = Ok df) /\
  (forall key cs df c,
     key ∈ columns df -> c ∈ cs -> c ∉ columns df ->
     exists c', c' ∈ cs /\ (c' ∉ columns df)
                /\ (group_means key cs df = Raise (KeyError c'))) /\
  (forall df, "Track" ∈ columns df -> "Passed (Y/N)" ∉ columns df ->
              TrackStatistics.pass_rate df = Raise (KeyError "Passed (Y/N)")).
Proof.
  split; [|split; [|split; [|split; [|split]]]].
  - intros L df Ht _ _ c. by apply clean_df_not_KeyError.
  - intros L df out (d & Hd & ->)%clean_df_Ok.
    by destruct (clean_steps_frame _ _ Hd).
  - intros df Ht _ _ c. by apply drop_duplicates_not_KeyError.
  - intros df H. apply drop_duplicates_skip. unfold has_col.
    destruct H as [H|H]; [left|right]; by apply bool_decide_eq_false.
  - apply group_means_absent.
  - intros df Ht Hp. by apply pass_rate_absent.
Qed.

Lemma cleaning_tolerates_absent_columns_witness :
  clean_df (L := ascii_lib) identity_frame = Ok identity_frame
  /\ clean_df (L := ascii_lib) identity_frame <> Raise (KeyError "Math")
  /\ TrackStatistics.pass_rate identity_frame = Raise (KeyError "Passed (Y/N)").
Proof.
  split; [vm_compute; reflexivity|]. split.
  - apply (proj1 cleaning_tolerates_absent_columns ascii_lib identity_frame);
      apply (proj1 (bool_decide_eq_true _)); vm_compute; reflexivity.
  - apply (proj2 (proj2 (proj2 (proj2 (proj2 cleaning_tolerates_absent_columns))))
             identity_frame).
    + apply (proj1 (bool_decide_eq_true _)). vm_compute; reflexivity.
    + apply (proj1 (bool_decide_eq_false _)). vm_compute; reflexivity.
Defined.

Section TableOrder.
Context `{L : PyLib}.


End TableOrder.

(** C4. On a cleaned and deduplicated frame that has the columns [Track],
    [Attendance (%)] and [ProjectScore], the correlation of attendance and
    project score by track is computed without an exception, it is the table
    [Track - Corr (%)] of the report, and it has one row per track.  The
    observations of a track are the pairs of its rows, one per row.  Where
    they are fewer than two, or the variance of one of the two columns is
    zero, the cell is the missing value (so not a number, zero included);
    otherwise the cell is [n / 10] for an integer [n] nearest to
    [10 * 100 * r], where [r], the Pearson coefficient, is the sum of the
    products of the deviations over the square root of the product of the two
    sums of squared deviations. *)
Theorem correlation_missing_when_undefined `{L : PyLib} (df : DataFrame) :
  cleaned_frame df ->
  "Track" ∈ columns df -> "Attendance (%)" ∈ columns df ->
  "ProjectScore" ∈ columns df ->
  exists rs,
    TrackStatistics.corr_attendance_project df = Ok rs /\
    (forall stats, compute_all_stats df = Ok stats ->
       ("Track - Corr (%)", round_corr rs) ∈ stats) /\
    fmap fst (body (round_corr rs)) = group_keys "Track" false df /\
    forall k cs, (k, cs) ∈ body (round_corr rs) ->
      exists ps,
        pairs_of "Attendance (%)" "ProjectScore"
          (group_rows "Track" k (rows df)) = Ok ps /\
        length ps = length (group_rows "Track" k (rows df)) /\
        (degenerate ps -> cs = [NA]) /\
        (~ degenerate ps ->
         (0 < sum_sq_dev (fmap fst ps) * sum_sq_dev (fmap snd ps))%Q /\
         exists n : Z,
           cs = [VFloat (Qred (n # 10))] /\
           nearest_to_ratio_sqrt (10 * (100 * sum_dev_products ps))
             (sum_sq_dev (fmap fst ps) * sum_sq_dev (fmap snd ps)) n).
Proof.
  intros Hclean HT HA HP.
  destruct (cleaned_frame_cells df Hclean) as (_ & _ & Hscore).
  assert (Forall (fun ir : Z * row =>
            exists x y, get "Attendance (%)" ir.2 = VFloat x
                        /\ get "ProjectScore" ir.2 = VFloat y) (rows df))
    as Hfloat.
  { pose proof (Hscore "Attendance (%)") as Ha.
    pose proof (Hscore "ProjectScore") as Hp.
    rewrite Forall_forall in *. intros ir Hir.
    destruct (Ha ltac:(set_solver) HA ir Hir) as [x Hx].
    destruct (Hp ltac:(set_solver) HP ir Hir) as [y Hy]. eauto. }
  assert (forall k, exists ps,
            pairs_of "Attendance (%)" "ProjectScore"
              (group_rows "Track" k (rows df)) = Ok ps /\
            length ps = length (group_rows "Track" k (rows df))) as Hpairs.
  { intros k. apply pairs_of_floats. by apply Forall_filter_keep. }
  assert (filter (fun c => c ∉ columns df) ["Attendance (%)"; "ProjectScore"]
          = []) as Hnone.
  { rewrite !filter_cons_False by (intros Hn; by apply Hn). done. }
  unfold TrackStatistics.corr_attendance_project.
  destruct (groupby "Track" false df) as [gs|e] eqn:Hgs; last first.
  { unfold groupby in Hgs. apply has_col_elem in HT. by rewrite HT in Hgs. }
  assert (forall kg, kg ∈ gs -> kg.2 = group_rows "Track" kg.1 (rows df)) as Hg.
  { unfold groupby in Hgs. destruct (has_col "Track" df); [|done].
    injection Hgs as <-. by intros kg (k & -> & _)%list_elem_of_fmap. }
  simpl. rewrite Hnone.
  edestruct (mapR_total (fun kg : cell * list (Z * row) =>
               ps ← pairs_of "Attendance (%)" "ProjectScore" kg.2;
               Ok (kg.1, surd_scale 100 <$> pearson ps)) gs) as [rs Hrs].
  { apply Forall_forall. intros kg Hkg. rewrite (Hg kg Hkg).
    destruct (Hpairs kg.1) as (ps & -> & _). simpl. by eexists. }
  exists rs. split; [exact Hrs|].
  assert (TrackStatistics.corr_attendance_project df = Ok rs) as Hcorr.
  { unfold TrackStatistics.corr_attendance_project. rewrite Hgs. simpl.
    by rewrite Hnone. }
  split; [|split].
  - intros stats Hstats. unfold compute_all_stats in Hstats.
    rewrite Hcorr in Hstats.
    do 5 (apply bind_Ok in Hstats as (? & _ & Hstats)).
    apply bind_Ok in Hstats as (t & Ht & Hstats).
    simpl in Ht. injection Ht as <-.
    repeat (apply bind_Ok in Hstats as (? & _ & Hstats)).
    injection Hstats as <-.
    do 5 apply list_elem_of_further. apply list_elem_of_here.
  - by apply corr_keys.
  - intros k cs ((k' & o) & [= -> ->] & Hin)%list_elem_of_fmap. simpl.
    apply mapR_Ok in Hrs.
    destruct (Forall2_elem_r _ _ _ _ Hrs Hin) as (kg & Hkg & Hf).
    rewrite (Hg kg Hkg) in Hf.
    destruct (Hpairs kg.1) as (ps & Hps & Hlen).
    rewrite Hps in Hf. simpl in Hf. injection Hf as <- <-.
    exists ps. split; [done|]. split; [done|]. split.
    + intros Hd. by rewrite (pearson_degenerate ps Hd).
    + intros Hd. destruct (pearson_defined ps Hd) as [Hpos ->].
      split; [done|]. simpl.
      destruct (round1_surd_spec
                  (surd_scale 100
                     {| surd_num := sum_dev_products ps;
                        surd_rad := (sum_sq_dev (fmap fst ps)
                                     * sum_sq_dev (fmap snd ps))%Q |}))
        as (n & Hn & Hnear); [done|].
      exists n. by rewrite Hn.
Qed.

Lemma correlation_missing_when_undefined_witness :
  cleaned_frame (H := ascii_lib) sample_cleaned /\
  exists rs,
    TrackStatistics.corr_attendance_project sample_cleaned = Ok rs /\
    (forall stats, compute_all_stats sample_cleaned = Ok stats ->
       ("Track - Corr (%)", round_corr rs) ∈ stats) /\
    fmap fst (body (round_corr rs)) = group_keys "Track" false sample_cleaned /\
    forall k cs, (k, cs) ∈ body (round_corr rs) ->
      exists ps,
        pairs_of "Attendance (%)" "ProjectScore"
          (group_rows "Track" k (rows sample_cleaned)) = Ok ps /\
        length ps = length (group_rows "Track" k (rows sample_cleaned)) /\
        (degenerate ps -> cs = [NA]) /\
        (~ degenerate ps ->
         (0 < sum_sq_dev (fmap fst ps) * sum_sq_dev (fmap snd ps))%Q /\
         exists n : Z,
           cs = [VFloat (Qred (n # 10))] /\
           nearest_to_ratio_sqrt (10 * (100 * sum_dev_products ps))
             (sum_sq_dev (fmap fst ps) * sum_sq_dev (fmap snd ps)) n).
Proof.
  split.
  - exists sample_frame, sample_clean. split; vm_compute; reflexivity.
  - apply (correlation_missing_when_undefined (L := ascii_lib)).
    + exists sample_frame, sample_clean. split; vm_compute; reflexivity.
    + apply (proj1 (has_col_elem _ _)). vm_compute. reflexivity.
    + apply (proj1 (has_col_elem _ _)). vm_compute. reflexivity.
    + apply (proj1 (has_col_elem _ _)). vm_compute. reflexivity.
Defined.

(** ** The index of a loaded frame *)

Lemma zip_seq_sorted (rs : list row) (s : nat) :
  Sorted index_le (zip (fmap Z.of_nat (seq s (length rs))) rs).
Proof.
  revert s. induction rs as [|r rs IH]; intros s; simpl; [constructor|].
  constructor; [apply IH|].
  destruct rs as [|r' rs]; simpl; constructor.
  unfold index_le. simpl. apply Z.leb_le. lia.
Qed.

Lemma load_all_sheets_index_sorted (wb : list sheet) :
  index_sorted (load_all_sheets wb).
Proof. unfold index_sorted, load_all_sheets. simpl. apply zip_seq_sorted. Qed.

Lemma load_all_sheets_index_NoDup (wb : list sheet) :
  NoDup (fmap fst (rows (load_all_sheets wb))).
Proof.
  unfold load_all_sheets. simpl.
  rewrite fst_zip by (by rewrite length_fmap, length_seq).
  apply NoDup_fmap_2; [intros x y; apply Nat2Z.inj | apply NoDup_seq].
Qed.

Lemma index_sorted_labels (l1 l2 : list (Z * row)) :
  fmap fst l1 = fmap fst l2 -> Sorted index_le l1 -> Sorted index_le l2.
Proof.
  revert l2. induction l1 as [|a l1 IH]; intros [|b l2]; simpl; try done.
  intros [= Hab Hl] [Hs Hhd]%Sorted_inv.
  constructor; [by apply IH|].
  destruct l1 as [|a' l1], l2 as [|b' l2]; simpl in *; try done; constructor.
  apply HdRel_inv in Hhd. injection Hl as Hab' _.
  unfold index_le in *. by rewrite <- Hab, <- Hab'.
Qed.

Lemma dropna_index_sorted (d : DataFrame) :
  index_sorted d -> index_sorted (dropna d).
Proof.
  unfold index_sorted, dropna. simpl. intros Hs.
  apply StronglySorted_Sorted.
  eapply StronglySorted_sublist; [apply sublist_filter|].
  apply Sorted_StronglySorted; [|done].
  intros a b c. apply index_le_trans.
Qed.

Lemma clean_df_index_sorted `{L : PyLib} (df out : DataFrame) :
  clean_df df = Ok out -> index_sorted df -> index_sorted out.
Proof.
  intros (d & Hd & ->)%clean_df_Ok Hs.
  destruct (clean_steps_frame _ _ Hd) as [_ Hidx].
  apply dropna_index_sorted. unfold index_sorted.
  by eapply index_sorted_labels; [symmetry; exact Hidx|].
Qed.

(** * Further properties of the program *)

#[global] Existing Instance exn_eq_dec.
#[global] Existing Instance result_eq_dec.
#[global] Existing Instance DataFrame_eq_dec.
#[global] Existing Instance Table_eq_dec.

(** ** The loader *)

Lemma elem_of_union_columns (css : list (list string)) : forall acc c,
  c ∈ foldl (fun acc cs => (acc ++ filter (fun c => c ∉ acc) cs)%list) acc css
  <-> c ∈ acc \/ exists cs, cs ∈ css /\ c ∈ cs.
Proof.
  induction css as [|cs css IH]; intros acc c; simpl.
  { split; [by left|]. intros [?|(cs & ?%elem_of_nil & _)]; done. }
  rewrite IH, elem_of_app, list_elem_of_filter. split.
  - intros [[?|[_ ?]]|(cs' & Hcs' & Hc)].
    + by left.
    + right. exists cs. split; [apply list_elem_of_here | done].
    + right. exists cs'. split; [by apply list_elem_of_further | done].
  - intros [?|(cs' & [->|Hcs']%elem_of_cons & Hc)].
    + by left; left.
    + destruct (decide (c ∈ acc)); [by left; left | by left; right].
    + right. by exists cs'.
Qed.

Lemma elem_of_concat {A} (x : A) (ls : list (list A)) :
  x ∈ concat ls <-> exists l, x ∈ l /\ l ∈ ls.
Proof.
  induction ls as [|l ls IH]; simpl.
  { split; [by intros ?%elem_of_nil | by intros (l & _ & ?%elem_of_nil)]. }
  rewrite elem_of_app, IH. split.
  - intros [?|(l' & ? & ?)].
    + exists l. split; [done | apply list_elem_of_here].
    + exists l'. split; [done | by apply list_elem_of_further].
  - intros (l' & Hx & [->|Hl']%elem_of_cons); [by left|right]. by exists l'.
Qed.

(** The records of the loaded frame are those of the sheets in workbook
    order, each with the name of its sheet as [Track] (whatever [Track] the
    sheet had), numbered from 0 without a gap; the frame has every column of
    every sheet, and the [Track] column. *)
Theorem load_all_sheets_frame (wb : list sheet) :
  wb <> [] ->
  fmap snd (rows (load_all_sheets wb))
  = concat (fmap (fun sh : sheet =>
                    fmap (fun r : row => <["Track" := VStr sh.1.1]> r) sh.2) wb) /\
  fmap fst (rows (load_all_sheets wb))
  = fmap Z.of_nat (seq 0 (length (concat (fmap (fun sh : sheet => sh.2) wb)))) /\
  (forall ir, ir ∈ rows (load_all_sheets wb) ->
     exists sh r, sh ∈ wb /\ r ∈ sh.2 /\ get "Track" ir.2 = VStr sh.1.1 /\
                  forall c, c <> "Track" -> get c ir.2 = get c r) /\
  "Track" ∈ columns (load_all_sheets wb) /\
  (forall sh c, sh ∈ wb -> c ∈ sh.1.2 -> c ∈ columns (load_all_sheets wb)).
Proof.
  intros Hwb. unfold load_all_sheets. cbn [rows columns].
  set (frames := fmap _ wb).
  assert (fmap snd frames
          = fmap (fun sh : sheet =>
                    fmap (fun r : row => <["Track" := VStr sh.1.1]> r) sh.2) wb)
    as Hsnd.
  { unfold frames. rewrite <- list_fmap_compose. apply list_fmap_ext.
    by intros _ [[name cols] rs] _. }
  assert (length (concat (fmap snd frames))
          = length (concat (fmap (fun sh : sheet => sh.2) wb))) as Hlen.
  { rewrite Hsnd, !length_concat, <- !list_fmap_compose. f_equal.
    apply list_fmap_ext. intros _ sh _. simpl. by rewrite length_fmap. }
  assert (forall sh c, sh ∈ wb -> c ∈ sh.1.2 \/ c = "Track" ->
            exists cs, cs ∈ fmap fst frames /\ c ∈ cs) as Hcols.
  { intros [[name cols] rs] c Hsh Hc.
    exists (if bool_decide ("Track" ∈ cols) then cols else (cols ++ ["Track"])%list).
    split.
    - apply list_elem_of_fmap.
      eexists (_, _). split; [done|]. unfold frames. apply list_elem_of_fmap.
      by exists (name, cols, rs).
    - simpl in Hc. case_bool_decide; destruct Hc as [?| ->]; set_solver. }
  split; [|split; [|split; [|split]]].
  - rewrite snd_zip; [by rewrite Hsnd|]. by rewrite length_fmap, length_seq.
  - rewrite fst_zip; [by rewrite Hlen|]. by rewrite length_fmap, length_seq.
  - intros ir Hir.
    assert (ir.2 ∈ concat (fmap snd frames)) as Hin.
    { rewrite <- (snd_zip (fmap Z.of_nat (seq 0 (length (concat (fmap snd frames)))))
                   (concat (fmap snd frames)))
        by (by rewrite length_fmap, length_seq).
      apply list_elem_of_fmap. by exists ir. }
    rewrite Hsnd in Hin.
    apply elem_of_concat in Hin as (l & Hr & Hl).
    apply list_elem_of_fmap in Hl as (sh & -> & Hsh).
    apply list_elem_of_fmap in Hr as (r & -> & Hr).
    exists sh, r. split; [done|]. split; [done|].
    split; [apply get_insert_eq|]. intros c Hc. by apply get_insert_ne.
  - apply elem_of_union_columns. right.
    destruct wb as [|sh wb]; [done|].
    apply (Hcols sh); [apply list_elem_of_here | by right].
  - intros sh c Hsh Hc. apply elem_of_union_columns. right.
    apply (Hcols sh); [done | by left].
Qed.

Lemma load_all_sheets_frame_witness :
  load_all_sheets sample_workbook = sample_frame
  /\ fmap fst (rows (load_all_sheets sample_workbook))
     = fmap Z.of_nat (seq 0 6).
Proof.
  split; [compute_done|].
  apply (load_all_sheets_frame sample_workbook). compute_done.
Defined.

(** ** When [clean_df] returns no frame *)

Section Outcome.
Context `{L : PyLib}.

Lemma mapR_Raise_elem {A B} (f : A -> result B) (l : list A) (x : A) e0 :
  x ∈ l -> f x = Raise e0 ->
  (forall y e, f y = Raise e -> e = e0) -> mapR f l = Raise e0.
Proof.
  intros Hx Hfx Hall. induction l as [|y l IH]; [by apply elem_of_nil in Hx|].
  simpl. destruct (f y) as [b|e] eqn:Hy; simpl.
  - apply elem_of_cons in Hx as [->|Hx]; [congruence|]. by rewrite (IH Hx).
  - by rewrite (Hall _ _ Hy).
Qed.

Lemma astype_Int64_Raise x e : astype_Int64 x = Raise e -> e = TypeError.
Proof.
  unfold astype_Int64. destruct x as [q|]; [|done].
  destruct (_ && _); [done|]. by intros [= <-].
Qed.

Lemma astype_Int64_castable v :
  int_castable v <-> exists v', astype_Int64 (to_numeric (replace_null v)) = Ok v'.
Proof.
  unfold int_castable, astype_Int64.
  destruct (to_numeric (replace_null v)) as [q|]; [|by split; [eexists|]].
  split.
  - intros [Hd [H1 H2]]. rewrite Hd. simpl.
    apply Z.leb_le in H1, H2. rewrite H1, H2. simpl. by eexists.
  - intros [v' Hv']. destruct (_ =? _)%positive eqn:Hd; [|done].
    destruct (_ <=? _)%Z eqn:H1; [|done]. destruct (Qnum _ <=? _)%Z eqn:H2; [|done].
    apply Pos.eqb_eq in Hd. apply Z.leb_le in H1, H2. done.
Qed.

(** The cells of a column after null replacement. *)
Lemma col_view_replace_special_nulls c df :
  col_view c (replace_special_nulls df)
  = fmap (fun ir : Z * row => (ir.1, replace_null (get c ir.2))) (rows df).
Proof.
  unfold col_view, replace_special_nulls. simpl. rewrite <- list_fmap_compose.
  apply list_fmap_ext. intros _ [i r] _. simpl. by rewrite get_replace_null.
Qed.

(** [coerce_int] looks at the cells of its column only. *)
Lemma coerce_int_Raise c d i v :
  (i, v) ∈ col_view c d -> (forall v', astype_Int64 (to_numeric v) <> Ok v') ->
  coerce_int c d = Raise TypeError.
Proof.
  intros ([j r] & [= -> ->] & Hin)%list_elem_of_fmap Hv.
  unfold coerce_int, assignR.
  rewrite (mapR_Raise_elem _ _ (j, r) TypeError); [reflexivity | exact Hin | |].
  - simpl. destruct (astype_Int64 _) as [v'|e] eqn:He; [by destruct (Hv v')|].
    by rewrite (astype_Int64_Raise _ _ He).
  - intros [j' r'] e. simpl.
    destruct (astype_Int64 (to_numeric (get c r'))) as [v'|e'] eqn:He; simpl;
      [done|].
    rewrite (astype_Int64_Raise _ _ He). by intros [= <-].
Qed.

Lemma run_steps_total (Inv : DataFrame -> Prop) steps d :
  Forall (fun s : step => forall d, Inv d ->
            exists d', guarded s d = Ok d' /\ Inv d') steps ->
  Inv d -> exists d', run_steps steps d = Ok d' /\ Inv d'.
Proof.
  intros Hall. revert d. induction Hall as [|s steps Hs _ IH]; intros d Hd.
  { by exists d. }
  rewrite run_steps_cons. destruct (Hs d Hd) as (d1 & -> & Hd1). simpl.
  by apply IH.
Qed.

Lemma clean_pipeline_parts :
  clean_pipeline
  = (text_steps
     ++ [("StudentID", coerce_int "StudentID"); ("Term", coerce_int "Term")]
     ++ check_steps ++ impute_steps)%list.
Proof. unfold clean_pipeline, text_steps. by rewrite <- !app_assoc. Qed.

Lemma pure_steps_total (steps : list step) d :
  Forall (fun s : step => exists f, s = pure_step s.1 f) steps ->
  exists d', run_steps steps d = Ok d'.
Proof.
  intros Hall.
  destruct (run_steps_total (fun _ => True) steps d) as (d' & Hd' & _);
    [|done|by exists d'].
  eapply Forall_impl; [exact Hall|]. intros s [f Hs] d1 _.
  rewrite Hs, guarded_pure. by eexists.
Qed.

Lemma text_steps_run d :
  exists d', run_steps text_steps d = Ok d' /\ columns d' = columns d /\
    forall c, c ∉ str_cols -> col_view c d' = col_view c d.
Proof.
  destruct (pure_steps_total text_steps d) as [d' Hd'].
  { unfold text_steps. simpl. repeat constructor; by eexists. }
  assert (Forall writes text_steps) as Hw.
  { pose proof writes_pipeline as Hp. rewrite clean_pipeline_parts in Hp.
    by apply Forall_app in Hp as [? _]. }
  destruct (run_steps_writes _ _ _ Hw Hd') as (Hc & _ & Hv).
  exists d'. split; [done|]. split; [done|]. intros c Hc'. apply Hv.
  unfold text_steps. simpl.
  repeat constructor; simpl; intros <-; apply Hc'; set_solver.
Qed.

Lemma check_steps_run d :
  exists d', run_steps check_steps d = Ok d' /\ columns d' = columns d.
Proof.
  destruct (pure_steps_total check_steps d) as [d' Hd'].
  { unfold check_steps. repeat constructor; by eexists. }
  assert (Forall writes check_steps) as Hw.
  { pose proof writes_pipeline as Hp. rewrite clean_pipeline_parts in Hp.
    apply Forall_app in Hp as [_ Hp]. apply Forall_app in Hp as [_ Hp].
    by apply Forall_app in Hp as [? _]. }
  destruct (run_steps_writes _ _ _ Hw Hd') as (Hc & _ & _). by exists d'.
Qed.

(** The two integer casts, on a frame whose integer columns are as read. *)
Lemma int_steps_Raise df d c i r :
  (forall c, c ∈ int_cols -> col_view c d = col_view c (replace_special_nulls df)) ->
  c ∈ int_cols -> has_col c d = true -> (i, r) ∈ rows df ->
  ~ int_castable (get c r) ->
  run_steps [("StudentID", coerce_int "StudentID"); ("Term", coerce_int "Term")] d
  = Raise TypeError.
Proof.
  intros Hview Hc Hh Hir Hbad.
  assert (forall d1, col_view c d1 = col_view c (replace_special_nulls df) ->
            coerce_int c d1 = Raise TypeError) as Hraise.
  { intros d1 Hd1. apply (coerce_int_Raise c d1 i (replace_null (get c r))).
    - rewrite Hd1, col_view_replace_special_nulls. apply list_elem_of_fmap.
      by exists (i, r).
    - intros v' Hv'. apply Hbad, astype_Int64_castable. by exists v'. }
  rewrite run_steps_cons. unfold guarded at 1. simpl.
  apply elem_of_cons in Hc as [->|Hc].
  { rewrite Hh. rewrite Hraise; [done|]. apply Hview. set_solver. }
  apply list_elem_of_singleton in Hc as ->.
  assert (forall d1, columns d1 = columns d ->
            col_view "Term" d1 = col_view "Term" d ->
            run_steps [("Term", coerce_int "Term")] d1 = Raise TypeError) as Hterm.
  { intros d1 Hc1 Hv1. rewrite run_steps_cons. unfold guarded. simpl.
    rewrite (has_col_columns _ _ _ Hc1), Hh.
    rewrite Hraise; [done|]. rewrite Hv1. apply Hview. set_solver. }
  destruct (has_col "StudentID" d) eqn:Hsid; [|by apply Hterm].
  destruct (coerce_int "StudentID" d) as [d1|e] eqn:Hd1; simpl.
  - destruct (guarded_writes ("StudentID", coerce_int "StudentID") d d1)
      as (Hc1 & _ & Hv1); [apply writes_coerce_int| |].
    { unfold guarded. simpl. by rewrite Hsid. }
    apply Hterm; [done|]. by apply Hv1.
  - unfold coerce_int, assignR in Hd1.
    destruct (mapR _ (rows d)) as [rs|e'] eqn:Hm; [done|]. simpl in Hd1.
    injection Hd1 as <-.
    assert (e' = TypeError) as ->; [|done].
    clear -Hm. induction (rows d) as [|[j r'] l IH]; [done|]. simpl in Hm.
    destruct (astype_Int64 _) as [v|e1] eqn:He; simpl in Hm.
    + destruct (mapR _ l); [done|]. simpl in Hm. injection Hm as <-. by apply IH.
    + injection Hm as <-. by eapply astype_Int64_Raise.
Qed.

(** The imputations, with and without a [Track] column. *)
Lemma impute_step_cases (s : step) d :
  s ∈ impute_steps -> has_col s.1 d = true ->
  if has_col "Track" d
  then exists d', s.2 d = Ok d' /\ columns d' = columns d
  else s.2 d = Raise (KeyError "Track").
Proof.
  intros Hs Hh.
  assert (s.2 = clean_score s.1 \/ s.2 = clean_bool s.1) as Hkind.
  { unfold impute_steps in Hs. simpl in Hs.
    repeat (apply elem_of_cons in Hs as [->|Hs]); try (by left); try (by right).
    by apply elem_of_nil in Hs. }
  assert (has_col s.1 (coerce_score s.1 d) = true) as Hh1.
  { unfold coerce_score. by rewrite assign_has_col. }
  assert (has_col "Track" (range_filter s.1 (coerce_score s.1 d))
          = has_col "Track" d) as Ht1.
  { unfold range_filter, coerce_score. by rewrite !assign_has_col. }
  assert (has_col "Track" (decode_bools s.1 d) = has_col "Track" d) as Ht2.
  { unfold decode_bools. by rewrite assign_has_col. }
  destruct Hkind as [-> | ->].
  - unfold clean_score, impute_score. rewrite Ht1.
    destruct (has_col "Track" d); [|done]. eexists. split; [done|].
    unfold range_filter, coerce_score in *.
    rewrite !assign_columns; try done; by rewrite assign_has_col.
  - unfold clean_bool, impute_bool. rewrite Ht2.
    destruct (has_col "Track" d); [|done]. eexists. split; [done|].
    unfold decode_bools.
    rewrite !assign_columns; try done; by rewrite assign_has_col.
Qed.

Lemma impute_steps_Raise (steps : list step) d c :
  (forall s, s ∈ steps -> s ∈ impute_steps) ->
  has_col "Track" d = false -> c ∈ fmap fst steps -> has_col c d = true ->
  run_steps steps d = Raise (KeyError "Track").
Proof.
  intros Hsub Ht. induction steps as [|s steps IH]; intros Hc Hh.
  { by apply elem_of_nil in Hc. }
  rewrite run_steps_cons. unfold guarded.
  destruct (has_col s.1 d) eqn:Hs.
  - pose proof (impute_step_cases s d) as Hcase. rewrite Ht in Hcase.
    rewrite Hcase; [reflexivity | | done]. apply Hsub, list_elem_of_here.
  - simpl. apply IH; [| |done].
    + intros s' Hs'. by apply Hsub, list_elem_of_further.
    + rewrite fmap_cons in Hc. apply elem_of_cons in Hc as [->|Hc]; [congruence|done].
Qed.

End Outcome.

Lemma int_cast_failure_raises `{L : PyLib} (df : DataFrame) c i r :
  c ∈ int_cols -> c ∈ columns df -> (i, r) ∈ rows df ->
  ~ int_castable (get c r) -> clean_df df = Raise TypeError.
Proof.
  intros Hc Hin Hir Hbad. unfold clean_df.
  rewrite clean_steps_run, clean_pipeline_parts, run_steps_app.
  destruct (text_steps_run (replace_special_nulls df)) as (d7 & -> & Hc7 & Hv7).
  rewrite bind_ret_l, run_steps_app.
  rewrite (int_steps_Raise df d7 c i r); [reflexivity | | done | | done | done].
  - intros c0 Hc0. apply Hv7. unfold int_cols, str_cols in *. set_solver.
  - apply has_col_elem. by rewrite Hc7.
Qed.

(** A cell of [StudentID] or [Term] that reads as a number that is not whole
    (the text "12.5", say) stops [clean_df]: the cast to [Int64] raises, no
    frame is returned, and the record is not merely dropped. *)
Theorem clean_df_fractional_id_raises `{L : PyLib} (df : DataFrame) c i r q :
  c ∈ int_cols -> c ∈ columns df -> (i, r) ∈ rows df ->
  to_numeric (replace_null (get c r)) = Some q -> Qden (Qred q) <> 1%positive ->
  exists e, clean_df df = Raise e.
Proof.
  intros Hc Hin Hir Hq Hfrac. exists TypeError.
  apply (int_cast_failure_raises df c i r); [done | done | done |].
  unfold int_castable. rewrite Hq. by intros [? _].
Qed.

Lemma clean_df_fractional_id_raises_witness :
  exists e, clean_df (L := ascii_lib) fractional_id_frame = Raise e.
Proof.
  eapply (clean_df_fractional_id_raises (L := ascii_lib) fractional_id_frame
            "StudentID" 1%Z
            (list_to_map [("Track", VStr "A"); ("StudentID", VStr "12.5")]));
    [compute_done | compute_done | compute_done | vm_compute; reflexivity
    | compute_done].
Defined.

Lemma impute_steps_names `{L : PyLib} : fmap fst impute_steps = imputed_cols.
Proof. done. Qed.

(** Without a [Track] column, [clean_df] raises on a frame that has a score
    column or a boolean column, and returns no frame: the imputation groups
    by [Track] without looking for it. *)
Theorem clean_df_missing_track_raises `{L : PyLib} (df : DataFrame) c :
  "Track" ∉ columns df -> c ∈ imputed_cols -> c ∈ columns df ->
  exists e, clean_df df = Raise e.
Proof.
  intros Ht Hc Hin. unfold clean_df.
  rewrite clean_steps_run, clean_pipeline_parts, run_steps_app.
  destruct (text_steps_run (replace_special_nulls df)) as (d7 & -> & Hc7 & _).
  rewrite bind_ret_l, run_steps_app.
  pose proof writes_pipeline as Hp. rewrite clean_pipeline_parts in Hp.
  apply Forall_app in Hp as [_ Hp]. apply Forall_app in Hp as [Hw _].
  destruct (run_steps [("StudentID", coerce_int "StudentID");
                       ("Term", coerce_int "Term")] d7) as [d9|e] eqn:H9;
    [|by exists e].
  destruct (run_steps_writes _ _ _ Hw H9) as (Hc9 & _ & _).
  rewrite bind_ret_l, run_steps_app.
  destruct (check_steps_run d9) as (d11 & -> & Hc11). rewrite bind_ret_l.
  assert (columns d11 = columns df) as Hcols by (by rewrite Hc11, Hc9, Hc7).
  exists (KeyError "Track").
  rewrite (impute_steps_Raise impute_steps d11 c); [done | done | | |].
  - apply not_true_is_false. intros Hh%has_col_elem. by rewrite Hcols in Hh.
  - by rewrite impute_steps_names.
  - apply has_col_elem. by rewrite Hcols.
Qed.

Lemma clean_df_missing_track_raises_witness :
  exists e, clean_df (L := ascii_lib) no_track_frame = Raise e.
Proof.
  apply (clean_df_missing_track_raises (L := ascii_lib) no_track_frame "Math");
    compute_done.
Defined.

(** ** Deduplication: the keys of the result *)

Lemma keep_first_keys_NoDup seen rs :
  NoDup (fmap (fun ir : Z * row => dup_key ir.2) (keep_first seen rs)).
Proof.
  revert seen. induction rs as [|ir rs IH]; intros seen; simpl; [constructor|].
  case_bool_decide; [apply IH|]. rewrite ?fmap_cons. constructor; [|apply IH].
  intros (ir' & Hk & Hin)%list_elem_of_fmap.
  apply keep_first_key_in in Hin. apply Hin. rewrite <- Hk. apply list_elem_of_here.
Qed.

Lemma keep_first_keys seen rs k :
  k ∈ fmap (fun ir : Z * row => dup_key ir.2) (keep_first seen rs)
  <-> (k ∉ seen) /\ k ∈ fmap (fun ir : Z * row => dup_key ir.2) rs.
Proof.
  revert seen. induction rs as [|ir rs IH]; intros seen; simpl.
  { split; [by intros ?%elem_of_nil | by intros [_ ?%elem_of_nil]]. }
  case_bool_decide as Hseen.
  - rewrite IH, ?fmap_cons, elem_of_cons. split; [naive_solver|].
    intros [Hk [->|Hin]]; [done | by split].
  - rewrite ?fmap_cons, !elem_of_cons, IH, elem_of_cons. split.
    + intros [->|[Hk Hin]]; [by split; [|left]|].
      split; [|by right]. intros Hs. apply Hk. by right.
    + intros [Hk [->|Hin]]; [by left|].
      destruct (decide (k = dup_key ir.2)) as [->|Hne]; [by left|right].
      split; [|done]. by intros [?|?].
Qed.

Lemma sort_index_elem df ir : ir ∈ rows (sort_index df) <-> ir ∈ rows df.
Proof. unfold sort_index. simpl. by rewrite sort_by_perm. Qed.

(** After deduplication no two records have the same
    ([StudentID], [Term], [Track]); every key of the frame is the key of one
    record of the result, every record of the result is a record of the frame,
    and the result is in the order of the index labels. *)
Theorem drop_duplicates_keys_unique (df out : DataFrame) :
  "StudentID" ∈ columns df -> "Term" ∈ columns df ->
  drop_duplicates df = Ok out ->
  NoDup (dup_keys out) /\
  (forall k, k ∈ dup_keys out <-> k ∈ dup_keys df) /\
  (forall ir, ir ∈ rows out -> ir ∈ rows df) /\
  index_sorted out /\
  (length (rows out) <= length (rows df))%nat.
Proof.
  intros H1%has_col_elem H2%has_col_elem Hd.
  pose proof (drop_duplicates_rows _ _ H1 H2 Hd) as Hrows.
  unfold dup_keys, index_sorted. rewrite Hrows.
  split; [apply keep_first_keys_NoDup|]. split; [|split; [|split]].
  - intros k. rewrite keep_first_keys. split.
    + intros [_ (ir & -> & Hin)%list_elem_of_fmap].
      apply list_elem_of_fmap. exists ir. split; [done|].
      by apply sort_index_elem.
    + intros (ir & -> & Hin)%list_elem_of_fmap. split; [by intros ?%elem_of_nil|].
      apply list_elem_of_fmap. exists ir. split; [done|].
      by apply sort_index_elem.
  - intros ir Hin. apply sort_index_elem.
    eapply elem_of_sublist; [exact Hin | apply keep_first_sublist].
  - apply keep_first_sorted, sort_index_sorted.
  - etrans; [apply sublist_length, keep_first_sublist|].
    unfold sort_index. simpl. by rewrite sort_by_perm.
Qed.

Lemma drop_duplicates_keys_unique_witness :
  NoDup (dup_keys sample_dedup)
  /\ ~ NoDup (dup_keys sample_frame)
  /\ length (rows sample_dedup) = 5%nat.
Proof.
  split; [|split; compute_done].
  apply (drop_duplicates_keys_unique sample_frame sample_dedup); compute_done.
Defined.

(** ** The cleaning, cell by cell *)

Section CellByCell.
Context `{L : PyLib}.
Variable df : DataFrame.
Hypothesis Hnd : NoDup (fmap fst (rows df)).

Ltac others :=
  unfold clean_pipeline; simpl; repeat constructor; simpl; discriminate.

Lemma replaced_cells c :
  col_all (cell_is df c replace_null) c (replace_special_nulls df).
Proof.
  unfold col_all, replace_special_nulls. simpl. rewrite Forall_fmap.
  apply Forall_forall. intros [i r0] Hin r Hr. simpl in *.
  rewrite get_replace_null. by rewrite (NoDup_fst_eq _ _ _ _ Hnd Hin Hr).
Qed.

Lemma cell_is_fills c F j v : cell_is df c F j v -> cell_fills df c F j v.
Proof. intros H r Hr _. by apply H. Qed.

Lemma exact_untouched c d' :
  Forall (fun s : step => s.1 <> c) clean_pipeline ->
  run_steps clean_pipeline (replace_special_nulls df) = Ok d' ->
  col_all (cell_is df c replace_null) c d'.
Proof.
  intros Hne Hrun.
  destruct (run_steps_writes _ _ _ writes_pipeline Hrun) as (_ & _ & Hv).
  eapply col_all_col_view; [by apply Hv | apply replaced_cells].
Qed.

Lemma exact_text c d' :
  c ∈ ["FirstName"; "LastName"; "Track"] ->
  has_col c df = true ->
  run_steps clean_pipeline (replace_special_nulls df) = Ok d' ->
  col_all (cell_is df c (fun v => normalize_cell (replace_null v))) c d'.
Proof.
  intros Hc Hh Hrun. change (has_col c (replace_special_nulls df) = true) in Hh.
  assert (forall d1 d2, has_col c d1 = true ->
            col_all (cell_is df c replace_null) c d1 ->
            (pure_step c (normalize_str c)).2 d1 = Ok d2 ->
            columns d2 = columns d1 /\
            col_all (cell_is df c (fun v => normalize_cell (replace_null v))) c d2)
    as Hstep.
  { intros d1 d2. apply normalize_str_step. intros j v Hv r Hr.
    by rewrite (Hv r Hr). }
  pose proof (replaced_cells c) as H0.
  repeat (apply elem_of_cons in Hc as [->|Hc]); [| | |by apply elem_of_nil in Hc].
  - eapply (one_hit 0 _ (cell_is df _ replace_null)); try done; others.
  - eapply (one_hit 1 _ (cell_is df _ replace_null)); try done; others.
  - eapply (one_hit 4 _ (cell_is df _ replace_null)); try done; others.
Qed.

Lemma exact_format (n : nat) p c d' :
  (n = 2%nat /\ c = "Class" /\ p = re_class)
  \/ (n = 3%nat /\ c = "Cohort" /\ p = re_cohort) ->
  has_col c df = true ->
  run_steps clean_pipeline (replace_special_nulls df) = Ok d' ->
  col_all (cell_is df c (fun v => validate_cell p (normalize_cell (replace_null v))))
    c d'.
Proof.
  intros Hcase Hh Hrun. change (has_col c (replace_special_nulls df) = true) in Hh.
  assert (forall d1 d2, has_col c d1 = true ->
            col_all (cell_is df c replace_null) c d1 ->
            (pure_step c (normalize_str c)).2 d1 = Ok d2 ->
            columns d2 = columns d1 /\
            col_all (cell_is df c (fun v => normalize_cell (replace_null v))) c d2)
    as Hstep1.
  { intros d1 d2. apply normalize_str_step. intros j v Hv r Hr.
    by rewrite (Hv r Hr). }
  assert (forall d1 d2, has_col c d1 = true ->
            col_all (cell_is df c (fun v => normalize_cell (replace_null v))) c d1 ->
            (pure_step c (validate_format p c)).2 d1 = Ok d2 ->
            columns d2 = columns d1 /\
            col_all (cell_is df c
                       (fun v => validate_cell p (normalize_cell (replace_null v))))
              c d2)
    as Hstep2.
  { intros d1 d2. apply validate_format_step. intros j v Hv r Hr.
    by rewrite (Hv r Hr). }
  pose proof (replaced_cells c) as H0.
  destruct Hcase as [(-> & -> & ->)|(-> & -> & ->)].
  - eapply (two_hits 2 2 "Class" (cell_is df _ replace_null)
              (cell_is df _ (fun v => normalize_cell (replace_null v))));
      [done | done | done | done | others | others | others
       | exact Hstep1 | exact Hstep2 | done | done | done].
  - eapply (two_hits 3 2 "Cohort" (cell_is df _ replace_null)
              (cell_is df _ (fun v => normalize_cell (replace_null v))));
      [done | done | done | done | others | others | others
       | exact Hstep1 | exact Hstep2 | done | done | done].
Qed.

Lemma int_cell_Ok v v' : astype_Int64 (to_numeric v) = Ok v' -> int_cell v = v'.
Proof. unfold int_cell. by intros ->. Qed.

Lemma exact_student_id d' :
  has_col "StudentID" df = true ->
  run_steps clean_pipeline (replace_special_nulls df) = Ok d' ->
  col_all (cell_is df "StudentID"
             (fun v => student_id_cell (int_cell (replace_null v))))
    "StudentID" d'.
Proof.
  intros Hh Hrun.
  change (has_col "StudentID" (replace_special_nulls df) = true) in Hh.
  eapply (two_hits 7 1 "StudentID" (cell_is df _ replace_null)
            (cell_is df _ (fun v => int_cell (replace_null v))));
    [done | done | done | done | others | others | others | | | done
     | apply replaced_cells | done].
  - intros d1 d2. apply coerce_int_step. intros j v v' Hv Hv' r Hr.
    rewrite (Hv r Hr) in Hv'. by rewrite (int_cell_Ok _ _ Hv').
  - intros d1 d2. apply validate_student_id_step. intros j v Hv r Hr.
    by rewrite (Hv r Hr).
Qed.

Lemma exact_term d' :
  has_col "Term" df = true ->
  run_steps clean_pipeline (replace_special_nulls df) = Ok d' ->
  col_all (cell_is df "Term" (fun v => term_cell (int_cell (replace_null v))))
    "Term" d'.
Proof.
  intros Hh Hrun.
  change (has_col "Term" (replace_special_nulls df) = true) in Hh.
  eapply (two_hits 8 1 "Term" (cell_is df _ replace_null)
            (cell_is df _ (fun v => int_cell (replace_null v))));
    [done | done | done | done | others | others | others | | | done
     | apply replaced_cells | done].
  - intros d1 d2. apply coerce_int_step. intros j v v' Hv Hv' r Hr.
    rewrite (Hv r Hr) in Hv'. by rewrite (int_cell_Ok _ _ Hv').
  - intros d1 d2. apply validate_term_step. intros j v Hv r Hr.
    by rewrite (Hv r Hr).
Qed.

Lemma fills_score_step c d1 d2 :
  has_col c d1 = true -> col_all (cell_is df c replace_null) c d1 ->
  clean_score c d1 = Ok d2 ->
  columns d2 = columns d1 /\
  col_all (cell_fills df c (fun v => score_cell (replace_null v))) c d2.
Proof.
  intros Hc H1 Hs. split; [by apply (clean_score_ok c d1 d2)|].
  destruct (clean_score_Ok _ _ _ Hc Hs) as [_ ->].
  set (d3 := assign c _ d1).
  assert (col_all (cell_is df c (fun v => score_cell (replace_null v))) c d3) as H3.
  { apply (assign_local score_cell (cell_is df c replace_null)); [|done].
    intros j v Hv r Hr. by rewrite (Hv r Hr). }
  apply assign_col_all. intros ir Hir r Hr Hna.
  rewrite (col_all_elem _ _ _ _ H3 Hir r Hr).
  by destruct (score_cell (replace_null (get c r))).
Qed.

Lemma exact_score c d' :
  c ∈ score_cols -> has_col c df = true ->
  run_steps clean_pipeline (replace_special_nulls df) = Ok d' ->
  col_all (cell_fills df c (fun v => score_cell (replace_null v))) c d'.
Proof.
  intros Hc Hh Hrun. change (has_col c (replace_special_nulls df) = true) in Hh.
  pose proof (fills_score_step c) as Hstep.
  pose proof (replaced_cells c) as H0.
  unfold score_cols in Hc.
  repeat (apply elem_of_cons in Hc as [->|Hc]); [| | | | | |by apply elem_of_nil in Hc].
  - eapply (one_hit 11 _ (cell_is df _ replace_null)); try done; others.
  - eapply (one_hit 12 _ (cell_is df _ replace_null)); try done; others.
  - eapply (one_hit 13 _ (cell_is df _ replace_null)); try done; others.
  - eapply (one_hit 14 _ (cell_is df _ replace_null)); try done; others.
  - eapply (one_hit 15 _ (cell_is df _ replace_null)); try done; others.
  - eapply (one_hit 16 _ (cell_is df _ replace_null)); try done; others.
Qed.

Lemma fills_bool_step c d1 d2 :
  has_col c d1 = true -> col_all (cell_is df c replace_null) c d1 ->
  clean_bool c d1 = Ok d2 ->
  columns d2 = columns d1 /\
  col_all (cell_fills df c (fun v => decode_bool (replace_null v))) c d2.
Proof.
  intros Hc H1 Hs. split; [by apply (clean_bool_ok c d1 d2)|].
  destruct (clean_bool_Ok _ _ _ Hc Hs) as [_ ->].
  unfold decode_bools. set (d3 := assign c _ d1).
  assert (col_all (cell_is df c (fun v => decode_bool (replace_null v))) c d3) as H3.
  { apply (assign_local decode_bool (cell_is df c replace_null)); [|done].
    intros j v Hv r Hr. by rewrite (Hv r Hr). }
  apply assign_col_all. intros ir Hir r Hr Hna.
  rewrite (col_all_elem _ _ _ _ H3 Hir r Hr).
  by destruct (decode_bool (replace_null (get c r))).
Qed.

Lemma exact_bool c d' :
  c ∈ boolean_cols -> has_col c df = true ->
  run_steps clean_pipeline (replace_special_nulls df) = Ok d' ->
  col_all (cell_fills df c (fun v => decode_bool (replace_null v))) c d'.
Proof.
  intros Hc Hh Hrun. change (has_col c (replace_special_nulls df) = true) in Hh.
  pose proof (fills_bool_step c) as Hstep.
  pose proof (replaced_cells c) as H0.
  unfold boolean_cols in Hc.
  repeat (apply elem_of_cons in Hc as [->|Hc]); [| |by apply elem_of_nil in Hc].
  - eapply (one_hit 17 _ (cell_is df _ replace_null)); try done; others.
  - eapply (one_hit 18 _ (cell_is df _ replace_null)); try done; others.
Qed.

End CellByCell.

Section CellWiseCleaning.
Context `{L : PyLib}.

Lemma cell_is_ext df c (F G : cell -> cell) d :
  (forall v, F v = G v) -> col_all (cell_is df c F) c d -> col_all (cell_is df c G) c d.
Proof.
  intros Hext. apply col_all_impl. intros j v Hv r Hr. rewrite <- Hext. by apply Hv.
Qed.

Lemma cell_fills_ext df c (F G : cell -> cell) d :
  (forall v, F v = G v) ->
  col_all (cell_fills df c F) c d -> col_all (cell_fills df c G) c d.
Proof.
  intros Hext. apply col_all_impl. intros j v Hv r Hr. rewrite <- !Hext. by apply Hv.
Qed.

Lemma cell_is_fills_all df c F d :
  col_all (cell_is df c F) c d -> col_all (cell_fills df c F) c d.
Proof. apply col_all_impl. intros j v. apply cell_is_fills. Qed.

(** The cells of one column after the steps. *)
Lemma cleaned_column df c d' :
  NoDup (fmap fst (rows df)) -> c ∈ columns df ->
  run_steps clean_pipeline (replace_special_nulls df) = Ok d' ->
  (c ∉ imputed_cols -> col_all (cell_is df c (clean_cell c)) c d')
  /\ col_all (cell_fills df c (clean_cell c)) c d'.
Proof.
  intros Hnd Hc%has_col_elem Hrun.
  assert (forall F, col_all (cell_is df c F) c d' -> (forall v, F v = clean_cell c v) ->
            (c ∉ imputed_cols -> col_all (cell_is df c (clean_cell c)) c d')
            /\ col_all (cell_fills df c (clean_cell c)) c d') as Hexact.
  { intros F HF Hext. split; [intros _|apply cell_is_fills_all];
      by apply (cell_is_ext df c F). }
  destruct (decide (c = "Class")) as [->|H1].
  { apply (Hexact _ (exact_format df Hnd 2 re_class "Class" d'
                       ltac:(by left) Hc Hrun)). done. }
  destruct (decide (c = "Cohort")) as [->|H2].
  { apply (Hexact _ (exact_format df Hnd 3 re_cohort "Cohort" d'
                       ltac:(by right) Hc Hrun)). done. }
  destruct (decide (c ∈ str_cols)) as [H3|H3].
  { assert (c ∈ ["FirstName"; "LastName"; "Track"]) as H3'.
    { unfold str_cols in H3.
      repeat (apply elem_of_cons in H3 as [->|H3]); try done;
        try compute_done. by apply elem_of_nil in H3. }
    apply (Hexact _ (exact_text df Hnd c d' H3' Hc Hrun)).
    intros v. unfold clean_cell.
    by rewrite !bool_decide_eq_false_2, bool_decide_eq_true_2 by done. }
  destruct (decide (c = "StudentID")) as [->|H4].
  { apply (Hexact _ (exact_student_id df Hnd d' Hc Hrun)). done. }
  destruct (decide (c = "Term")) as [->|H5].
  { apply (Hexact _ (exact_term df Hnd d' Hc Hrun)). done. }
  destruct (decide (c ∈ score_cols)) as [H6|H6].
  { split; [intros []; apply elem_of_app; by left|].
    apply (cell_fills_ext df c (fun v => score_cell (replace_null v)) _ d');
      [|by apply exact_score].
    intros v. unfold clean_cell.
    by rewrite !bool_decide_eq_false_2, bool_decide_eq_true_2 by done. }
  destruct (decide (c ∈ boolean_cols)) as [H7|H7].
  { split; [intros []; apply elem_of_app; by right|].
    apply (cell_fills_ext df c (fun v => decode_bool (replace_null v)) _ d');
      [|by apply exact_bool].
    intros v. unfold clean_cell.
    by rewrite !bool_decide_eq_false_2, bool_decide_eq_true_2 by done. }
  apply (Hexact replace_null).
  - apply exact_untouched; [done| |done].
    unfold clean_pipeline. simpl.
    repeat (first [apply Forall_nil_2 | apply Forall_cons_2]); simpl;
      intros <-;
      first [ done
            | by destruct H3; compute_done
            | by destruct H6; compute_done
            | by destruct H7; compute_done ].
  - intros v. unfold clean_cell. by rewrite !bool_decide_eq_false_2 by done.
Qed.

Lemma complete_true cols (r : row) :
  (forall c, c ∈ cols -> get c r <> NA) -> complete cols r = true.
Proof.
  intros H. unfold complete. apply forallb_forall. intros c Hc%list_elem_of_In.
  specialize (H c Hc). by destruct (get c r).
Qed.

End CellWiseCleaning.

Lemma clean_steps_cells `{L : PyLib} (df d : DataFrame) :
  clean_steps df = Ok d -> NoDup (fmap fst (rows df)) ->
  forall i r, (i, r) ∈ rows df ->
  exists r', (i, r') ∈ rows d /\
    forall c, c ∈ columns df ->
      (c ∉ imputed_cols -> get c r' = clean_cell c (get c r)) /\
      (clean_cell c (get c r) <> NA -> get c r' = clean_cell c (get c r)).
Proof.
  intros Hd Hnd i r Hir.
  destruct (clean_steps_frame _ _ Hd) as [_ Hidx].
  rewrite clean_steps_run in Hd.
  assert (i ∈ fmap fst (rows d)) as Hi.
  { rewrite Hidx. apply list_elem_of_fmap. by exists (i, r). }
  apply list_elem_of_fmap in Hi as ([j r'] & Hj & Hr'). simpl in Hj. subst j.
  exists r'. split; [done|]. intros c Hc.
  destruct (cleaned_column df c d Hnd Hc Hd) as [Hexact Hfill]. split.
  - intros Hne. exact (col_all_elem _ _ _ _ (Hexact Hne) Hr' r Hir).
  - intros Hna. exact (col_all_elem _ _ _ _ Hfill Hr' r Hir Hna).
Qed.

(** Before the incomplete records are dropped, the steps of [clean_df] keep
    every record under its label, and they clean cell by cell: in a column
    that is not imputed the cleaned cell depends on the raw cell alone (it is
    [clean_cell] of it), whatever the other cells and records are; in an
    imputed column this holds for every cell that cleans to a value, so that
    imputation touches missing cells only. *)
Theorem clean_steps_cell_by_cell `{L : PyLib} (df d : DataFrame) :
  clean_steps df = Ok d -> NoDup (fmap fst (rows df)) ->
  forall i r, (i, r) ∈ rows df ->
  exists r', (i, r') ∈ rows d /\
    forall c, c ∈ columns df ->
      (c ∉ imputed_cols -> get c r' = clean_cell c (get c r)) /\
      (clean_cell c (get c r) <> NA -> get c r' = clean_cell c (get c r)).
Proof. exact (clean_steps_cells df d). Qed.

Lemma clean_steps_cell_by_cell_witness :
  exists r',
    clean_steps (L := ascii_lib) sample_frame = Ok sample_steps
    /\ (0%Z, r') ∈ rows sample_steps
    /\ get "Class" r' = VStr "10A" /\ get "Track" r' = VStr "Beta".
Proof.
  destruct (clean_steps_cell_by_cell (L := ascii_lib) sample_frame sample_steps
              ltac:(compute_done) ltac:(compute_done) 0%Z first_record
              ltac:(compute_done)) as (r' & Hr' & Hcells).
  exists r'. split; [compute_done|]. split; [exact Hr'|].
  split.
  - rewrite (proj1 (Hcells "Class" ltac:(compute_done)) ltac:(compute_done)).
    compute_done.
  - rewrite (proj1 (Hcells "Track" ltac:(compute_done)) ltac:(compute_done)).
    compute_done.
Defined.

(** A record whose every cell cleans to a value is in the frame that
    [clean_df] returns, under its label and with its cleaned cells: cleaning
    never drops it and never imputes into it. *)
Theorem clean_df_keeps_valid_record `{L : PyLib} (df out : DataFrame) i r :
  clean_df df = Ok out -> NoDup (fmap fst (rows df)) -> (i, r) ∈ rows df ->
  Forall (fun c => clean_cell c (get c r) <> NA) (columns df) ->
  exists r', (i, r') ∈ rows out /\
    forall c, c ∈ columns df -> get c r' = clean_cell c (get c r).
Proof.
  intros (d & Hd & ->)%clean_df_Ok Hnd Hir Hvalid.
  rewrite Forall_forall in Hvalid.
  destruct (clean_steps_frame _ _ Hd) as [Hcols _].
  destruct (clean_steps_cells df d Hd Hnd i r Hir) as (r' & Hr' & Hcells).
  assert (forall c, c ∈ columns df -> get c r' = clean_cell c (get c r)) as Heq.
  { intros c Hc. apply (proj2 (Hcells c Hc)). by apply Hvalid. }
  exists r'. split; [|done].
  apply elem_of_dropna. split; [|done]. simpl. apply complete_true.
  intros c Hc. rewrite Hcols in Hc. rewrite (Heq c Hc). by apply Hvalid.
Qed.

Lemma clean_df_keeps_valid_record_witness :
  exists r', (0%Z, r') ∈ rows sample_clean /\
    forall c, c ∈ columns sample_frame ->
      get c r' = clean_cell (L := ascii_lib) c (get c first_record).
Proof.
  apply (clean_df_keeps_valid_record (L := ascii_lib) sample_frame sample_clean);
    compute_done.
Defined.

(** A record with a cell that cleans to a missing cell, in a column that is
    not imputed, is not in the frame that [clean_df] returns: a null marker as
    a name, a [Class] or a [Cohort] that does not match its pattern, a
    [StudentID] that is not four digits from 1000 on, a [Term] other than 1
    and 2. *)
Theorem clean_df_drops_invalid_record `{L : PyLib} (df out : DataFrame) i r c :
  clean_df df = Ok out -> NoDup (fmap fst (rows df)) -> (i, r) ∈ rows df ->
  c ∈ columns df -> c ∉ imputed_cols -> clean_cell c (get c r) = NA ->
  i ∉ fmap fst (rows out).
Proof.
  intros (d & Hd & ->)%clean_df_Ok Hnd Hir Hc Hne Hna.
  destruct (clean_steps_frame _ _ Hd) as [Hcols Hidx].
  destruct (clean_steps_cells df d Hd Hnd i r Hir) as (r' & Hr' & Hcells).
  apply (dropped_not_in d i r'); [by rewrite Hidx | done |].
  apply (complete_false _ _ c); [by rewrite Hcols|].
  by rewrite (proj1 (Hcells c Hc) Hne).
Qed.

Lemma clean_df_drops_invalid_record_witness :
  4%Z ∉ fmap fst (rows sample_clean).
Proof.
  apply (clean_df_drops_invalid_record (L := ascii_lib) sample_frame sample_clean
           4%Z leading_zero_record "StudentID"); compute_done.
Defined.

(** ** The tables of averages *)

Lemma mapR_fmap {A B} (f : A -> result B) (g : A -> B) (l : list A) :
  Forall (fun x => f x = Ok (g x)) l -> mapR f l = Ok (fmap g l).
Proof.
  induction 1 as [|x l Hx _ IH]; simpl; [done|]. by rewrite Hx, IH.
Qed.

Lemma num_of_not_text v : not_text v -> num_of v = Ok (num_rank v).
Proof. by destruct v. Qed.

Lemma omap_id_fmap {A B} (f : A -> option B) (l : list A) :
  omap id (fmap f l) = omap f l.
Proof.
  induction l as [|x l IH]; [done|].
  rewrite fmap_cons, !omap_cons, IH. simpl. by destruct (f x).
Qed.

Lemma agg_mean_value c (g : list (Z * row)) :
  Forall (fun ir : Z * row => not_text (get c ir.2)) g ->
  agg_mean c g = Ok (group_mean c g).
Proof.
  intros Hg. unfold agg_mean, group_mean.
  rewrite (mapR_fmap _ (fun ir : Z * row => num_rank (get c ir.2))).
  - simpl. by rewrite omap_id_fmap.
  - eapply Forall_impl; [exact Hg|]. intros ir. apply num_of_not_text.
Qed.

Lemma filter_absent_nil (cs : list string) df :
  Forall (fun c => c ∈ columns df) cs -> filter (fun c => c ∉ columns df) cs = [].
Proof.
  induction 1 as [|c cs Hc _ IH]; [done|].
  rewrite filter_cons_False by (intros Hn; by apply Hn). done.
Qed.

Lemma group_means_rows (key : string) (cs : list string) (df : DataFrame) :
  key ∈ columns df ->
  Forall (fun c => c ∈ columns df) cs ->
  Forall (fun c => Forall (fun ir : Z * row => not_text (get c ir.2)) (rows df)) cs ->
  group_means key cs df
  = Ok {| header := key :: cs;
          body := fmap (fun k => (k, fmap (fun c => group_mean c
                                             (group_rows key k (rows df))) cs))
                    (group_keys key true df) |}.
Proof.
  intros Hkey%has_col_elem Hcs Hnum. unfold group_means, groupby.
  rewrite Hkey. rewrite bind_ret_l, (filter_absent_nil _ _ Hcs).
  rewrite (mapR_fmap _ (fun kg : cell * list (Z * row) =>
                          (kg.1, fmap (fun c => group_mean c kg.2) cs))).
  - simpl. f_equal. f_equal. rewrite <- list_fmap_compose. done.
  - apply Forall_forall. intros [k g] (k' & [= -> ->] & _)%list_elem_of_fmap.
    simpl. rewrite (mapR_fmap _ (fun c => group_mean c
                                            (group_rows key k' (rows df)))); [done|].
    eapply Forall_impl; [exact Hnum|]. intros c Hc. simpl in Hc.
    apply agg_mean_value. by apply Forall_filter_keep.
Qed.


(** ** The report on a cleaned frame *)

Section Report.
Context `{L : PyLib}.

Lemma cleaned_frame_rows df ir :
  cleaned_frame df -> ir ∈ rows df ->
  (forall c, c ∈ columns df -> get c ir.2 <> NA) /\
  (forall c, c ∈ score_cols -> c ∈ columns df ->
     exists q, get c ir.2 = VFloat q /\ in_range q) /\
  (forall c, c ∈ boolean_cols -> c ∈ columns df -> exists b, get c ir.2 = VBool b).
Proof.
  intros (raw & d & Hclean & Hdd) Hir.
  pose proof (drop_duplicates_columns _ _ Hdd) as Hcols.
  pose proof (drop_duplicates_elem _ _ _ Hdd Hir) as Hin.
  destruct (clean_df_cells _ _ _ Hclean Hin) as (Hna & Hscore & Hbool & _).
  rewrite Hcols. auto.
Qed.

Lemma cleaned_frame_not_text df c :
  cleaned_frame df -> c ∈ imputed_cols -> c ∈ columns df ->
  Forall (fun ir : Z * row => not_text (get c ir.2)) (rows df).
Proof.
  intros Hclean Hc Hin. apply Forall_forall. intros ir Hir.
  destruct (cleaned_frame_rows df ir Hclean Hir) as (_ & Hscore & Hbool).
  apply elem_of_app in Hc as [Hc|Hc].
  - by destruct (Hscore c Hc Hin) as (q & -> & _).
  - by destruct (Hbool c Hc Hin) as (b & ->).
Qed.

Lemma filter_nil_Forall {A} (P : A -> Prop) `{!forall x, Decision (P x)} (l : list A) :
  filter P l = [] -> Forall (fun x => ~ P x) l.
Proof.
  induction l as [|x l IH]; [constructor|].
  destruct (decide (P x)) as [Hx|Hx].
  - by rewrite filter_cons_True.
  - rewrite filter_cons_False by done. intros ?. constructor; [done | by apply IH].
Qed.

Lemma group_means_Ok_inv key cs df t :
  group_means key cs df = Ok t ->
  key ∈ columns df /\ Forall (fun c => c ∈ columns df) cs.
Proof.
  intros Ht. split; [by apply (group_means_keys _ _ _ _ Ht)|].
  unfold group_means in Ht. apply bind_Ok in Ht as (gs & _ & Ht).
  destruct (filter _ cs) as [|c l] eqn:Hf; [|done].
  apply filter_nil_Forall in Hf. eapply Forall_impl; [exact Hf|].
  intros c Hc. simpl in Hc. by destruct (decide (c ∈ columns df)).
Qed.

Lemma elem_of_group_keys key drop_na df k :
  k ∈ group_keys key drop_na df
  <-> k ∈ key_column key df /\ (drop_na = false \/ k <> NA).
Proof.
  unfold group_keys. rewrite sort_by_perm, elem_of_unique, list_elem_of_filter.
  tauto.
Qed.

Lemma group_rows_nonempty key k df :
  k ∈ key_column key df -> exists ir, ir ∈ group_rows key k (rows df).
Proof.
  intros (ir & -> & Hir)%list_elem_of_fmap. exists ir.
  by apply list_elem_of_filter.
Qed.

(** The mean of a column of numbers in an interval, over a group that is not
    empty. *)
Lemma group_mean_bounds lo hi c (g : list (Z * row)) :
  g <> [] ->
  Forall (fun ir : Z * row =>
            exists q, num_rank (get c ir.2) = Some q /\ (lo <= q)%Q /\ (q <= hi)%Q) g ->
  exists m, group_mean c g = VFloat m /\ (lo <= m)%Q /\ (m <= hi)%Q.
Proof.
  intros Hne Hall. unfold group_mean.
  set (vs := omap (fun ir : Z * row => num_rank (get c ir.2)) g).
  assert (Forall (fun q => lo <= q /\ q <= hi)%Q vs /\ length vs = length g) as [Hvs Hlen].
  { unfold vs. clear Hne. induction Hall as [|ir g (q & Hq & Hb) _ [IH1 IH2]]; [done|].
    rewrite omap_cons, Hq. split; [by constructor | simpl; by rewrite IH2]. }
  destruct (mean vs) as [m|] eqn:Hm.
  - exists m. split; [done|]. by apply (mean_bounds lo hi vs).
  - apply mean_nil_iff in Hm. rewrite Hm in Hlen. by destruct g.
Qed.

Lemma means_table_range key cs df u k vs v :
  cleaned_frame df -> Forall (fun c => c ∈ score_cols) cs ->
  group_means key cs df = Ok u ->
  (k, vs) ∈ body (round_numeric u) -> v ∈ vs ->
  exists q, v = VFloat q /\ in_range q.
Proof.
  intros Hclean Hcs Hu Hk Hv.
  destruct (group_means_Ok_inv _ _ _ _ Hu) as [Hkey Hin].
  rewrite (group_means_rows key cs df) in Hu; [|done|done|].
  2:{ apply Forall_forall. intros c Hc. rewrite Forall_forall in Hcs, Hin.
      apply cleaned_frame_not_text; [done| |by apply Hin].
      apply elem_of_app. left. by apply Hcs. }
  injection Hu as <-. unfold round_numeric in Hk. simpl in Hk.
  rewrite <- list_fmap_compose in Hk.
  apply list_elem_of_fmap in Hk as (k' & [= -> ->] & Hk'). simpl in Hv.
  rewrite <- list_fmap_compose in Hv.
  apply list_elem_of_fmap in Hv as (c & -> & Hc). simpl.
  apply elem_of_group_keys in Hk' as [Hk' _].
  destruct (group_rows_nonempty _ _ _ Hk') as [ir0 Hir0].
  destruct (group_mean_bounds 0 100 c (group_rows key k' (rows df)))
    as (m & -> & Hm).
  - intros Hnil. rewrite Hnil in Hir0. by apply elem_of_nil in Hir0.
  - apply Forall_filter_keep, Forall_forall. intros ir Hir.
    destruct (cleaned_frame_rows df ir Hclean Hir) as (_ & Hscore & _).
    rewrite Forall_forall in Hcs, Hin.
    destruct (Hscore c (Hcs c Hc) (Hin c Hc)) as (q & -> & Hq). by exists q.
  - simpl. exists (round1 m). split; [done|]. by apply round1_in_range.
Qed.

Lemma pass_table_range key name df u k vs v :
  cleaned_frame df ->
  GroupStatistics.pass_rate key name df = Ok u ->
  (k, vs) ∈ body (round_numeric u) -> v ∈ vs ->
  exists q, v = VFloat q /\ in_range q.
Proof.
  intros Hclean Hu Hk Hv. unfold GroupStatistics.pass_rate in Hu.
  apply bind_Ok in Hu as (t & Ht & [= <-]).
  destruct (group_means_Ok_inv _ _ _ _ Ht) as [Hkey Hin].
  apply Forall_cons in Hin as [Hin _].
  rewrite (group_means_rows key ["Passed (Y/N)"] df) in Ht; [|done| |].
  2:{ by repeat constructor. }
  2:{ repeat constructor. apply cleaned_frame_not_text; [done| |done].
      compute_done. }
  injection Ht as <-. unfold round_numeric in Hk. simpl in Hk.
  rewrite <- !list_fmap_compose in Hk.
  apply list_elem_of_fmap in Hk as (k' & [= -> ->] & Hk'). simpl in Hv.
  apply list_elem_of_singleton in Hv as ->.
  apply elem_of_group_keys in Hk' as [Hk' _].
  destruct (group_rows_nonempty _ _ _ Hk') as [ir0 Hir0].
  destruct (group_mean_bounds 0 1 "Passed (Y/N)" (group_rows key k' (rows df)))
    as (m & -> & Hm0 & Hm1).
  - intros Hnil. rewrite Hnil in Hir0. by apply elem_of_nil in Hir0.
  - apply Forall_filter_keep, Forall_forall. intros ir Hir.
    destruct (cleaned_frame_rows df ir Hclean Hir) as (_ & _ & Hbool).
    destruct (Hbool "Passed (Y/N)" ltac:(compute_done) Hin) as (b & ->).
    destruct b; simpl; eexists; (split; [done|]); split; done.
  - simpl. exists (round1 (m * 100)). split; [done|]. apply round1_in_range.
    split; lra.
Qed.

End Report.

(** ** The correlation lies between -100 and 100 *)

Lemma square_le_nonneg (x y : Q) : (x * x <= y * y)%Q -> (0 <= y)%Q -> (x <= y)%Q.
Proof.
  intros Hxy Hy. destruct (Qlt_le_dec y x) as [Hlt|]; [|done]. exfalso. nra.
Qed.

Lemma Qsum_cons (h : Q) (t : list Q) : Qsum (h :: t) = (h + Qsum t)%Q.
Proof. done. Qed.

(** Cauchy and Schwarz, on the deviations from two numbers. *)
Lemma sum_products_square (a b : Q) (ps : list (Q * Q)) :
  let S := Qsum (fmap (fun p : Q * Q => ((p.1 - a) * (p.2 - b))%Q) ps) in
  let A := Qsum (fmap (fun p : Q * Q => ((p.1 - a) * (p.1 - a))%Q) ps) in
  let B := Qsum (fmap (fun p : Q * Q => ((p.2 - b) * (p.2 - b))%Q) ps) in
  (0 <= A)%Q /\ (0 <= B)%Q /\ (S * S <= A * B)%Q.
Proof.
  induction ps as [|[x y] ps (HA & HB & IH)].
  { simpl. split; [done|]. split; [done|]. lra. }
  cbv zeta. rewrite !fmap_cons, !Qsum_cons. cbn [fst snd].
  set (S := Qsum (fmap (fun p : Q * Q => ((p.1 - a) * (p.2 - b))%Q) ps)) in *.
  set (A := Qsum (fmap (fun p : Q * Q => ((p.1 - a) * (p.1 - a))%Q) ps)) in *.
  set (B := Qsum (fmap (fun p : Q * Q => ((p.2 - b) * (p.2 - b))%Q) ps)) in *.
  clearbody S A B. generalize (x - a)%Q (y - b)%Q. intros u v.
  split; [nra|]. split; [nra|].
  assert (2 * (u * v) * S <= u * u * B + v * v * A)%Q as Hmix.
  { apply square_le_nonneg; [|nra].
    assert (0 <= (u * u * B - v * v * A) * (u * u * B - v * v * A))%Q
      by (generalize (u * u * B - v * v * A)%Q; intros w; nra).
    assert (0 <= u * u * (v * v) * (A * B - S * S))%Q as Hpos.
    { apply Qmult_le_0_compat; [|lra].
      apply Qmult_le_0_compat; nra. }
    nra. }
  nra.
Qed.

Lemma sum_dev_products_square (ps : list (Q * Q)) :
  (sum_dev_products ps * sum_dev_products ps
   <= sum_sq_dev (fmap fst ps) * sum_sq_dev (fmap snd ps))%Q.
Proof.
  rewrite !sum_sq_dev_eq, !length_fmap, <- !list_fmap_compose.
  unfold sum_dev_products.
  apply (sum_products_square
           (Qsum (fmap fst ps) / inject_Z (Z.of_nat (length ps)))
           (Qsum (fmap snd ps) / inject_Z (Z.of_nat (length ps))) ps).
Qed.

Lemma round_sqrt_le (t : Q) (n : Z) :
  (0 <= t)%Q -> (0 <= n)%Z -> (t <= inject_Z n * inject_Z n)%Q ->
  (round_sqrt t <= n)%Z.
Proof.
  intros Ht Hn Htn. destruct (round_sqrt_spec t Ht) as (Hk & [Hk0|Hlo] & _); [lia|].
  set (k := round_sqrt t) in *.
  destruct (Z_le_gt_dec k n) as [|Hgt]; [done|]. exfalso.
  assert (inject_Z n + 1 <= inject_Z k)%Q as Hnk.
  { change 1%Q with (inject_Z 1). rewrite <- inject_Z_plus, <- Zle_Qle. lia. }
  assert (0 <= inject_Z n)%Q as Hn'.
  { change 0%Q with (inject_Z 0). by rewrite <- Zle_Qle. }
  nra.
Qed.

Lemma round1_surd_bounded (s : surd) :
  (0 < surd_rad s)%Q -> (surd_num s * surd_num s <= 10000 * surd_rad s)%Q ->
  (-100 <= round1_surd s)%Q /\ (round1_surd s <= 100)%Q.
Proof.
  intros Hd Hs. unfold round1_surd.
  set (y := (10 * surd_num s)%Q) in *. set (d := surd_rad s) in *.
  assert (0 <= y * y / d)%Q as Ht.
  { apply Qle_shift_div_l; [done|]. nra. }
  assert (y * y / d <= inject_Z 1000 * inject_Z 1000)%Q as Hle.
  { apply Qle_shift_div_r; [done|]. change (inject_Z 1000) with 1000%Q.
    unfold y. nra. }
  pose proof (round_sqrt_le _ 1000 Ht ltac:(lia) Hle) as Hk.
  destruct (round_sqrt_spec _ Ht) as (Hk0 & _).
  set (k := round_sqrt (y * y / d)) in *.
  rewrite Qred_correct.
  assert (forall z : Z, (-1000 <= z <= 1000)%Z ->
            (-100 <= z # 10)%Q /\ (z # 10 <= 100)%Q) as Hz.
  { intros z [H1 H2]. unfold Qle. simpl. lia. }
  destruct (Qle_bool 0 y); apply Hz; lia.
Qed.

(** A correlation of the table is missing or lies between -100 and 100, on
    every frame for which the table is computed. *)
Theorem correlation_bounded (df : DataFrame) (rs : list (cell * option surd)) :
  TrackStatistics.corr_attendance_project df = Ok rs ->
  forall k cs, (k, cs) ∈ body (round_corr rs) ->
    cs = [NA] \/ exists v, cs = [VFloat v] /\ (-100 <= v)%Q /\ (v <= 100)%Q.
Proof.
  intros Hrs k cs ((k' & o) & [= -> ->] & Hin)%list_elem_of_fmap. simpl.
  unfold TrackStatistics.corr_attendance_project in Hrs.
  apply bind_Ok in Hrs as (gs & _ & Hrs). apply mapR_Ok in Hrs.
  destruct (Forall2_elem_r _ _ _ _ Hrs Hin) as (kg & _ & Hf).
  destruct (filter _ _); [|done].
  apply bind_Ok in Hf as (ps & _ & [= _ <-]).
  unfold pearson. destruct ps as [|p ps]; [by left|].
  set (D := (sum_sq_dev (fmap fst (p :: ps)) * sum_sq_dev (fmap snd (p :: ps)))%Q).
  destruct (Qeq_bool D 0) eqn:HD; [by left|]. right. simpl.
  eexists. split; [done|]. apply round1_surd_bounded; simpl.
  - assert (0 <= D)%Q as H0.
    { apply Qmult_le_0_compat; apply sum_sq_dev_nonneg. }
    destruct (Qlt_le_dec 0 D) as [|Hle]; [done|].
    assert (D == 0)%Q as Heq by lra. apply Qeq_bool_iff in Heq. congruence.
  - pose proof (sum_dev_products_square (p :: ps)) as Hcs. fold D in Hcs.
    set (S := sum_dev_products (p :: ps)) in *. nra.
Qed.

Lemma correlation_bounded_witness :
  round_corr <$> TrackStatistics.corr_attendance_project sample_cleaned
  = Ok {| header := ["Track"; "Correlation (%)"];
          body := [(VStr "Alpha", [NA]); (VStr "Beta", [VFloat 100])] |}
  /\ ([VFloat 100] = [NA]
      \/ exists v, [VFloat 100] = [VFloat v] /\ (-100 <= v)%Q /\ (v <= 100)%Q).
Proof.
  split; [compute_done|].
  apply (correlation_bounded sample_cleaned
           (match TrackStatistics.corr_attendance_project sample_cleaned with
            | Ok rs => rs | Raise _ => [] end)
           ltac:(compute_done) (VStr "Beta")).
  compute_done.
Defined.

(** ** The report as a whole *)

Section WholeReport.
Context `{L : PyLib}.

Lemma nb_students_total key df :
  key ∈ columns df -> exists t, GroupStatistics.nb_students key df = Ok t.
Proof.
  intros Hk%has_col_elem. unfold GroupStatistics.nb_students, value_counts.
  rewrite Hk. simpl. by eexists.
Qed.

Lemma means_total key cs df :
  cleaned_frame df -> key ∈ columns df ->
  Forall (fun c => c ∈ imputed_cols) cs -> Forall (fun c => c ∈ columns df) cs ->
  exists t, group_means key cs df = Ok t.
Proof.
  intros Hclean Hkey Hcs Hin. rewrite (group_means_rows key cs df); [by eexists|done|done|].
  apply Forall_forall. intros c Hc. rewrite Forall_forall in Hcs, Hin.
  apply cleaned_frame_not_text; [done | by apply Hcs | by apply Hin].
Qed.

Lemma pass_rate_total key name df :
  cleaned_frame df -> key ∈ columns df -> "Passed (Y/N)" ∈ columns df ->
  exists t, GroupStatistics.pass_rate key name df = Ok t.
Proof.
  intros Hclean Hkey Hp. unfold GroupStatistics.pass_rate.
  destruct (means_total key ["Passed (Y/N)"] df Hclean Hkey) as [t ->].
  - apply Forall_cons_2; [compute_done | apply Forall_nil_2].
  - apply Forall_cons_2; [done | apply Forall_nil_2].
  - simpl. by eexists.
Qed.

Lemma corr_total df :
  cleaned_frame df -> "Track" ∈ columns df -> "Attendance (%)" ∈ columns df ->
  "ProjectScore" ∈ columns df ->
  exists rs, TrackStatistics.corr_attendance_project df = Ok rs.
Proof.
  intros Hclean HT HA HP.
  assert (Forall (fun ir : Z * row =>
            exists x y, get "Attendance (%)" ir.2 = VFloat x
                        /\ get "ProjectScore" ir.2 = VFloat y) (rows df))
    as Hfloat.
  { apply Forall_forall. intros ir Hir.
    destruct (cleaned_frame_rows df ir Hclean Hir) as (_ & Hscore & _).
    destruct (Hscore "Attendance (%)" ltac:(compute_done) HA) as (x & Hx & _).
    destruct (Hscore "ProjectScore" ltac:(compute_done) HP) as (y & Hy & _).
    eauto. }
  unfold TrackStatistics.corr_attendance_project, groupby.
  apply has_col_elem in HT. rewrite HT, bind_ret_l.
  rewrite (filter_absent_nil ["Attendance (%)"; "ProjectScore"] df)
    by (by repeat constructor).
  apply mapR_total, Forall_forall.
  intros [k g] (k' & [= -> ->] & _)%list_elem_of_fmap. simpl.
  destruct (pairs_of_floats "Attendance (%)" "ProjectScore"
              (group_rows "Track" k' (rows df))) as (ps & -> & _).
  { by apply Forall_filter_keep. }
  simpl. by eexists.
Qed.

End WholeReport.

Lemma compute_all_stats_Ok `{L : PyLib} (df : DataFrame) :
  cleaned_frame df -> Forall (fun c => c ∈ columns df) report_cols ->
  exists stats, compute_all_stats df = Ok stats /\ fmap fst stats = table_names.
Proof.
  intros Hclean Hcols. rewrite Forall_forall in Hcols.
  assert (forall c, c ∈ report_cols -> c ∈ columns df) as Hc by done.
  assert (forall key cs, key ∈ report_cols -> Forall (fun c => c ∈ report_cols) cs ->
            Forall (fun c => c ∈ imputed_cols) cs ->
            exists t, group_means key cs df = Ok t) as Hmeans.
  { intros key cs Hkey Hcs Himp. apply means_total; [done | by apply Hc | done |].
    eapply Forall_impl; [exact Hcs|]. apply Hc. }
  assert (forall key name, key ∈ report_cols ->
            exists t, GroupStatistics.pass_rate key name df = Ok t) as Hpass.
  { intros key name Hkey. apply pass_rate_total; [done | by apply Hc |].
    apply Hc. compute_done. }
  assert (forall key, key ∈ report_cols ->
            exists t, GroupStatistics.nb_students key df = Ok t) as Hcount.
  { intros key Hkey. by apply nb_students_total, Hc. }
  unfold compute_all_stats.
  unfold TrackStatistics.nb_students, TrackStatistics.avg_scores,
    TrackStatistics.avg_attendance, TrackStatistics.avg_project_scores,
    TrackStatistics.pass_rate, CohortStatistics.nb_students,
    CohortStatistics.avg_scores, CohortStatistics.avg_attendance,
    CohortStatistics.avg_project_scores, CohortStatistics.pass_rate,
    IncomeStatusStatistics.nb_students, IncomeStatusStatistics.avg_scores,
    IncomeStatusStatistics.avg_attendance,
    IncomeStatusStatistics.avg_project_scores,
    IncomeStatusStatistics.avg_passed_rate,
    GroupStatistics.avg_scores, GroupStatistics.avg_attendance,
    GroupStatistics.avg_project_scores.
  destruct (Hcount "Track" ltac:(compute_done)) as [t1 ->].
  destruct (Hmeans "Track" ["Math"; "English"; "Science"; "History"]
              ltac:(compute_done) ltac:(compute_done) ltac:(compute_done))
    as [t2 ->].
  destruct (Hmeans "Track" ["Attendance (%)"]
              ltac:(compute_done) ltac:(compute_done) ltac:(compute_done))
    as [t3 ->].
  destruct (Hmeans "Track" ["ProjectScore"]
              ltac:(compute_done) ltac:(compute_done) ltac:(compute_done))
    as [t4 ->].
  destruct (Hpass "Track" "Pass Rate (%)" ltac:(compute_done)) as [t5 ->].
  destruct (corr_total df Hclean) as [t6 ->]; try (apply Hc; compute_done).
  destruct (Hcount "Cohort" ltac:(compute_done)) as [t7 ->].
  destruct (Hmeans "Cohort" ["Math"; "English"; "Science"; "History"]
              ltac:(compute_done) ltac:(compute_done) ltac:(compute_done))
    as [t8 ->].
  destruct (Hmeans "Cohort" ["Attendance (%)"]
              ltac:(compute_done) ltac:(compute_done) ltac:(compute_done))
    as [t9 ->].
  destruct (Hmeans "Cohort" ["ProjectScore"]
              ltac:(compute_done) ltac:(compute_done) ltac:(compute_done))
    as [t10 ->].
  destruct (Hpass "Cohort" "Pass Rate (%)" ltac:(compute_done)) as [t11 ->].
  destruct (Hcount "IncomeStudent" ltac:(compute_done)) as [t12 ->].
  destruct (Hmeans "IncomeStudent" ["Math"; "English"; "Science"; "History"]
              ltac:(compute_done) ltac:(compute_done) ltac:(compute_done))
    as [t13 ->].
  destruct (Hmeans "IncomeStudent" ["Attendance (%)"]
              ltac:(compute_done) ltac:(compute_done) ltac:(compute_done))
    as [t14 ->].
  destruct (Hmeans "IncomeStudent" ["ProjectScore"]
              ltac:(compute_done) ltac:(compute_done) ltac:(compute_done))
    as [t15 ->].
  destruct (Hpass "IncomeStudent" "Pass rate (%)" ltac:(compute_done)) as [t16 ->].
  simpl. eexists. split; done.
Qed.

(** On a cleaned and deduplicated frame that has the ten columns the tables
    read, [compute_all_stats] raises nothing: it returns the sixteen tables,
    under their names, in sheet order. *)
Theorem compute_all_stats_total `{L : PyLib} (df : DataFrame) :
  cleaned_frame df -> Forall (fun c => c ∈ columns df) report_cols ->
  exists stats, compute_all_stats df = Ok stats /\ fmap fst stats = table_names.
Proof. exact (compute_all_stats_Ok df). Qed.

Lemma compute_all_stats_total_witness :
  exists stats, compute_all_stats sample_cleaned = Ok stats
                /\ fmap fst stats = table_names.
Proof.
  apply (compute_all_stats_total (L := ascii_lib) sample_cleaned).
  - exists sample_frame, sample_clean. split; compute_done.
  - compute_done.
Defined.

(** How each table of the report is computed. *)
Lemma compute_all_stats_tables (df : DataFrame) (stats : list (string * Table))
    (name : string) (t : Table) :
  compute_all_stats df = Ok stats -> (name, t) ∈ stats ->
  (name ∈ count_tables /\ exists key, GroupStatistics.nb_students key df = Ok t)
  \/ (exists key cs u, Forall (fun c => c ∈ score_cols) cs /\
        group_means key cs df = Ok u /\ t = round_numeric u)
  \/ (exists key nm u, GroupStatistics.pass_rate key nm df = Ok u /\
        t = round_numeric u)
  \/ (name = "Track - Corr (%)" /\
      exists rs, TrackStatistics.corr_attendance_project df = Ok rs /\
                 t = round_corr rs).
Proof.
  intros Hstats Hin. unfold compute_all_stats in Hstats.
  unfold TrackStatistics.nb_students, TrackStatistics.avg_scores,
    TrackStatistics.avg_attendance, TrackStatistics.avg_project_scores,
    TrackStatistics.pass_rate, CohortStatistics.nb_students,
    CohortStatistics.avg_scores, CohortStatistics.avg_attendance,
    CohortStatistics.avg_project_scores, CohortStatistics.pass_rate,
    IncomeStatusStatistics.nb_students, IncomeStatusStatistics.avg_scores,
    IncomeStatusStatistics.avg_attendance,
    IncomeStatusStatistics.avg_project_scores,
    IncomeStatusStatistics.avg_passed_rate,
    GroupStatistics.avg_scores, GroupStatistics.avg_attendance,
    GroupStatistics.avg_project_scores in Hstats.
  apply bind_Ok in Hstats as (t1 & H1 & Hstats).
  apply bind_Ok in Hstats as (t2 & (u2 & H2 & ->)%fmap_Ok & Hstats).
  apply bind_Ok in Hstats as (t3 & (u3 & H3 & ->)%fmap_Ok & Hstats).
  apply bind_Ok in Hstats as (t4 & (u4 & H4 & ->)%fmap_Ok & Hstats).
  apply bind_Ok in Hstats as (t5 & (u5 & H5 & ->)%fmap_Ok & Hstats).
  apply bind_Ok in Hstats as (t6 & (u6 & H6 & ->)%fmap_Ok & Hstats).
  apply bind_Ok in Hstats as (t7 & H7 & Hstats).
  apply bind_Ok in Hstats as (t8 & (u8 & H8 & ->)%fmap_Ok & Hstats).
  apply bind_Ok in Hstats as (t9 & (u9 & H9 & ->)%fmap_Ok & Hstats).
  apply bind_Ok in Hstats as (t10 & (u10 & H10 & ->)%fmap_Ok & Hstats).
  apply bind_Ok in Hstats as (t11 & (u11 & H11 & ->)%fmap_Ok & Hstats).
  apply bind_Ok in Hstats as (t12 & H12 & Hstats).
  apply bind_Ok in Hstats as (t13 & (u13 & H13 & ->)%fmap_Ok & Hstats).
  apply bind_Ok in Hstats as (t14 & (u14 & H14 & ->)%fmap_Ok & Hstats).
  apply bind_Ok in Hstats as (t15 & (u15 & H15 & ->)%fmap_Ok & Hstats).
  apply bind_Ok in Hstats as (t16 & (u16 & H16 & ->)%fmap_Ok & Hstats).
  injection Hstats as <-.
  repeat (apply elem_of_cons in Hin as [[= -> ->]|Hin]);
    [..|by apply elem_of_nil in Hin];
    first [ left; split; [compute_done | by eexists]
          | right; left; eexists _, _, _;
            refine (conj _ (conj _ eq_refl)); [|eassumption]; compute_done
          | right; right; left; eexists _, _, _;
            refine (conj _ eq_refl); eassumption
          | right; right; right; split; [reflexivity|];
            eexists; refine (conj _ eq_refl); eassumption ].
Qed.

(** On a cleaned and deduplicated frame, every average of the report -- a
    mean score, a mean attendance, a mean project score, a pass rate, by
    track, by cohort or by income status -- is a number between 0 and 100. *)
Theorem averages_in_range `{L : PyLib} (df : DataFrame)
    (stats : list (string * Table)) :
  cleaned_frame df -> compute_all_stats df = Ok stats ->
  forall name t, (name, t) ∈ stats ->
    name ∉ count_tables -> name <> "Track - Corr (%)" ->
    forall k vs v, (k, vs) ∈ body t -> v ∈ vs ->
      exists q, v = VFloat q /\ (0 <= q)%Q /\ (q <= 100)%Q.
Proof.
  intros Hclean Hstats name t Hin Hcount Hcorr k vs v Hk Hv.
  destruct (compute_all_stats_tables df stats name t Hstats Hin)
    as [[? _]|[(key & cs & u & Hcs & Hu & ->)|[(key & nm & u & Hu & ->)|[? _]]]];
    [done| | |done].
  - by apply (means_table_range key cs df u k vs v).
  - by apply (pass_table_range key nm df u k vs v).
Qed.

Lemma averages_in_range_witness :
  exists q, VFloat 85 = VFloat q /\ (0 <= q)%Q /\ (q <= 100)%Q.
Proof.
  apply (averages_in_range (L := ascii_lib) sample_cleaned sample_stats
           ltac:(exists sample_frame, sample_clean; split; compute_done)
           ltac:(compute_done)
           "Track - Attendance"
           {| header := ["Track"; "Attendance (%)"];
              body := [(VStr "Alpha", [VFloat 77]); (VStr "Beta", [VFloat 85])] |}
           ltac:(compute_done) ltac:(compute_done) ltac:(compute_done)
           (VStr "Beta") [VFloat 85]);
    compute_done.
Defined.

Lemma total_perm (l1 l2 : list nat) : l1 ≡ₚ l2 -> total l1 = total l2.
Proof. induction 1; simpl; lia. Qed.

Lemma filter_ne_id (x : cell) (l : list cell) :
  x ∉ l -> filter (fun y => y <> x) l = l.
Proof.
  induction l as [|y l IH]; [done|]. intros Hx.
  apply not_elem_of_cons in Hx as [Hxy Hx].
  rewrite filter_cons_True by (by intros ->). by rewrite IH.
Qed.

Lemma total_split (f : cell -> nat) (x : cell) (us : list cell) :
  NoDup us ->
  total (fmap f us)
  = ((if bool_decide (x ∈ us) then f x else 0)
     + total (fmap f (filter (fun y => y <> x) us)))%nat.
Proof.
  induction 1 as [|y us Hy Hnd IH]; [done|].
  rewrite fmap_cons. simpl. destruct (decide (y = x)) as [->|Hne].
  - rewrite filter_cons_False by (by intros ?).
    rewrite (filter_ne_id x us Hy), bool_decide_eq_true_2 by apply list_elem_of_here.
    done.
  - rewrite filter_cons_True by done. rewrite fmap_cons. simpl. rewrite IH.
    assert (bool_decide (x ∈ y :: us) = bool_decide (x ∈ us)) as ->.
    { apply bool_decide_ext. rewrite elem_of_cons. naive_solver. }
    lia.
Qed.

Lemma count_absent (x : cell) (l : list cell) :
  x ∉ l -> length (filter (fun y => y = x) l) = 0%nat.
Proof.
  induction l as [|y l IH]; [done|]. intros Hx.
  apply not_elem_of_cons in Hx as [Hxy Hx].
  rewrite filter_cons_False by (by intros ->). by apply IH.
Qed.

(** The counts of the distinct values of a list add up to its length. *)
Lemma count_total (ks : list cell) :
  total (fmap (fun k => length (filter (fun k' => k' = k) ks)) (unique ks))
  = length ks.
Proof.
  induction ks as [|x ks IH]; [done|].
  change (unique (x :: ks)) with (x :: filter (fun y => y <> x) (unique ks)).
  rewrite fmap_cons. simpl. rewrite filter_cons_True by done. simpl. f_equal.
  rewrite <- IH.
  rewrite (total_split (fun k => length (filter (fun k' => k' = k) ks)) x
             (unique ks) (NoDup_unique ks)).
  assert ((if bool_decide (x ∈ unique ks)
           then length (filter (fun k' => k' = x) ks) else 0%nat)
          = length (filter (fun k' => k' = x) ks)) as ->.
  { case_bool_decide as Hx; [done|]. symmetry. apply count_absent.
    by rewrite <- elem_of_unique. }
  f_equal. f_equal. apply list_fmap_ext.
  intros _ k [Hk _]%list_elem_of_lookup_2%list_elem_of_filter.
  by rewrite filter_cons_False by (by intros ->).
Qed.

Lemma length_filter_fmap {A B} (f : A -> B) (P : B -> Prop)
    `{!forall y, Decision (P y)} (l : list A) :
  length (filter P (fmap f l)) = length (filter (fun x => P (f x)) l).
Proof.
  induction l as [|x l IH]; [done|]. rewrite fmap_cons.
  destruct (decide (P (f x))).
  - rewrite !filter_cons_True by done. simpl. by rewrite IH.
  - by rewrite !filter_cons_False by done.
Qed.

Lemma filter_eq_filter_ne (k : cell) (l : list cell) :
  k <> NA -> filter (fun k' => k' = k) (filter (fun k' => k' <> NA) l)
             = filter (fun k' => k' = k) l.
Proof.
  intros Hk. induction l as [|x l IH]; [done|].
  destruct (decide (x = NA)) as [->|Hx].
  - rewrite (filter_cons_False (fun k' => k' <> NA)) by (by intros ?).
    rewrite (filter_cons_False (fun k' => k' = k) NA) by (by intros ?). done.
  - rewrite (filter_cons_True (fun k' => k' <> NA)) by done.
    destruct (decide (x = k)).
    + rewrite !filter_cons_True by done. by rewrite IH.
    + by rewrite !filter_cons_False by done.
Qed.

Lemma nb_students_rows (key : string) (df : DataFrame) (t : Table) :
  GroupStatistics.nb_students key df = Ok t ->
  exists vc,
    value_counts key df = Ok vc /\
    header t = [key; "Nb Students"] /\
    body t = fmap (fun kn : cell * nat => (kn.1, [VInt (Z.of_nat kn.2)])) vc /\
    NoDup (fmap fst vc) /\
    fmap fst vc ≡ₚ group_keys key true df /\
    (forall k n, (k, n) ∈ vc ->
       n = length (group_rows key k (rows df)) /\ (1 <= n)%nat) /\
    total (fmap snd vc) = length (filter (fun k => k <> NA) (key_column key df)).
Proof.
  unfold GroupStatistics.nb_students. intros (vc & Hvc & [= <-])%bind_Ok.
  exists vc. split; [done|]. split; [done|]. split; [done|].
  unfold value_counts in Hvc. destruct (has_col key df); [|done].
  injection Hvc as <-.
  set (ks := filter (fun k => k <> NA) (key_column key df)).
  set (cnt := fun k : cell => (k, length (filter (fun k' => k' = k) ks))).
  assert (fmap fst (sort_by (fun a b : cell * nat => (b.2 <=? a.2)%nat)
                      (fmap cnt (unique ks))) ≡ₚ unique ks) as Hperm.
  { rewrite sort_by_perm, <- list_fmap_compose. by rewrite list_fmap_id. }
  split; [by rewrite Hperm; apply NoDup_unique|]. split; [|split].
  - rewrite Hperm. unfold group_keys. rewrite sort_by_perm.
    assert (filter (fun k => true = false \/ k <> NA) (key_column key df) = ks) as ->;
      [|done].
    apply list_filter_iff. intros k. naive_solver.
  - intros k n Hkn. rewrite sort_by_perm in Hkn.
    apply list_elem_of_fmap in Hkn as (k' & [= -> ->] & Hk').
    apply elem_of_unique, list_elem_of_filter in Hk' as [Hna Hk'].
    unfold ks. rewrite (filter_eq_filter_ne k' _ Hna).
    unfold key_column. rewrite length_filter_fmap. split; [done|].
    apply list_elem_of_fmap in Hk' as (ir & -> & Hir).
    assert (ir ∈ filter (fun x : Z * row => get key x.2 = get key ir.2) (rows df))
      as Hin by (by apply list_elem_of_filter).
    destruct (filter _ (rows df)); [by apply elem_of_nil in Hin | simpl; lia].
  - rewrite (total_perm _ (fmap snd (fmap cnt (unique ks))))
      by (by rewrite sort_by_perm).
    rewrite <- list_fmap_compose. apply count_total.
Qed.

(** The table of counts of a column has one row for each value of the column
    that is not missing; its count is the number of records of the group, as
    the tables of averages group them, and is at least one; the counts add up
    to the number of records whose value is not missing; the table lists the
    same groups as the tables of averages. *)
Theorem nb_students_counts (key : string) (df : DataFrame) (t : Table) :
  GroupStatistics.nb_students key df = Ok t ->
  exists vc,
    value_counts key df = Ok vc /\
    header t = [key; "Nb Students"] /\
    body t = fmap (fun kn : cell * nat => (kn.1, [VInt (Z.of_nat kn.2)])) vc /\
    NoDup (fmap fst vc) /\
    fmap fst vc ≡ₚ group_keys key true df /\
    (forall k n, (k, n) ∈ vc ->
       n = length (group_rows key k (rows df)) /\ (1 <= n)%nat) /\
    total (fmap snd vc) = length (filter (fun k => k <> NA) (key_column key df)).
Proof. exact (nb_students_rows key df t). Qed.

Lemma nb_students_counts_witness :
  exists vc,
    value_counts "Track" sample_cleaned = Ok vc /\
    vc = [(VStr "Beta", 3%nat); (VStr "Alpha", 1%nat)] /\
    total (fmap snd vc) = length (rows sample_cleaned).
Proof.
  destruct (nb_students_counts "Track" sample_cleaned
              (match GroupStatistics.nb_students "Track" sample_cleaned with
               | Ok t => t | Raise _ => {| header := []; body := [] |} end)
              ltac:(compute_done)) as (vc & Hvc & _ & _ & _ & _ & _ & Htot).
  exists vc. split; [done|].
  assert (vc = [(VStr "Beta", 3%nat); (VStr "Alpha", 1%nat)]) as Heq.
  { assert (value_counts "Track" sample_cleaned
            = Ok [(VStr "Beta", 3%nat); (VStr "Alpha", 1%nat)]) as H
      by compute_done.
    rewrite Hvc in H. by injection H. }
  split; [done|]. rewrite Heq. compute_done.
Defined.

(** ** The key metrics of the dashboard *)

Lemma table_counts_fmap (vc : list (cell * nat)) :
  omap (fun kv : cell * list cell =>
          match kv.2 with
          | [VInt n] => Some (Z.to_nat n)
          | _ => None
          end)
    (fmap (fun kn : cell * nat => (kn.1, [VInt (Z.of_nat kn.2)])) vc)
  = fmap snd vc.
Proof.
  induction vc as [|[k n] vc IH]; [done|].
  rewrite !fmap_cons, omap_cons. simpl. by rewrite Nat2Z.id, IH.
Qed.

Lemma filter_all {A} (P : A -> Prop) `{!forall x, Decision (P x)} (l : list A) :
  Forall P l -> filter P l = l.
Proof.
  induction 1 as [|x l Hx _ IH]; [done|]. by rewrite filter_cons_True, IH.
Qed.

Lemma nunique_counts key df t :
  GroupStatistics.nb_students key df = Ok t -> nunique key df = length (body t).
Proof.
  intros (vc & _ & _ & -> & _ & Hperm & _)%nb_students_rows.
  rewrite length_fmap, <- (length_fmap fst vc), Hperm.
  unfold nunique, group_keys. rewrite sort_by_perm. do 2 f_equal.
  apply list_filter_iff. intros k. naive_solver.
Qed.

(** On a cleaned and deduplicated frame that has the [Track], [Cohort] and
    [Passed (Y/N)] columns, the key metrics agree with the report: the number
    of tracks and of cohorts is the number of rows of the two tables of
    counts, the counts of each table add up to the number of records, and
    the overall pass rate is a number between 0 and 100, or is not a number
    when the frame has no record. *)
Theorem key_metrics_agree `{L : PyLib} (df : DataFrame) (tc cc : Table) :
  cleaned_frame df ->
  "Passed (Y/N)" ∈ columns df ->
  TrackStatistics.nb_students df = Ok tc ->
  CohortStatistics.nb_students df = Ok cc ->
  exists p,
    key_metrics df = (length (rows df), length (body tc), length (body cc), p) /\
    total (table_counts tc) = length (rows df) /\
    total (table_counts cc) = length (rows df) /\
    match p with
    | Some q => (0 <= q)%Q /\ (q <= 100)%Q
    | None => rows df = []
    end.
Proof.
  intros Hclean Hp Htc Hcc.
  assert (forall key t, GroupStatistics.nb_students key df = Ok t ->
            has_col key df = true /\ nunique key df = length (body t)
            /\ total (table_counts t) = length (rows df)) as Hcount.
  { intros key t Ht. pose proof (nunique_counts _ _ _ Ht) as Hn.
    destruct (nb_students_rows _ _ _ Ht) as (vc & Hvc & _ & Hb & _ & _ & _ & Htot).
    assert (has_col key df = true) as Hh.
    { unfold value_counts in Hvc. by destruct (has_col key df). }
    split; [done|]. split; [done|].
    unfold table_counts. rewrite Hb, table_counts_fmap, Htot.
    rewrite filter_all; [unfold key_column; by rewrite length_fmap|].
    unfold key_column. rewrite Forall_fmap. apply Forall_forall. intros ir Hir.
    destruct (cleaned_frame_rows df ir Hclean Hir) as (Hna & _).
    apply Hna. by apply has_col_elem. }
  destruct (Hcount "Track" tc Htc) as (Ht & Hnt & Htt).
  destruct (Hcount "Cohort" cc Hcc) as (Hc & Hnc & Htcc).
  unfold key_metrics. rewrite Ht, Hc, Hnt, Hnc.
  apply has_col_elem in Hp as Hp'. rewrite Hp'.
  rewrite (mapR_fmap _ (fun ir : Z * row => num_rank (get "Passed (Y/N)" ir.2))).
  2:{ apply Forall_forall. intros ir Hir. apply num_of_not_text.
      destruct (cleaned_frame_rows df ir Hclean Hir) as (_ & _ & Hbool).
      by destruct (Hbool "Passed (Y/N)" ltac:(compute_done) Hp) as (b & ->). }
  simpl. rewrite omap_id_fmap. eexists. split; [done|]. split; [done|].
  split; [done|].
  destruct (rows df) as [|ir0 rs] eqn:Hrows; [done|].
  destruct (group_mean_bounds 0 1 "Passed (Y/N)" (ir0 :: rs)) as (m & Hm & H0 & H1);
    [done| |].
  - apply Forall_forall. intros ir Hir. rewrite <- Hrows in Hir.
    destruct (cleaned_frame_rows df ir Hclean Hir) as (_ & _ & Hbool).
    destruct (Hbool "Passed (Y/N)" ltac:(compute_done) Hp) as (b & ->).
    destruct b; simpl; eexists; (split; [done|]); split; done.
  - unfold group_mean in Hm.
    destruct (mean _) as [m'|]; [|done]. injection Hm as ->. simpl. split; lra.
Qed.

Lemma key_metrics_agree_witness :
  exists p,
    key_metrics sample_cleaned = (4%nat, 2%nat, 2%nat, p)
    /\ Qred <$> p = Some 50%Q.
Proof.
  assert (cleaned_frame (H := ascii_lib) sample_cleaned) as Hclean
    by (exists sample_frame, sample_clean; split; compute_done).
  assert ("Passed (Y/N)" ∈ columns sample_cleaned) as Hp by compute_done.
  assert (TrackStatistics.nb_students sample_cleaned = Ok sample_track_counts)
    as Htc by compute_done.
  assert (CohortStatistics.nb_students sample_cleaned = Ok sample_cohort_counts)
    as Hcc by compute_done.
  destruct (key_metrics_agree (L := ascii_lib) sample_cleaned
              sample_track_counts sample_cohort_counts Hclean Hp Htc Hcc)
    as (p & Hp' & _).
  exists p. split; [exact Hp'|].
  assert (Qred <$> (key_metrics sample_cleaned).2 = Some 50%Q) as H by compute_done.
  by rewrite Hp' in H.
Defined.

(** ** The order of the records from the workbook to the report *)

Lemma dropna_index_sublist d :
  fmap fst (rows (dropna d)) `sublist_of` fmap fst (rows d).
Proof. unfold dropna. simpl. apply fmap_sublist, sublist_filter. Qed.

(** The frame that [clean_df] returns on a loaded workbook has its records
    in workbook order, under the labels the loader gave them: the labels are
    distinct, they increase from record to record, and they are among those
    of the loaded frame, in the same order. So [drop_duplicates], which sorts
    by label and keeps the first record of each key, keeps of each key the
    first record in workbook order and leaves the order of the records as it
    is. *)
Theorem loaded_frame_cleaned_in_order `{L : PyLib} (wb : list sheet)
    (out : DataFrame) :
  wb <> [] -> clean_df (load_all_sheets wb) = Ok out ->
  index_sorted out /\
  NoDup (fmap fst (rows out)) /\
  fmap fst (rows out) `sublist_of` fmap fst (rows (load_all_sheets wb)) /\
  forall dd, "StudentID" ∈ columns out -> "Term" ∈ columns out ->
    drop_duplicates out = Ok dd ->
    rows dd `sublist_of` rows out /\
    forall k, filter (has_key k) (rows dd) = take 1 (filter (has_key k) (rows out)).
Proof.
  intros _ Hclean.
  assert (index_sorted out) as Hsorted.
  { eapply clean_df_index_sorted; [done|]. apply load_all_sheets_index_sorted. }
  pose proof Hclean as (d & Hd & ->)%clean_df_Ok.
  destruct (clean_steps_frame _ _ Hd) as [_ Hidx].
  pose proof (dropna_index_sublist d) as Hsub. rewrite Hidx in Hsub.
  split; [done|]. split; [|split; [done|]].
  - eapply sublist_NoDup; [apply load_all_sheets_index_NoDup | exact Hsub].
  - intros dd H1%has_col_elem H2%has_col_elem Hdd.
    rewrite (drop_duplicates_rows _ _ H1 H2 Hdd), (sort_index_id _ Hsorted).
    split; [apply keep_first_sublist|]. intros k. by rewrite keep_first_groups.
Qed.

Lemma loaded_frame_cleaned_in_order_witness :
  clean_df (L := ascii_lib) (load_all_sheets sample_workbook) = Ok sample_clean
  /\ fmap fst (rows sample_clean) = [0; 1; 2; 3; 5]%Z
  /\ index_sorted sample_clean.
Proof.
  split; [compute_done|]. split; [compute_done|].
  apply (loaded_frame_cleaned_in_order (L := ascii_lib) sample_workbook);
    compute_done.
Defined.

(** ** A numeric identifier is kept when it has four digits *)

Lemma four_digits_range_check :
  forallb (fun n : nat => fullmatch re_student_id (str_of_Z (1000 + Z.of_nat n)))
    (seq 0 (Z.to_nat 9000)) = true.
Proof. vm_compute. reflexivity. Qed.

Lemma four_digits_of_range (z : Z) :
  (1000 <= z <= 9999)%Z -> fullmatch re_student_id (str_of_Z z) = true.
Proof.
  intros Hz. pose proof four_digits_range_check as H.
  rewrite forallb_forall in H.
  specialize (H (Z.to_nat (z - 1000))).
  replace (1000 + Z.of_nat (Z.to_nat (z - 1000)))%Z with z in H by lia.
  apply H, list_elem_of_In, elem_of_seq. lia.
Qed.

(** The cell function of [StudentID] on an integer (the cast of an integer
    outside 64 bits raises; [int_cell] is read only where it does not). *)
Lemma clean_cell_student_id_int `{L : PyLib} (z : Z) :
  clean_cell "StudentID" (VInt z)
  = if bool_decide (1000 <= z <= 9999)%Z then VInt z else NA.
Proof.
  change (clean_cell "StudentID" (VInt z))
    with (student_id_cell (int_cell (VInt z))).
  unfold int_cell, astype_Int64, to_numeric. rewrite Qred_inject_Z. simpl.
  destruct ((int64_min <=? z)%Z && (z <=? int64_max)%Z) eqn:Hr; simpl.
  - unfold student_id_cell. change (astype_str (VInt z)) with (str_of_Z z).
    destruct (fullmatch re_student_id (str_of_Z z)) eqn:Hm.
    + by rewrite bool_decide_eq_true_2 by (by apply str_of_Z_four_digits).
    + rewrite bool_decide_eq_false_2; [done|]. intros Hz.
      by rewrite (four_digits_of_range z Hz) in Hm.
  - rewrite bool_decide_eq_false_2; [done|]. intros Hz.
    apply andb_false_iff in Hr as [Hr|Hr]; apply Z.leb_gt in Hr;
      unfold int64_min, int64_max in Hr; lia.
Qed.

(** A record whose [StudentID] cell holds an integer is in the frame that
    [clean_df] returns only if the integer lies between 1000 and 9999, and
    there it has the identifier unchanged. *)
Theorem student_id_kept_iff `{L : PyLib} (df out : DataFrame) i r z :
  clean_df df = Ok out -> NoDup (fmap fst (rows df)) -> (i, r) ∈ rows df ->
  "StudentID" ∈ columns df -> get "StudentID" r = VInt z ->
  (i ∈ fmap fst (rows out) -> (1000 <= z <= 9999)%Z) /\
  (forall r', (i, r') ∈ rows out -> get "StudentID" r' = VInt z).
Proof.
  intros (d & Hd & ->)%clean_df_Ok Hnd Hir Hc Hz.
  destruct (clean_steps_frame _ _ Hd) as [Hcols Hidx].
  destruct (clean_steps_cells df d Hd Hnd i r Hir) as (r0 & Hr0 & Hcells).
  assert (get "StudentID" r0
          = if bool_decide (1000 <= z <= 9999)%Z then VInt z else NA) as Hcell.
  { rewrite (proj1 (Hcells _ Hc)) by compute_done.
    by rewrite Hz, clean_cell_student_id_int. }
  assert (i ∈ fmap fst (rows (dropna d)) -> (1000 <= z <= 9999)%Z) as Hrange.
  { intros Hi. destruct (decide (1000 <= z <= 9999)%Z) as [|Hout]; [done|].
    rewrite bool_decide_eq_false_2 in Hcell by done.
    destruct (dropped_not_in d i r0); [by rewrite Hidx | done | | done].
    apply (complete_false _ _ "StudentID"); [by rewrite Hcols | done]. }
  split; [done|]. intros r' Hr'.
  assert (1000 <= z <= 9999)%Z as Hin.
  { apply Hrange, list_elem_of_fmap. by exists (i, r'). }
  apply elem_of_dropna in Hr' as [_ Hr']. simpl in Hr'.
  rewrite (NoDup_fst_eq (rows d) i r' r0); [| by rewrite Hidx | done | done].
  by rewrite Hcell, bool_decide_eq_true_2.
Qed.

Lemma student_id_kept_iff_witness :
  (0%Z ∈ fmap fst (rows sample_clean) -> (1000 <= 1001 <= 9999)%Z) /\
  (forall r', (0%Z, r') ∈ rows sample_clean -> get "StudentID" r' = VInt 1001).
Proof.
  apply (student_id_kept_iff (L := ascii_lib) sample_frame sample_clean 0%Z
           first_record 1001%Z); compute_done.
Defined.

Lemma round1_idempotent (q : Q) : round1 (round1 q) = round1 q.
Proof.
  unfold round1 at 1 3. set (k := round_half_even (q * 10)).
  assert (round_half_even (round1 q * 10) = k) as ->; [|done].
  unfold round1. fold k.
  assert (Qred (k # 10) * 10 == inject_Z k)%Q as Hk.
  { rewrite Qred_correct, Qmake_10. field. }
  unfold round_half_even.
  assert (Qfloor (Qred (k # 10) * 10) = k) as Hf.
  { rewrite (Qfloor_comp _ _ Hk). apply Qfloor_Z. }
  rewrite Hf.
  assert (Qred (k # 10) * 10 - inject_Z k == 0)%Q as H0 by (rewrite Hk; ring).
  destruct (Qcompare _ _) eqn:Hc.
  - apply Qeq_alt in Hc. rewrite H0 in Hc. discriminate Hc.
  - done.
  - apply Qgt_alt in Hc. rewrite H0 in Hc. discriminate Hc.
Qed.

(** [_round_numeric] changes nothing in a table that it has rounded; it keeps
    the header and the group keys, and every number of the table it returns
    is a float with one decimal at most (a multiple of 1/10). *)
Theorem round_numeric_idempotent (t : Table) :
  round_numeric (round_numeric t) = round_numeric t /\
  header (round_numeric t) = header t /\
  fmap fst (body (round_numeric t)) = fmap fst (body t) /\
  forall k vs v, (k, vs) ∈ body (round_numeric t) -> v ∈ vs ->
    match v with
    | VFloat q => exists m : Z, (q == m # 10)%Q
    | VInt _ => False
    | _ => True
    end.
Proof.
  split; [|split; [done|split]].
  - unfold round_numeric. simpl. f_equal. rewrite <- list_fmap_compose.
    apply list_fmap_ext. intros _ [k vs] _. simpl. f_equal.
    rewrite <- list_fmap_compose. apply list_fmap_ext. intros _ v _. simpl.
    destruct v; simpl; by rewrite ?round1_idempotent.
  - unfold round_numeric. simpl. rewrite <- list_fmap_compose.
    by apply list_fmap_ext.
  - intros k vs v ([k0 vs0] & [= -> ->] & _)%list_elem_of_fmap
      (v0 & -> & _)%list_elem_of_fmap.
    destruct v0 as [|s|z|q|b]; simpl; try done.
    + destruct (round1_spec (inject_Z z)) as (m & Hm & _). by exists m.
    + destruct (round1_spec q) as (m & Hm & _). by exists m.
Qed.

(** ** The imputed score *)

Lemma round1_rounded (m M : Q) :
  (m == M)%Q -> rounded_to_one_decimal M (round1 m).
Proof.
  intros Hm. destruct (round1_spec m) as (k & Hk & Hclose).
  exists k. unfold float_tolerance. split.
  - assert (round1 m - (k # 10) == 0)%Q as -> by (rewrite Hk; ring). done.
  - rewrite <- Hm. eapply Qle_trans; [exact Hclose|]. done.
Qed.

(** C3. In the step of [clean_df] for a score column, a valid value (a number
    in [0, 100]) is kept, and a value that is not valid, in a row with a
    track, becomes the mean of the valid values of the rows of that track
    rounded to one decimal: a multiple of one tenth, half a tenth away from
    the mean at most (at a tie the last digit is the program's choice, and
    the bounds allow for its floating point error); it stays missing when
    the track has no valid value. With Attendance (%) values 80, 90 and a
    missing one in one track, the missing one becomes 85. *)
Theorem score_imputation_track_mean :
  (forall (L : PyLib) (c : string) (df out : DataFrame),
     c ∈ score_cols -> c ∈ columns df -> clean_score c df = Ok out ->
     forall n i r, rows df !! n = Some (i, r) ->
     exists r', rows out !! n = Some (i, r') /\
       (forall q, valid_score (get c r) = Some q -> get c r' = VFloat q) /\
       (valid_score (get c r) = None -> get "Track" r <> NA ->
        let vs := omap (fun ir : Z * row => valid_score (get c ir.2))
                    (group_rows "Track" (get "Track" r) (rows df)) in
        (vs = [] -> get c r' = NA) /\
        (vs <> [] ->
           exists v, get c r' = VFloat v /\
             rounded_to_one_decimal
               (Qsum vs / inject_Z (Z.of_nat (length vs))) v))) /\
  column_of "Attendance (%)" (clean_df (L := ascii_lib) attendance_frame)
  = [VFloat 80; VFloat 90; VFloat 85].
Proof.
  split; [|vm_compute; reflexivity].
  intros L c df out Hs Hc Hclean n i r Hn.
  destruct (clean_score_cell c df out n i r Hs Hc Hclean Hn) as (r' & Hr' & _ & Hget).
  exists r'. split; [done|]. split.
  - intros q Hq. by rewrite Hget, (score_cell_valid _ _ Hq).
  - intros Hnone Htrack vs. rewrite (score_cell_missing _ Hnone) in Hget.
    simpl in Hget.
    assert (get c r' = of_float (round1 <$> mean vs)) as Hget'.
    { rewrite Hget. by destruct (get "Track" r). }
    split.
    + intros Hnil. by rewrite Hget', Hnil.
    + intros Hne. destruct (mean vs) as [m|] eqn:Hm.
      * exists (round1 m). split; [by rewrite Hget'|].
        by apply round1_rounded, mean_spec.
      * by apply mean_nil_iff in Hm.
Qed.

Lemma score_imputation_track_mean_witness :
  exists r' v,
    rows attendance_filled !! 2%nat = Some (2%Z, r') /\
    get "Attendance (%)" r' = VFloat v /\
    rounded_to_one_decimal 85 v.
Proof.
  destruct (proj1 score_imputation_track_mean ascii_lib "Attendance (%)"
              attendance_frame attendance_filled
              ltac:(compute_done) ltac:(compute_done) ltac:(compute_done)
              2%nat 2%Z
              (list_to_map [("Track", VStr "A"); ("Attendance (%)", NA)])
              ltac:(reflexivity))
    as (r' & Hr' & _ & Himp).
  destruct (Himp ltac:(reflexivity) ltac:(discriminate)) as [_ Hmean].
  destruct (Hmean ltac:(discriminate)) as (v & Hv & k & Hk & Hclose).
  exists r', v. split; [exact Hr'|]. split; [exact Hv|].
  exists k. split; [exact Hk|].
  match type of Hclose with
  | (Qabs (_ - ?M) <= _)%Q =>
      assert (M == 85)%Q as Hmean85 by (vm_compute; reflexivity)
  end.
  by rewrite <- Hmean85.
Defined.

(** ** The rows of the tables of the report *)

Section TablesInOrder.
Context `{L : PyLib}.








End TablesInOrder.


